(** * The fluent SQL builder of [database/query_builder.go] and the model
      layer of [database/model.go], embedded in Rocq.

    Conventions of the embedding.
    - A Go [string] is a byte string: [Stdlib.Strings.String.string].
    - Go's [int] is taken 64 bits wide, a [Z] in [-2^63, 2^63) with the
      wrap-around of [+], [-] and [*] written out ([Int]).
    - An [interface{}] value is a [value]; its [%s] rendering is [fmt_s].
    - An [error] built by [fmt.Errorf] is kept as the call itself: the format
      string and its arguments ([Errorf]).
    - A [*QueryBuilder] is threaded through the fluent calls; every mutator
      returns its receiver, so a chain is explicit state passing.  A run-time
      panic is the [Panic] outcome.
    - The [database/sql] handles are an execution port ([Port]) acting on an
      abstract world; every call through the port is recorded in a log. *)

From Stdlib Require Import String Ascii List ZArith Lia Bool.
From Stdlib Require Import Decimal DecimalString.
Import ListNotations.

Local Open Scope list_scope.
Local Open Scope string_scope.

(* ------------------------------------------------------------------ *)
(** ** Outcomes: a result, a panic, or an exhausted loop budget *)

Inductive outcome (A : Type) : Type :=
| Ret (a : A)
| Panic (msg : string)
| Diverge.

Arguments Ret {A} a.
Arguments Panic {A} msg.
Arguments Diverge {A}.

Definition obind {A B} (m : outcome A) (k : A -> outcome B) : outcome B :=
  match m with
  | Ret a => k a
  | Panic msg => Panic msg
  | Diverge => Diverge
  end.

Declare Scope outcome_scope.
Delimit Scope outcome_scope with outcome.
Notation "x <- m ;; k" := (obind m (fun x => k))
  (at level 61, m at next level, right associativity) : outcome_scope.

(* ------------------------------------------------------------------ *)
(** ** Go strings *)

Module GoStr.

(** [strings.HasPrefix]. *)
Fixpoint HasPrefix (s p : string) {struct p} : bool :=
  match p with
  | EmptyString => true
  | String c p' =>
      match s with
      | EmptyString => false
      | String d s' => Ascii.eqb c d && HasPrefix s' p'
      end
  end.

Fixpoint rev (s : string) : string :=
  match s with
  | EmptyString => EmptyString
  | String c s' => rev s' ++ String c EmptyString
  end.

(** [strings.HasSuffix]. *)
Definition HasSuffix (s p : string) : bool := HasPrefix (rev s) (rev p).

(** The slice expression [s[lo:hi]]: Go panics unless
    [0 <= lo <= hi <= len(s)].  The bounds are [Z] because [len(s)-1] is
    [-1] on the empty string. *)
Definition slice (s : string) (lo hi : Z) : outcome string :=
  if ((0 <=? lo) && (lo <=? hi) && (hi <=? Z.of_nat (String.length s)))%Z
  then Ret (String.substring (Z.to_nat lo) (Z.to_nat (hi - lo)) s)
  else Panic "slice bounds out of range".

Fixpoint mem (c : ascii) (chars : string) : bool :=
  match chars with
  | EmptyString => false
  | String d chars' => Ascii.eqb c d || mem c chars'
  end.

(** [strings.ContainsAny], for an ASCII set [chars]. *)
Fixpoint ContainsAny (s chars : string) : bool :=
  match s with
  | EmptyString => false
  | String c s' => mem c chars || ContainsAny s' chars
  end.

(** [strings.Join]. *)
Fixpoint Join (elems : list string) (sep : string) : string :=
  match elems with
  | [] => ""
  | [e] => e
  | e :: rest => e ++ sep ++ Join rest sep
  end.

Definition is_lower (c : ascii) : bool :=
  (97 <=? nat_of_ascii c)%nat && (nat_of_ascii c <=? 122)%nat.

Definition upper_ascii (c : ascii) : ascii :=
  if is_lower c then ascii_of_nat (nat_of_ascii c - 32) else c.

(** [strings.ToUpper] as far as this package can observe it.  The result is
    only matched against ASCII keywords and ASCII character classes (or the
    class [[^)]], which every non-ASCII byte satisfies), so what matters is
    which input runes become ASCII capitals: the letters [a]..[z], and the
    two runes whose Unicode capital is ASCII, U+0131 (bytes C4 B1, capital
    [I]) and U+017F (bytes C5 BF, capital [S]).  Other non-ASCII bytes are
    left as they are; Go maps them to other non-ASCII bytes. *)
Fixpoint ToUpper (s : string) : string :=
  match s with
  | EmptyString => EmptyString
  | String c s' =>
      match s' with
      | String d s'' =>
          if Ascii.eqb c (ascii_of_nat 196) && Ascii.eqb d (ascii_of_nat 177)
          then String "I" (ToUpper s'')
          else if Ascii.eqb c (ascii_of_nat 197) && Ascii.eqb d (ascii_of_nat 191)
          then String "S" (ToUpper s'')
          else String (upper_ascii c) (ToUpper s')
      | EmptyString => String (upper_ascii c) EmptyString
      end
  end.

(** The number of occurrences of a byte. *)
Fixpoint count (c : ascii) (s : string) : nat :=
  match s with
  | EmptyString => 0
  | String d s' => (if Ascii.eqb c d then 1 else 0) + count c s'
  end.

(** [strings.Contains]. *)
Fixpoint Contains (s sub : string) : bool :=
  HasPrefix s sub ||
  match s with
  | EmptyString => false
  | String _ s' => Contains s' sub
  end.

(** [fmt]'s [%d] verb on an [int]. *)
Definition itoa (z : Z) : string := NilZero.string_of_int (Z.to_int z).

End GoStr.

(* ------------------------------------------------------------------ *)
(** ** Go's [int] *)

Module Int.

Definition bits : Z := 64.
Definition min_int : Z := - 2 ^ (bits - 1).
Definition max_int : Z := 2 ^ (bits - 1) - 1.

Definition in_range (z : Z) : Prop := (min_int <= z <= max_int)%Z.

(** Two's-complement reduction into the range of [int]. *)
Definition wrap (z : Z) : Z :=
  ((z - min_int) mod 2 ^ bits + min_int)%Z.

Definition add (x y : Z) : Z := wrap (x + y).
Definition sub (x y : Z) : Z := wrap (x - y).
Definition mul (x y : Z) : Z := wrap (x * y).

End Int.

(* ------------------------------------------------------------------ *)
(** ** Regular expressions, as [regexp.MustCompile] reads the patterns *)

Module Regex.

Inductive regex : Type :=
| Empty
| Eps
| Class (p : ascii -> bool)
| Cat (r1 r2 : regex)
| Alt (r1 r2 : regex)
| Star (r : regex).

Fixpoint nullable (r : regex) : bool :=
  match r with
  | Empty => false
  | Eps => true
  | Class _ => false
  | Cat r1 r2 => nullable r1 && nullable r2
  | Alt r1 r2 => nullable r1 || nullable r2
  | Star _ => true
  end.

Definition cat (r1 r2 : regex) : regex :=
  match r1, r2 with
  | Empty, _ => Empty
  | _, Empty => Empty
  | Eps, _ => r2
  | _, Eps => r1
  | _, _ => Cat r1 r2
  end.

Definition alt (r1 r2 : regex) : regex :=
  match r1, r2 with
  | Empty, _ => r2
  | _, Empty => r1
  | _, _ => Alt r1 r2
  end.

(** Brzozowski derivative. *)
Fixpoint deriv (c : ascii) (r : regex) : regex :=
  match r with
  | Empty => Empty
  | Eps => Empty
  | Class p => if p c then Eps else Empty
  | Cat r1 r2 =>
      if nullable r1
      then alt (cat (deriv c r1) r2) (deriv c r2)
      else cat (deriv c r1) r2
  | Alt r1 r2 => alt (deriv c r1) (deriv c r2)
  | Star r1 => cat (deriv c r1) (Star r1)
  end.

(** [MatchString] of a pattern anchored by [^] and [$]: the whole text
    must match (without the [m] flag Go's [$] is the end of the text). *)
Fixpoint MatchString (r : regex) (s : string) : bool :=
  match s with
  | EmptyString => nullable r
  | String c s' => MatchString (deriv c r) s'
  end.

Definition Plus (r : regex) : regex := Cat r (Star r).
Definition Opt (r : regex) : regex := Alt Eps r.

Fixpoint Lit (s : string) : regex :=
  match s with
  | EmptyString => Eps
  | String c s' => Cat (Class (Ascii.eqb c)) (Lit s')
  end.

Definition between (lo hi : nat) (c : ascii) : bool :=
  (lo <=? nat_of_ascii c)%nat && (nat_of_ascii c <=? hi)%nat.

(** [[a-zA-Z_]] *)
Definition identStart (c : ascii) : bool :=
  between 97 122 c || between 65 90 c || Ascii.eqb c "_".

(** [[a-zA-Z0-9_]] *)
Definition identChar (c : ascii) : bool :=
  between 97 122 c || between 65 90 c || between 48 57 c || Ascii.eqb c "_".

(** [\s]: tab, newline, form feed, carriage return, space. *)
Definition space (c : ascii) : bool :=
  let n := nat_of_ascii c in
  Nat.eqb n 9 || Nat.eqb n 10 || Nat.eqb n 12 || Nat.eqb n 13 || Nat.eqb n 32.

(** [[^)]] *)
Definition notRParen (c : ascii) : bool := negb (Ascii.eqb c ")").

(** An identifier: a letter or underscore, then letters, digits and
    underscores. *)
Definition ident : regex := Cat (Class identStart) (Star (Class identChar)).

(** Two identifiers with a dot between them. *)
Definition qualified : regex := Cat ident (Cat (Lit ".") ident).

End Regex.

(* ------------------------------------------------------------------ *)
(** ** Values, errors and formatting *)

(** The dynamic values ([interface{}]) a caller binds to a query. *)
Inductive value : Type :=
| VNil
| VInt (n : Z)
| VStr (s : string)
| VBool (b : bool).

(** [fmt.Sprintf("%s", v)]: a string is written as it is; the other kinds
    get Go's bad-verb rendering. *)
Definition fmt_s (v : value) : string :=
  match v with
  | VStr s => s
  | VInt n => "%!s(int=" ++ GoStr.itoa n ++ ")"
  | VBool true => "%!s(bool=true)"
  | VBool false => "%!s(bool=false)"
  | VNil => "%!s(<nil>)"
  end.

(** An error is the [fmt.Errorf] call that built it: the format and the
    arguments.  Errors coming from the database are of the same type. *)
Inductive error : Type :=
| Errorf (format : string) (args : list errarg)
with errarg : Type :=
| AStr (s : string)
| AErr (e : error).

(* ------------------------------------------------------------------ *)
(** ** The builder's data *)

(** A [*sql.DB] and a [*sql.Tx] are named by numbers; [DB] values are either. *)
Definition conn : Type := nat.
Definition txid : Type := nat.

Inductive handle : Type :=
| OfPool (c : conn)
| OfTx (t : txid).

Record whereCondition : Type := mkCond {
  column : string;
  operator : string;
  cvalue : value;
  logic : string;
  params : option (list value)   (* [None] is the nil slice *)
}.

Record joinClause : Type := mkJoin {
  joinType : string;
  jtable : string;
  on : string
}.

(** The builder.  [unionQuery] points to another builder; the structures
    modelled are the acyclic ones. *)
#[local] Set Warnings "-register-all".
Inductive QueryBuilder : Type := mkQB {
  db : option handle;
  rawDB : option conn;
  table : string;
  selectCols : list string;
  whereConds : list whereCondition;
  orderBy : list string;
  groupBy : list string;
  having : list whereCondition;
  joins : list joinClause;
  limitCount : Z;
  offsetCount : Z;
  unionQuery : option QueryBuilder;
  unionAll : bool;
  err : option error;
  includeTrashed : bool
}.

Definition set_table (qb : QueryBuilder) (t : string) : QueryBuilder :=
  mkQB (db qb) (rawDB qb) t (selectCols qb) (whereConds qb) (orderBy qb)
       (groupBy qb) (having qb) (joins qb) (limitCount qb) (offsetCount qb)
       (unionQuery qb) (unionAll qb) (err qb) (includeTrashed qb).

Definition set_selectCols (qb : QueryBuilder) (cols : list string) : QueryBuilder :=
  mkQB (db qb) (rawDB qb) (table qb) cols (whereConds qb) (orderBy qb)
       (groupBy qb) (having qb) (joins qb) (limitCount qb) (offsetCount qb)
       (unionQuery qb) (unionAll qb) (err qb) (includeTrashed qb).

Definition set_whereConds (qb : QueryBuilder) (cs : list whereCondition) : QueryBuilder :=
  mkQB (db qb) (rawDB qb) (table qb) (selectCols qb) cs (orderBy qb)
       (groupBy qb) (having qb) (joins qb) (limitCount qb) (offsetCount qb)
       (unionQuery qb) (unionAll qb) (err qb) (includeTrashed qb).

Definition set_orderBy (qb : QueryBuilder) (o : list string) : QueryBuilder :=
  mkQB (db qb) (rawDB qb) (table qb) (selectCols qb) (whereConds qb) o
       (groupBy qb) (having qb) (joins qb) (limitCount qb) (offsetCount qb)
       (unionQuery qb) (unionAll qb) (err qb) (includeTrashed qb).

Definition set_groupBy (qb : QueryBuilder) (g : list string) : QueryBuilder :=
  mkQB (db qb) (rawDB qb) (table qb) (selectCols qb) (whereConds qb) (orderBy qb)
       g (having qb) (joins qb) (limitCount qb) (offsetCount qb)
       (unionQuery qb) (unionAll qb) (err qb) (includeTrashed qb).

Definition set_having (qb : QueryBuilder) (h : list whereCondition) : QueryBuilder :=
  mkQB (db qb) (rawDB qb) (table qb) (selectCols qb) (whereConds qb) (orderBy qb)
       (groupBy qb) h (joins qb) (limitCount qb) (offsetCount qb)
       (unionQuery qb) (unionAll qb) (err qb) (includeTrashed qb).

Definition set_joins (qb : QueryBuilder) (j : list joinClause) : QueryBuilder :=
  mkQB (db qb) (rawDB qb) (table qb) (selectCols qb) (whereConds qb) (orderBy qb)
       (groupBy qb) (having qb) j (limitCount qb) (offsetCount qb)
       (unionQuery qb) (unionAll qb) (err qb) (includeTrashed qb).

Definition set_limitCount (qb : QueryBuilder) (n : Z) : QueryBuilder :=
  mkQB (db qb) (rawDB qb) (table qb) (selectCols qb) (whereConds qb) (orderBy qb)
       (groupBy qb) (having qb) (joins qb) n (offsetCount qb)
       (unionQuery qb) (unionAll qb) (err qb) (includeTrashed qb).

Definition set_offsetCount (qb : QueryBuilder) (n : Z) : QueryBuilder :=
  mkQB (db qb) (rawDB qb) (table qb) (selectCols qb) (whereConds qb) (orderBy qb)
       (groupBy qb) (having qb) (joins qb) (limitCount qb) n
       (unionQuery qb) (unionAll qb) (err qb) (includeTrashed qb).

Definition set_union (qb : QueryBuilder) (q : QueryBuilder) (all : bool) : QueryBuilder :=
  mkQB (db qb) (rawDB qb) (table qb) (selectCols qb) (whereConds qb) (orderBy qb)
       (groupBy qb) (having qb) (joins qb) (limitCount qb) (offsetCount qb)
       (Some q) all (err qb) (includeTrashed qb).

Definition set_err (qb : QueryBuilder) (e : error) : QueryBuilder :=
  mkQB (db qb) (rawDB qb) (table qb) (selectCols qb) (whereConds qb) (orderBy qb)
       (groupBy qb) (having qb) (joins qb) (limitCount qb) (offsetCount qb)
       (unionQuery qb) (unionAll qb) (Some e) (includeTrashed qb).

Definition set_includeTrashed (qb : QueryBuilder) (b : bool) : QueryBuilder :=
  mkQB (db qb) (rawDB qb) (table qb) (selectCols qb) (whereConds qb) (orderBy qb)
       (groupBy qb) (having qb) (joins qb) (limitCount qb) (offsetCount qb)
       (unionQuery qb) (unionAll qb) (err qb) b.

(** [NewQueryBuilder(db)]; a nil [*sql.DB] is [None]. *)
Definition NewQueryBuilder (d : option conn) : QueryBuilder :=
  mkQB (option_map OfPool d) d "" [] [] [] [] [] [] 0%Z 0%Z None false None false.

(** [newQueryBuilderWithDB(db, rawDB)]. *)
Definition newQueryBuilderWithDB (d : option handle) (raw : option conn) : QueryBuilder :=
  mkQB d raw "" [] [] [] [] [] [] 0%Z 0%Z None false None false.

(* ------------------------------------------------------------------ *)
(** ** Validators *)

Import Regex.

Definition validIdentifier_pattern : string :=
  "^[a-zA-Z_][a-zA-Z0-9_]*(\.[a-zA-Z_][a-zA-Z0-9_]*)?$".

Definition validIdentifier : regex :=
  Cat ident (Opt (Cat (Lit ".") ident)).

Definition validOrderDirection_pattern : string := "^(ASC|DESC)$".

Definition validOrderDirection : regex := Alt (Lit "ASC") (Lit "DESC").

Definition backtick : string := "`".
Definition dquote : string := String (ascii_of_nat 34) EmptyString.

(** [isValidIdentifier].  The quoted branch slices [s[1 : len(s)-1]]. *)
Definition isValidIdentifier (s : string) : outcome bool :=
  if (GoStr.HasPrefix s backtick && GoStr.HasSuffix s backtick) ||
     (GoStr.HasPrefix s dquote && GoStr.HasSuffix s dquote)
  then
    (inner <- GoStr.slice s 1 (Z.of_nat (String.length s) - 1) ;;
     Ret ((0 <? String.length inner)%nat &&
          negb (GoStr.ContainsAny inner (backtick ++ dquote))))%outcome
  else Ret (MatchString validIdentifier s).

Definition validOps : list string :=
  [ "="; "!="; "<>"; "<"; ">"; "<="; ">="; "LIKE"; "NOT LIKE";
    "IN"; "NOT IN"; "BETWEEN"; "IS NULL"; "IS NOT NULL"; "REGEXP" ].

(** [isValidOperator]: a lookup of the upper-cased operator in the map. *)
Definition isValidOperator (op : string) : bool :=
  existsb (String.eqb (GoStr.ToUpper op)) validOps.

Definition aggregateFuncs_pattern : string :=
  "^(COUNT|SUM|AVG|MIN|MAX|GROUP_CONCAT)\s*\([^)]+\)(\s+AS\s+[a-zA-Z_][a-zA-Z0-9_]*)?$".

Definition aggregateFuncs : regex :=
  Cat (Alt (Lit "COUNT") (Alt (Lit "SUM") (Alt (Lit "AVG") (Alt (Lit "MIN")
        (Alt (Lit "MAX") (Lit "GROUP_CONCAT"))))))
  (Cat (Star (Class space))
  (Cat (Lit "(")
  (Cat (Plus (Class notRParen))
  (Cat (Lit ")")
       (Opt (Cat (Plus (Class space))
            (Cat (Lit "AS")
            (Cat (Plus (Class space)) ident)))))))).

Definition aliasPattern_pattern : string :=
  "^[a-zA-Z_][a-zA-Z0-9_]*(\.[a-zA-Z_][a-zA-Z0-9_]*)?\s+AS\s+[a-zA-Z_][a-zA-Z0-9_]*$".

Definition aliasPattern : regex :=
  Cat validIdentifier
  (Cat (Plus (Class space))
  (Cat (Lit "AS")
  (Cat (Plus (Class space)) ident))).

(** [isValidSelectExpression]. *)
Definition isValidSelectExpression (s : string) : bool :=
  if MatchString aggregateFuncs (GoStr.ToUpper s) then true
  else MatchString aliasPattern s.

(** One comparison [a.b = c.d] of the join pattern. *)
Definition joinEquality : regex :=
  Cat qualified
  (Cat (Star (Class space))
  (Cat (Lit "=")
  (Cat (Star (Class space)) qualified))).

Definition joinPattern_pattern : string :=
  "^[a-zA-Z_][a-zA-Z0-9_]*\.[a-zA-Z_][a-zA-Z0-9_]*\s*=\s*[a-zA-Z_][a-zA-Z0-9_]*\.[a-zA-Z_][a-zA-Z0-9_]*(\s+(AND|OR)\s+[a-zA-Z_][a-zA-Z0-9_]*\.[a-zA-Z_][a-zA-Z0-9_]*\s*=\s*[a-zA-Z_][a-zA-Z0-9_]*\.[a-zA-Z_][a-zA-Z0-9_]*)*$".

(** The pattern of [isValidJoinCondition]: one comparison, then any number
    of further ones, each after spaces, AND or OR, and spaces. *)
Definition joinPattern : regex :=
  Cat joinEquality
      (Star (Cat (Plus (Class space))
            (Cat (Alt (Lit "AND") (Lit "OR"))
            (Cat (Plus (Class space)) joinEquality)))).

Definition isValidJoinCondition (on : string) : bool :=
  MatchString joinPattern on.

(* ------------------------------------------------------------------ *)
(** ** Mutators

    Each takes the receiver last and returns it, as the fluent calls do. *)

Local Open Scope outcome_scope.

Definition Table (t : string) (qb : QueryBuilder) : outcome QueryBuilder :=
  ok <- isValidIdentifier t ;;
  if negb ok
  then Ret (set_err qb (Errorf "invalid table name: %q" [AStr t]))
  else Ret (set_table qb t).

(** The loop of [Select] over the columns still to be looked at. *)
Fixpoint Select_loop (rest columns : list string) (qb : QueryBuilder)
  : outcome QueryBuilder :=
  match rest with
  | [] => Ret (set_selectCols qb columns)
  | col :: rest' =>
      if String.eqb col "*" || isValidSelectExpression col
      then Select_loop rest' columns qb
      else
        ok <- isValidIdentifier col ;;
        if negb ok
        then Ret (set_err qb (Errorf "invalid column name: %q" [AStr col]))
        else Select_loop rest' columns qb
  end.

Definition Select (columns : list string) (qb : QueryBuilder) : outcome QueryBuilder :=
  Select_loop columns columns qb.

Definition Where (col op : string) (v : value) (qb : QueryBuilder)
  : outcome QueryBuilder :=
  ok <- isValidIdentifier col ;;
  if negb ok
  then Ret (set_err qb (Errorf "invalid column name in WHERE: %q" [AStr col]))
  else if negb (isValidOperator op)
  then Ret (set_err qb (Errorf "invalid operator in WHERE: %q" [AStr op]))
  else Ret (set_whereConds qb (whereConds qb ++ [mkCond col op v "AND" None])%list).

Definition OrWhere (col op : string) (v : value) (qb : QueryBuilder)
  : outcome QueryBuilder :=
  ok <- isValidIdentifier col ;;
  if negb ok
  then Ret (set_err qb (Errorf "invalid column name in OrWhere: %q" [AStr col]))
  else if negb (isValidOperator op)
  then Ret (set_err qb (Errorf "invalid operator in OrWhere: %q" [AStr op]))
  else Ret (set_whereConds qb (whereConds qb ++ [mkCond col op v "OR" None])%list).

Definition WhereIn (col : string) (values : list value) (qb : QueryBuilder)
  : outcome QueryBuilder :=
  ok <- isValidIdentifier col ;;
  if negb ok
  then Ret (set_err qb (Errorf "invalid column name in WhereIn: %q" [AStr col]))
  else
    let placeholders := map (fun _ => "?") values in
    let inClause := "(" ++ GoStr.Join placeholders ", " ++ ")" in
    Ret (set_whereConds qb
           (whereConds qb ++ [mkCond col "IN" (VStr inClause) "AND" (Some values)])%list).

Definition WhereBetween (col : string) (start_ end_ : value) (qb : QueryBuilder)
  : outcome QueryBuilder :=
  ok <- isValidIdentifier col ;;
  if negb ok
  then Ret (set_err qb (Errorf "invalid column name in WhereBetween: %q" [AStr col]))
  else Ret (set_whereConds qb
              (whereConds qb ++
               [mkCond col "BETWEEN" (VStr "? AND ?") "AND" (Some [start_; end_])])%list).

Definition WhereNull (col : string) (qb : QueryBuilder) : outcome QueryBuilder :=
  ok <- isValidIdentifier col ;;
  if negb ok
  then Ret (set_err qb (Errorf "invalid column name in WhereNull: %q" [AStr col]))
  else Ret (set_whereConds qb
              (whereConds qb ++ [mkCond col "IS NULL" (VStr "") "AND" None])%list).

Definition WhereNotNull (col : string) (qb : QueryBuilder) : outcome QueryBuilder :=
  ok <- isValidIdentifier col ;;
  if negb ok
  then Ret (set_err qb (Errorf "invalid column name in WhereNotNull: %q" [AStr col]))
  else Ret (set_whereConds qb
              (whereConds qb ++ [mkCond col "IS NOT NULL" (VStr "") "AND" None])%list).

(** [Join], [LeftJoin] and [RightJoin] differ in the join type and in the
    two messages. *)
Definition joinWith (kind msgTable msgOn t onText : string) (qb : QueryBuilder)
  : outcome QueryBuilder :=
  ok <- isValidIdentifier t ;;
  if negb ok
  then Ret (set_err qb (Errorf msgTable [AStr t]))
  else if negb (isValidJoinCondition onText)
  then Ret (set_err qb (Errorf msgOn [AStr onText]))
  else Ret (set_joins qb (joins qb ++ [mkJoin kind t onText])%list).

Definition Join := joinWith "INNER"
  "invalid table name in Join: %q" "invalid JOIN condition: %q".
Definition LeftJoin := joinWith "LEFT"
  "invalid table name in LeftJoin: %q" "invalid LEFT JOIN condition: %q".
Definition RightJoin := joinWith "RIGHT"
  "invalid table name in RightJoin: %q" "invalid RIGHT JOIN condition: %q".

Definition OrderBy (col direction : string) (qb : QueryBuilder)
  : outcome QueryBuilder :=
  ok <- isValidIdentifier col ;;
  if negb ok
  then Ret (set_err qb (Errorf "invalid column name in OrderBy: %q" [AStr col]))
  else
    let direction := if String.eqb direction "" then "ASC" else direction in
    let dir := GoStr.ToUpper direction in
    if negb (MatchString validOrderDirection dir)
    then Ret (set_err qb (Errorf "invalid ORDER BY direction: %q" [AStr direction]))
    else Ret (set_orderBy qb (orderBy qb ++ [col ++ " " ++ dir]%string)%list).

Fixpoint GroupBy_loop (rest columns : list string) (qb : QueryBuilder)
  : outcome QueryBuilder :=
  match rest with
  | [] => Ret (set_groupBy qb (groupBy qb ++ columns)%list)
  | col :: rest' =>
      ok <- isValidIdentifier col ;;
      if negb ok
      then Ret (set_err qb (Errorf "invalid column name in GroupBy: %q" [AStr col]))
      else GroupBy_loop rest' columns qb
  end.

Definition GroupBy (columns : list string) (qb : QueryBuilder) : outcome QueryBuilder :=
  GroupBy_loop columns columns qb.

Definition Having (col op : string) (v : value) (qb : QueryBuilder)
  : outcome QueryBuilder :=
  ok <- isValidIdentifier col ;;
  if negb ok && negb (isValidSelectExpression col)
  then Ret (set_err qb (Errorf "invalid column/expression in Having: %q" [AStr col]))
  else if negb (isValidOperator op)
  then Ret (set_err qb (Errorf "invalid operator in Having: %q" [AStr op]))
  else Ret (set_having qb (having qb ++ [mkCond col op v "AND" None])%list).

Definition Limit (count : Z) (qb : QueryBuilder) : QueryBuilder :=
  set_limitCount qb count.

Definition Offset (count : Z) (qb : QueryBuilder) : QueryBuilder :=
  set_offsetCount qb count.

Definition Union (query : QueryBuilder) (qb : QueryBuilder) : QueryBuilder :=
  set_union qb query false.

Definition UnionAll (query : QueryBuilder) (qb : QueryBuilder) : QueryBuilder :=
  set_union qb query true.

(** [Paginate], on 64-bit [int]s. *)
Definition Paginate (page perPage : Z) (qb : QueryBuilder) : QueryBuilder :=
  let page := if (page <? 1)%Z then 1%Z else page in
  let perPage := if (perPage <? 1)%Z then 15%Z else perPage in
  let offset := Int.mul (Int.sub page 1) perPage in
  Offset offset (Limit perPage qb).

Definition WithTrashed (qb : QueryBuilder) : QueryBuilder :=
  set_includeTrashed qb true.

Definition OnlyTrashed (qb : QueryBuilder) : outcome QueryBuilder :=
  WhereNotNull "deleted_at" qb.

(* ------------------------------------------------------------------ *)
(** ** Assembly: [ToSQL]

    [query] is the [strings.Builder], [ps] the parameter slice; a nil slice
    and an empty one are both [[]]. *)

(** The [switch] on the operator in the WHERE loop. *)
Definition writeCond (cond : whereCondition) (query : string) (ps : list value)
  : string * list value :=
  if String.eqb (operator cond) "IS NULL" || String.eqb (operator cond) "IS NOT NULL"
  then (query ++ column cond ++ " " ++ operator cond, ps)
  else if String.eqb (operator cond) "IN" || String.eqb (operator cond) "BETWEEN"
  then (query ++ column cond ++ " " ++ operator cond ++ " " ++ fmt_s (cvalue cond),
        match params cond with
        | Some extra => (ps ++ extra)%list
        | None => ps
        end)
  else (query ++ column cond ++ " " ++ operator cond ++ " ?",
        (ps ++ [cvalue cond])%list).

(** [for i, cond := range qb.whereConds], from index [i] on. *)
Fixpoint whereLoop (i : nat) (conds : list whereCondition)
                   (query : string) (ps : list value) : string * list value :=
  match conds with
  | [] => (query, ps)
  | cond :: rest =>
      let query := if (0 <? i)%nat then query ++ " " ++ logic cond ++ " " else query in
      let '(query, ps) := writeCond cond query ps in
      whereLoop (S i) rest query ps
  end.

(** [for i, cond := range qb.having], from index [i] on. *)
Fixpoint havingLoop (i : nat) (conds : list whereCondition)
                    (query : string) (ps : list value) : string * list value :=
  match conds with
  | [] => (query, ps)
  | cond :: rest =>
      let query := if (0 <? i)%nat then query ++ " " ++ logic cond ++ " " else query in
      havingLoop (S i) rest
        (query ++ column cond ++ " " ++ operator cond ++ " ?")
        (ps ++ [cvalue cond])%list
  end.

(** [for _, join := range qb.joins]. *)
Fixpoint joinsLoop (js : list joinClause) (query : string) : string :=
  match js with
  | [] => query
  | join :: rest =>
      joinsLoop rest
        (query ++ " " ++ joinType join ++ " JOIN " ++ jtable join ++ " ON " ++ on join)
  end.

(** The SELECT, FROM and JOIN clauses. *)
Definition writeSelectFrom (qb : QueryBuilder) : string :=
  let query := "SELECT " in
  let query :=
    if (length (selectCols qb) =? 0)%nat
    then query ++ "*"
    else query ++ GoStr.Join (selectCols qb) ", " in
  let query := query ++ " FROM " ++ table qb in
  joinsLoop (joins qb) query.

(** The WHERE clause; [Update] and [Delete] repeat this block. *)
Definition writeWhere (qb : QueryBuilder) (query : string) (ps : list value)
  : string * list value :=
  if (0 <? length (whereConds qb))%nat
  then whereLoop 0 (whereConds qb) (query ++ " WHERE ") ps
  else (query, ps).

Definition writeGroupBy (qb : QueryBuilder) (query : string) : string :=
  if (0 <? length (groupBy qb))%nat
  then query ++ " GROUP BY " ++ GoStr.Join (groupBy qb) ", "
  else query.

Definition writeHaving (qb : QueryBuilder) (query : string) (ps : list value)
  : string * list value :=
  if (0 <? length (having qb))%nat
  then havingLoop 0 (having qb) (query ++ " HAVING ") ps
  else (query, ps).

Definition writeOrderBy (qb : QueryBuilder) (query : string) : string :=
  if (0 <? length (orderBy qb))%nat
  then query ++ " ORDER BY " ++ GoStr.Join (orderBy qb) ", "
  else query.

Definition writeLimit (qb : QueryBuilder) (query : string) : string :=
  if (0 <? limitCount qb)%Z
  then query ++ " LIMIT " ++ GoStr.itoa (limitCount qb)
  else query.

Definition writeOffset (qb : QueryBuilder) (query : string) : string :=
  if (0 <? offsetCount qb)%Z
  then query ++ " OFFSET " ++ GoStr.itoa (offsetCount qb)
  else query.

(** Everything [ToSQL] writes before the UNION clause, block by block. *)
Definition assembleSelect (qb : QueryBuilder) : string * list value :=
  let query := writeSelectFrom qb in
  let '(query, ps) := writeWhere qb query [] in
  let query := writeGroupBy qb query in
  let '(query, ps) := writeHaving qb query ps in
  let query := writeOrderBy qb query in
  let query := writeLimit qb query in
  let query := writeOffset qb query in
  (query, ps).

(** [ToSQL]: the text, the parameters and the error. *)
Fixpoint ToSQL (qb : QueryBuilder) : string * list value * option error :=
  match err qb with
  | Some e => ("", [], Some e)
  | None =>
      if String.eqb (table qb) ""
      then ("", [], Some (Errorf "table name is required" []))
      else
        let '(query, ps) := assembleSelect qb in
        match unionQuery qb with
        | Some q =>
            let '(unionSQL, unionParams, uerr) := ToSQL q in
            match uerr with
            | Some e => ("", [], Some e)
            | None =>
                let unionType := if unionAll qb then "UNION ALL" else "UNION" in
                (query ++ " " ++ unionType ++ " " ++ unionSQL,
                 (ps ++ unionParams)%list, None)
            end
        | None => (query, ps, None)
        end
  end.

(** *** Builders whose texts hold no question mark of their own

    A validated text may still hold a question mark (a quoted identifier, the
    argument of an aggregate), and [Where] with the operator IN or BETWEEN
    formats its value into the text.  [placeholdersAligned] describes the
    builders in which every question mark of the text is a placeholder. *)

Definition noQ (s : string) : bool := Nat.eqb (GoStr.count "?" s) 0.

Definition extraParams (cond : whereCondition) : list value :=
  match params cond with
  | Some extra => extra
  | None => []
  end.

Definition condAligned (cond : whereCondition) : bool :=
  noQ (column cond) && noQ (operator cond) && noQ (logic cond) &&
  (if String.eqb (operator cond) "IN" || String.eqb (operator cond) "BETWEEN"
   then Nat.eqb (GoStr.count "?" (fmt_s (cvalue cond))) (length (extraParams cond))
   else true).

Definition havingAligned (cond : whereCondition) : bool :=
  noQ (column cond) && noQ (operator cond) && noQ (logic cond).

Definition joinAligned (j : joinClause) : bool :=
  noQ (joinType j) && noQ (jtable j) && noQ (on j).

Fixpoint placeholdersAligned (qb : QueryBuilder) : bool :=
  noQ (table qb) &&
  forallb noQ (selectCols qb) &&
  forallb joinAligned (joins qb) &&
  forallb condAligned (whereConds qb) &&
  forallb noQ (groupBy qb) &&
  forallb havingAligned (having qb) &&
  forallb noQ (orderBy qb) &&
  match unionQuery qb with
  | Some q => placeholdersAligned q
  | None => true
  end.

(** What [writeCond] and the HAVING loop write for one condition. *)
Definition condText (cond : whereCondition) : string := fst (writeCond cond "" []).
Definition condParams (cond : whereCondition) : list value := snd (writeCond cond "" []).
Definition havingText (cond : whereCondition) : string :=
  column cond ++ " " ++ operator cond ++ " ?".

(* ------------------------------------------------------------------ *)
(** ** The execution port

    [database/sql] is outside the package.  Its operations act on a world
    [W] of their own; a cursor ([*sql.Rows]) is the list of rows it yields,
    and [QueryRow(...).Scan(&count)] is one operation. *)

Definition row : Type := list value.

Record sqlResult : Type := mkResult {
  lastInsertId : Z;
  rowsAffected : Z
}.

Class Port (W : Type) : Type := {
  port_Query : handle -> string -> list value -> W -> (list row + error) * W;
  port_QueryRowScan : handle -> string -> list value -> W -> (Z * option error) * W;
  port_Exec : handle -> string -> list value -> W -> (sqlResult + error) * W;
  port_Begin : conn -> W -> (txid + error) * W;
  port_Commit : txid -> W -> option error * W;
  port_Rollback : txid -> W -> option error * W
}.

(** What the package did to the outside, in order. *)
Inductive event : Type :=
| EvQuery (h : handle) (sql : string) (ps : list value)
| EvQueryRow (h : handle) (sql : string) (ps : list value)
| EvExec (h : handle) (sql : string) (ps : list value)
| EvBegin (c : conn)
| EvCommit (t : txid)
| EvRollback (t : txid)
| EvCallback (rows : list row).

Record state (W : Type) : Type := mkState {
  world : W;
  log : list event
}.

Arguments mkState {W} world log.
Arguments world {W} s.
Arguments log {W} s.

(** Computations that may use the port. *)
Definition M (W A : Type) : Type := state W -> outcome (A * state W).

Definition mret {W A} (a : A) : M W A := fun st => Ret (a, st).

Definition mbind {W A B} (m : M W A) (k : A -> M W B) : M W B :=
  fun st =>
    match m st with
    | Ret (a, st') => k a st'
    | Panic msg => Panic msg
    | Diverge => Diverge
    end.

Definition lift {W A} (o : outcome A) : M W A :=
  fun st =>
    match o with
    | Ret a => Ret (a, st)
    | Panic msg => Panic msg
    | Diverge => Diverge
    end.

Declare Scope port_scope.
Delimit Scope port_scope with port.
Notation "x <- m ;; k" := (mbind m (fun x => k))
  (at level 61, m at next level, right associativity) : port_scope.

Section PortOperations.

Context {W : Type} {P : Port W}.

Definition nilDB {A} : M W A := fun _ => Panic "nil pointer dereference".

(** One call through the port: the world moves on, the log grows. *)
Definition through {A} (ev : event) (op : W -> A * W) : M W A :=
  fun st =>
    let '(a, w') := op (world st) in
    Ret (a, mkState w' (log st ++ [ev])%list).

Definition dbQuery (d : option handle) (sql : string) (ps : list value)
  : M W (list row + error) :=
  match d with
  | None => nilDB
  | Some h => through (EvQuery h sql ps) (port_Query h sql ps)
  end.

Definition dbQueryRowScan (d : option handle) (sql : string) (ps : list value)
  : M W (Z * option error) :=
  match d with
  | None => nilDB
  | Some h => through (EvQueryRow h sql ps) (port_QueryRowScan h sql ps)
  end.

Definition dbExec (d : option handle) (sql : string) (ps : list value)
  : M W (sqlResult + error) :=
  match d with
  | None => nilDB
  | Some h => through (EvExec h sql ps) (port_Exec h sql ps)
  end.

Definition dbBegin (c : conn) : M W (txid + error) :=
  through (EvBegin c) (port_Begin c).

Definition dbCommit (t : txid) : M W (option error) :=
  through (EvCommit t) (port_Commit t).

Definition dbRollback (t : txid) : M W (option error) :=
  through (EvRollback t) (port_Rollback t).

(** A caller's chunk callback, run on a cursor. *)
Definition callback (fn : list row -> W -> bool * W) (rows : list row) : M W bool :=
  through (EvCallback rows) (fn rows).

Local Open Scope port_scope.

(** *** The execution facade *)

Definition Get (qb : QueryBuilder) : M W (list row + error) :=
  let '(query, ps, e) := ToSQL qb in
  match e with
  | Some e => mret (inr e)
  | None => dbQuery (db qb) query ps
  end.

(** [Count] writes [selectCols]: it returns the builder it leaves. *)
Definition Count (qb : QueryBuilder) : M W (QueryBuilder * (Z * option error)) :=
  let originalSelect := selectCols qb in
  let qb := set_selectCols qb ["COUNT(*)"] in
  let '(query, ps, e) := ToSQL qb in
  match e with
  | Some e => mret (qb, (0%Z, Some e))
  | None =>
      let qb := set_selectCols qb originalSelect in
      r <- dbQueryRowScan (db qb) query ps ;;
      mret (qb, r)
  end.

Definition Exists (qb : QueryBuilder) : M W (QueryBuilder * (bool * option error)) :=
  r <- Count qb ;;
  let '(qb, (count, e)) := r in
  match e with
  | Some e => mret (qb, (false, Some e))
  | None => mret (qb, ((0 <? count)%Z, None))
  end.

(** [for col, val := range data] of [Insert]; [data] lists the map's
    entries in the order the range yields them. *)
Fixpoint Insert_loop (data : list (string * value))
                     (columns placeholders : list string) (values : list value)
  : outcome (error + list string * list string * list value) :=
  match data with
  | [] => Ret (inr (columns, placeholders, values))
  | (col, val) :: rest =>
      (ok <- isValidIdentifier col ;;
       if negb ok
       then Ret (inl (Errorf "invalid column name in Insert: %q" [AStr col]))
       else Insert_loop rest (columns ++ [col])%list
                        (placeholders ++ ["?"])%list (values ++ [val])%list)%outcome
  end.

Definition Insert (data : list (string * value)) (qb : QueryBuilder)
  : M W (sqlResult + error) :=
  match err qb with
  | Some e => mret (inr e)
  | None =>
      if String.eqb (table qb) ""
      then mret (inr (Errorf "table name is required" []))
      else
        r <- lift (Insert_loop data [] [] []) ;;
        match r with
        | inl e => mret (inr e)
        | inr (columns, placeholders, values) =>
            let query :=
              "INSERT INTO " ++ table qb ++ " (" ++ GoStr.Join columns ", " ++
              ") VALUES (" ++ GoStr.Join placeholders ", " ++ ")" in
            dbExec (db qb) query values
        end
  end.

Fixpoint Update_loop (data : list (string * value))
                     (setParts : list string) (ps : list value)
  : outcome (error + list string * list value) :=
  match data with
  | [] => Ret (inr (setParts, ps))
  | (col, val) :: rest =>
      (ok <- isValidIdentifier col ;;
       if negb ok
       then Ret (inl (Errorf "invalid column name in Update: %q" [AStr col]))
       else Update_loop rest (setParts ++ [(col ++ " = ?")%string])%list (ps ++ [val])%list)%outcome
  end.

Definition Update (data : list (string * value)) (qb : QueryBuilder)
  : M W (sqlResult + error) :=
  match err qb with
  | Some e => mret (inr e)
  | None =>
      if String.eqb (table qb) ""
      then mret (inr (Errorf "table name is required" []))
      else
        r <- lift (Update_loop data [] []) ;;
        match r with
        | inl e => mret (inr e)
        | inr (setParts, ps) =>
            let query := "UPDATE " ++ table qb ++ " SET " ++ GoStr.Join setParts ", " in
            let '(query, ps) := writeWhere qb query ps in
            dbExec (db qb) query ps
        end
  end.

Definition Delete (qb : QueryBuilder) : M W (sqlResult + error) :=
  match err qb with
  | Some e => mret (inr e)
  | None =>
      if String.eqb (table qb) ""
      then mret (inr (Errorf "table name is required" []))
      else
        let query := "DELETE FROM " ++ table qb in
        let '(query, ps) := writeWhere qb query [] in
        dbExec (db qb) query ps
  end.

(** *** The transaction coordinator *)

Definition Transaction (fn : QueryBuilder -> M W (option error)) (qb : QueryBuilder)
  : M W (option error) :=
  match rawDB qb with
  | None => mret (Some (Errorf "cannot start transaction: no database connection" []))
  | Some c =>
      b <- dbBegin c ;;
      match b with
      | inr e => mret (Some (Errorf "failed to begin transaction: %w" [AErr e]))
      | inl tx =>
          let txQB := newQueryBuilderWithDB (Some (OfTx tx)) (rawDB qb) in
          r <- fn txQB ;;
          match r with
          | Some e =>
              rb <- dbRollback tx ;;
              match rb with
              | Some rbErr =>
                  mret (Some (Errorf "rollback failed: %v (original error: %w)"
                                     [AErr rbErr; AErr e]))
              | None => mret (Some e)
              end
          | None =>
              c <- dbCommit tx ;;
              match c with
              | Some e => mret (Some (Errorf "failed to commit transaction: %w" [AErr e]))
              | None => mret None
              end
          end
      end
  end.

(** *** The chunk iterators

    The [for] loops have no bound of their own: [fuel] bounds the number
    of pages, and [Diverge] is the loop still running when it is spent. *)

Definition hasNext (rows : list row) : bool :=
  match rows with
  | [] => false
  | _ :: _ => true
  end.

Fixpoint Chunk_loop (fuel : nat) (size : Z) (fn : list row -> W -> bool * W)
                    (qb : QueryBuilder) (offset : Z) : M W (option error) :=
  match fuel with
  | O => fun _ => Diverge
  | S fuel' =>
      let chunkQB :=
        mkQB (db qb) (rawDB qb) (table qb) (selectCols qb) (whereConds qb)
             (orderBy qb) (groupBy qb) (having qb) (joins qb)
             size offset None false None (includeTrashed qb) in
      r <- Get chunkQB ;;
      match r with
      | inr e => mret (Some e)
      | inl rows =>
          if hasNext rows
          then
            r' <- Get chunkQB ;;
            match r' with
            | inr e => mret (Some e)
            | inl rows' =>
                shouldContinue <- callback fn rows' ;;
                if negb shouldContinue
                then mret None
                else Chunk_loop fuel' size fn qb (Int.add offset size)
            end
          else mret None
      end
  end.

Definition Chunk (fuel : nat) (size : Z) (fn : list row -> W -> bool * W)
                 (qb : QueryBuilder) : M W (option error) :=
  if (size <=? 0)%Z
  then mret (Some (Errorf "chunk size must be positive" []))
  else Chunk_loop fuel size fn qb 0%Z.

Fixpoint ChunkByID_loop (fuel : nat) (size : Z) (col : string)
                        (fn : list row -> W -> bool * W)
                        (qb : QueryBuilder) (lastID : value) : M W (option error) :=
  match fuel with
  | O => fun _ => Diverge
  | S fuel' =>
      let chunkQB :=
        mkQB (db qb) (rawDB qb) (table qb) (selectCols qb)
             (whereConds qb ++ [mkCond col ">" lastID "AND" None])%list
             [(col ++ " ASC")%string] (groupBy qb) (having qb) (joins qb)
             size 0%Z None false None (includeTrashed qb) in
      r <- Get chunkQB ;;
      match r with
      | inr e => mret (Some e)
      | inl rows =>
          if hasNext rows
          then
            r' <- Get chunkQB ;;
            match r' with
            | inr e => mret (Some e)
            | inl rows' =>
                shouldContinue <- callback fn rows' ;;
                if negb shouldContinue
                then mret None
                else ChunkByID_loop fuel' size col fn qb lastID
            end
          else mret None
      end
  end.

Definition ChunkByID (fuel : nat) (size : Z) (col : string)
                     (fn : list row -> W -> bool * W)
                     (qb : QueryBuilder) : M W (option error) :=
  if (size <=? 0)%Z
  then mret (Some (Errorf "chunk size must be positive" []))
  else
    ok <- lift (isValidIdentifier col) ;;
    if negb ok
    then mret (Some (Errorf "invalid column name: %q" [AStr col]))
    else ChunkByID_loop fuel size col fn qb (VInt 0).

End PortOperations.

(** A port that answers from a script, for running the operations on
    concrete inputs: the world is the script and never changes. *)
Record script : Type := mkScript {
  beginErr : option error;
  commitErr : option error;
  rollbackErr : option error;
  tableRows : list row
}.

#[export] Instance scriptedPort : Port script := {
  port_Query := fun _ _ _ w => (inl (tableRows w), w);
  port_QueryRowScan := fun _ _ _ w => ((Z.of_nat (length (tableRows w)), None), w);
  port_Exec := fun _ _ _ w => (inl (mkResult 1 1), w);
  port_Begin := fun _ w =>
    (match beginErr w with Some e => inr e | None => inl 7%nat end, w);
  port_Commit := fun _ w => (commitErr w, w);
  port_Rollback := fun _ w => (rollbackErr w, w)
}.

(* ------------------------------------------------------------------ *)
(** ** The model layer ([database/model.go]) *)

Record Model : Type := mkModel {
  mtable : string;
  primaryKey : string;
  softDelete : bool
}.

Definition NewModel (t : string) : Model := mkModel t "id" false.

Definition WithPrimaryKey (pk : string) (m : Model) : Model :=
  mkModel (mtable m) pk (softDelete m).

Definition WithSoftDelete (m : Model) : Model :=
  mkModel (mtable m) (primaryKey m) true.

(** [Model.Query]. *)
Definition Model_Query (m : Model) (d : option conn) : outcome QueryBuilder :=
  ok <- isValidIdentifier (mtable m) ;;
  if negb ok
  then Ret (set_err (NewQueryBuilder d)
                    (Errorf "invalid table name: %q" [AStr (mtable m)]))
  else
    qb <- Table (mtable m) (NewQueryBuilder d) ;;
    if softDelete m then WhereNull "deleted_at" qb else Ret qb.

(* ------------------------------------------------------------------ *)
(** ** Chains of fluent calls *)

Inductive call : Type :=
| CTable (t : string)
| CSelect (columns : list string)
| CWhere (col op : string) (v : value)
| COrWhere (col op : string) (v : value)
| CWhereIn (col : string) (values : list value)
| CWhereBetween (col : string) (start_ end_ : value)
| CWhereNull (col : string)
| CWhereNotNull (col : string)
| CJoin (t onText : string)
| CLeftJoin (t onText : string)
| CRightJoin (t onText : string)
| COrderBy (col direction : string)
| CGroupBy (columns : list string)
| CHaving (col op : string) (v : value)
| CLimit (count : Z)
| COffset (count : Z)
| CUnion (query : QueryBuilder)
| CUnionAll (query : QueryBuilder)
| CPaginate (page perPage : Z)
| CWithTrashed
| COnlyTrashed.

Definition apply (c : call) (qb : QueryBuilder) : outcome QueryBuilder :=
  match c with
  | CTable t => Table t qb
  | CSelect columns => Select columns qb
  | CWhere col op v => Where col op v qb
  | COrWhere col op v => OrWhere col op v qb
  | CWhereIn col values => WhereIn col values qb
  | CWhereBetween col a b => WhereBetween col a b qb
  | CWhereNull col => WhereNull col qb
  | CWhereNotNull col => WhereNotNull col qb
  | CJoin t onText => Join t onText qb
  | CLeftJoin t onText => LeftJoin t onText qb
  | CRightJoin t onText => RightJoin t onText qb
  | COrderBy col direction => OrderBy col direction qb
  | CGroupBy columns => GroupBy columns qb
  | CHaving col op v => Having col op v qb
  | CLimit n => Ret (Limit n qb)
  | COffset n => Ret (Offset n qb)
  | CUnion q => Ret (Union q qb)
  | CUnionAll q => Ret (UnionAll q qb)
  | CPaginate page perPage => Ret (Paginate page perPage qb)
  | CWithTrashed => Ret (WithTrashed qb)
  | COnlyTrashed => OnlyTrashed qb
  end.

(** A chain [qb.c1(...).c2(...)...]. *)
Fixpoint run (cs : list call) (qb : QueryBuilder) : outcome QueryBuilder :=
  match cs with
  | [] => Ret qb
  | c :: rest => qb' <- apply c qb ;; run rest qb'
  end.

(** The error a call's validation raises, whatever the receiver: the one it
    leaves on a fresh builder. *)
Definition raised (c : call) : option error :=
  match apply c (NewQueryBuilder None) with
  | Ret qb => err qb
  | Panic _ => None
  | Diverge => None
  end.

(** The sticky error after a chain that started with [e0]: every failing
    call overwrites it. *)
Definition stickyAfter (cs : list call) (e0 : option error) : option error :=
  fold_left (fun e c => match raised c with Some e' => Some e' | None => e end) cs e0.

(** Calls whose arguments bring no question mark of their own into the
    text: identifiers and expressions without one, and [Where]/[OrWhere]
    with IN or BETWEEN only on a value whose rendering has none. *)
Definition callClean (c : call) : bool :=
  match c with
  | CTable t => noQ t
  | CSelect columns => forallb noQ columns
  | CWhere col op v | COrWhere col op v =>
      noQ col && noQ op &&
      (if String.eqb op "IN" || String.eqb op "BETWEEN" then noQ (fmt_s v) else true)
  | CWhereIn col _ => noQ col
  | CWhereBetween col _ _ => noQ col
  | CWhereNull col => noQ col
  | CWhereNotNull col => noQ col
  | CJoin t onText | CLeftJoin t onText | CRightJoin t onText => noQ t && noQ onText
  | COrderBy col direction =>
      noQ col && noQ (GoStr.ToUpper (if String.eqb direction "" then "ASC" else direction))
  | CGroupBy columns => forallb noQ columns
  | CHaving col op _ => noQ col && noQ op
  | CLimit _ | COffset _ | CPaginate _ _ | CWithTrashed | COnlyTrashed => true
  | CUnion q | CUnionAll q => placeholdersAligned q
  end.

(* ------------------------------------------------------------------ *)
(** ** Notions used in the statements, and inputs for the examples *)

Definition quietScript : script := mkScript None None None [[VInt 1]; [VInt 2]].

Definition failingRollback : script :=
  mkScript None None (Some (Errorf "connection lost" [])) [].

(** What a mutator does to every receiver alike: it does not return, or it
    records an error and changes nothing else, or it edits the builder and
    leaves the error as it was. *)
Inductive effect (m : QueryBuilder -> outcome QueryBuilder) : Prop :=
| Aborts (H : forall qb qb', m qb <> Ret qb')
| Rejects (e : error) (H : forall qb, m qb = Ret (set_err qb e))
| Accepts (f : QueryBuilder -> QueryBuilder)
          (H : forall qb, m qb = Ret (f qb))
          (Herr : forall qb, err (f qb) = err qb).

(** [b] is [a] with a text and parameters appended; under [A] the appended
    text has as many question marks as parameters were appended. *)
Definition extends (A : Prop) (a b : string * list value) : Prop :=
  exists (s : string) (p : list value),
    b = (fst a ++ s, (snd a ++ p)%list) /\ (A -> GoStr.count "?" s = length p).

(** In [r], the text [text] stands where the parameters [vals] stand: under
    [A], as many question marks come before the text as parameters before
    the values. *)
Definition binds (A : Prop) (r : string * list value)
                 (text : string) (vals : list value) : Prop :=
  exists (s1 s2 : string) (p1 p2 : list value),
    fst r = s1 ++ text ++ s2 /\ snd r = (p1 ++ vals ++ p2)%list /\
    (A -> GoStr.count "?" s1 = length p1).

(** The texts of one builder, its union child apart. *)
Definition partsAligned (qb : QueryBuilder) : Prop :=
  noQ (table qb) = true /\
  forallb noQ (selectCols qb) = true /\
  forallb joinAligned (joins qb) = true /\
  forallb condAligned (whereConds qb) = true /\
  forallb noQ (groupBy qb) = true /\
  forallb havingAligned (having qb) = true /\
  forallb noQ (orderBy qb) = true.

Definition unionKeyword (qb : QueryBuilder) : string :=
  if unionAll qb then "UNION ALL" else "UNION".

Definition adminsQuery : QueryBuilder :=
  set_whereConds (set_table (NewQueryBuilder None) "admins")
                 [mkCond "level" ">=" (VInt 2) "AND" None].

Definition exampleChain : list call :=
  [ CTable "users";
    CSelect ["id"; "COUNT(*)"];
    CJoin "profiles" "users.id = profiles.user_id";
    CWhere "age" ">" (VInt 18);
    COrWhere "role" "=" (VStr "admin");
    CWhereIn "id" [VInt 1; VInt 2; VInt 3];
    CWhereBetween "age" (VInt 18) (VInt 65);
    CWhereNull "deleted_at";
    CGroupBy ["id"];
    CHaving "COUNT(*)" ">" (VInt 5);
    COrderBy "id" "desc";
    CLimit 10;
    CUnion adminsQuery ].

Definition exampleQuery : QueryBuilder :=
  Eval vm_compute in
  match run exampleChain (NewQueryBuilder None) with
  | Ret qb => qb
  | _ => NewQueryBuilder None
  end.

(* ------------------------------------------------------------------ *)
(** ** The rest of the package, and notions for its properties *)

(** *** The characters a pattern can read, and the strings made of them *)

(** The bytes some character class of the pattern admits. *)
Fixpoint alphabet (r : regex) (c : ascii) : bool :=
  match r with
  | Empty => false
  | Eps => false
  | Class p => p c
  | Cat r1 r2 => alphabet r1 c || alphabet r2 c
  | Alt r1 r2 => alphabet r1 c || alphabet r2 c
  | Star r1 => alphabet r1 c
  end.

Fixpoint allChars (p : ascii -> bool) (s : string) : bool :=
  match s with
  | EmptyString => true
  | String c s' => p c && allChars p s'
  end.

(** Letters, digits, underscore and dot: what a bare identifier is made of. *)
Definition bareChar (c : ascii) : bool := identChar c || Ascii.eqb c ".".

(** What a join condition is made of: the above, the equals sign, spaces. *)
Definition joinChar (c : ascii) : bool :=
  identChar c || Ascii.eqb c "." || Ascii.eqb c "=" || space c.

(** The test that sends [isValidIdentifier] into its quoted branch. *)
Definition quotedForm (s : string) : bool :=
  (GoStr.HasPrefix s backtick && GoStr.HasSuffix s backtick) ||
  (GoStr.HasPrefix s dquote && GoStr.HasSuffix s dquote).

(** The two characters [ContainsAny] looks for inside a quoted identifier. *)
Definition quoteChars : string := backtick ++ dquote.

(** A model with soft delete switched on, for the examples. *)
Definition postsModel : Model := WithSoftDelete (NewModel "posts").

(** *** The rest of the execution facade *)

(** [SoftDelete]: an [Update] of the one column deleted_at, to the string
    NOW(), passed like any other value. *)
Definition SoftDelete {W : Type} {P : Port W} (qb : QueryBuilder)
  : M W (sqlResult + error) :=
  Update [("deleted_at", VStr "NOW()")] qb.

(** [Restore]: an [Update] of deleted_at to nil. *)
Definition Restore {W : Type} {P : Port W} (qb : QueryBuilder)
  : M W (sqlResult + error) :=
  Update [("deleted_at", VNil)] qb.

(** [ForceDelete]. *)
Definition ForceDelete {W : Type} {P : Port W} (qb : QueryBuilder)
  : M W (sqlResult + error) :=
  Delete qb.

(** [Raw] and [RawExec]: the caller's text goes to the port as it is. *)
Definition Raw {W : Type} {P : Port W} (query : string) (ps : list value)
                (qb : QueryBuilder) : M W (list row + error) :=
  dbQuery (db qb) query ps.

Definition RawExec {W : Type} {P : Port W} (query : string) (ps : list value)
                   (qb : QueryBuilder) : M W (sqlResult + error) :=
  dbExec (db qb) query ps.

(** The WHERE clause of a builder and its parameters, on their own. *)
Definition whereText (qb : QueryBuilder) : string := fst (writeWhere qb "" []).
Definition whereParams (qb : QueryBuilder) : list value := snd (writeWhere qb "" []).

(** The statement texts of [Insert], [Update] and [Delete]. *)
Definition insertText (t : string) (data : list (string * value)) : string :=
  "INSERT INTO " ++ t ++ " (" ++ GoStr.Join (map fst data) ", " ++
  ") VALUES (" ++ GoStr.Join (map (fun _ => "?") data) ", " ++ ")".

Definition updateText (qb : QueryBuilder) (data : list (string * value)) : string :=
  "UPDATE " ++ table qb ++ " SET " ++
  GoStr.Join (map (fun kv => fst kv ++ " = ?") data) ", " ++ whereText qb.

Definition deleteText (qb : QueryBuilder) : string :=
  "DELETE FROM " ++ table qb ++ whereText qb.

(** Every key of the data passes identifier validation. *)
Definition keysValid (data : list (string * value)) : Prop :=
  forall col, In col (map fst data) -> isValidIdentifier col = Ret true.

(** Inputs for the examples. *)
Definition userRow : list (string * value) :=
  [("name", VStr "Ada"); ("age", VInt 36)].

Definition usersById : QueryBuilder :=
  Eval vm_compute in
  match run [CTable "users"; CWhere "id" "=" (VInt 1); COrderBy "id" "asc"; CLimit 1]
            (NewQueryBuilder (Some 0%nat)) with
  | Ret qb => qb
  | _ => NewQueryBuilder None
  end.

(** *** Relations, scopes and [First] *)

(** [HasMany]: a new builder on the same handles. *)
Definition HasMany (relatedTable foreignKey : string) (id : value) (qb : QueryBuilder)
  : outcome QueryBuilder :=
  (q <- Table relatedTable (newQueryBuilderWithDB (db qb) (rawDB qb)) ;;
   Where foreignKey "=" id q)%outcome.

(** [BelongsTo]: the same, on the column id; the source does not use its
    [foreignKey] argument. *)
Definition BelongsTo (relatedTable foreignKey : string) (fkValue : value)
                     (qb : QueryBuilder) : outcome QueryBuilder :=
  (q <- Table relatedTable (newQueryBuilderWithDB (db qb) (rawDB qb)) ;;
   Where "id" "=" fkValue q)%outcome.

(** A [Scope] is a function on builders; [Scope(scopes...)] feeds the
    builder through them in order. *)
Definition scope : Type := QueryBuilder -> outcome QueryBuilder.

Fixpoint Scope (scopes : list scope) (qb : QueryBuilder) : outcome QueryBuilder :=
  match scopes with
  | [] => Ret qb
  | s :: rest => (qb' <- s qb ;; Scope rest qb')%outcome
  end.

Definition Active : scope := Where "active" "=" (VBool true).
Definition Recent : scope := OrderBy "created_at" "DESC".
Definition Oldest : scope := OrderBy "created_at" "ASC".
Definition Published : scope :=
  fun qb => (q <- Where "published" "=" (VBool true) qb ;;
             WhereNotNull "published_at" q)%outcome.
Definition Draft : scope := Where "published" "=" (VBool false).

(** [QueryRow] of the port, which [First] uses: the row, or the error the
    returned [*sql.Row] holds. *)
Class RowPort (W : Type) : Type := {
  port_QueryRow : handle -> string -> list value -> W -> (row + error) * W
}.

Definition dbQueryRow {W : Type} {R : RowPort W}
                      (d : option handle) (sql : string) (ps : list value)
  : M W (row + error) :=
  match d with
  | None => fun _ => Panic "nil pointer dereference"
  | Some h =>
      fun st =>
        let '(r, w') := port_QueryRow h sql ps (world st) in
        Ret (r, mkState w' (log st ++ [EvQueryRow h sql ps]))
  end.

(** [First]: the limit is written into the builder, and the error of
    [ToSQL] is dropped. *)
Definition First {W : Type} {R : RowPort W} (qb : QueryBuilder)
  : M W (QueryBuilder * (row + error)) :=
  let qb := Limit 1 qb in
  let '(query, ps, _) := ToSQL qb in
  mbind (dbQueryRow (db qb) query ps) (fun r => mret (qb, r)).

#[export] Instance scriptedRowPort : RowPort script := {
  port_QueryRow := fun _ _ _ w =>
    (match tableRows w with
     | r :: _ => inl r
     | [] => inr (Errorf "sql: no rows in result set" [])
     end, w)
}.

(** *** The shortcuts of the model *)

Definition Model_Find {W : Type} {R : RowPort W}
                      (m : Model) (d : option conn) (id : value)
  : M W (QueryBuilder * (row + error)) :=
  mbind (lift (qb <- Model_Query m d ;; Where (primaryKey m) "=" id qb)%outcome) First.

Definition Model_All {W : Type} {P : Port W} (m : Model) (d : option conn)
  : M W (list row + error) :=
  mbind (lift (Model_Query m d)) Get.

Definition Model_Create {W : Type} {P : Port W}
                        (m : Model) (d : option conn) (data : list (string * value))
  : M W (sqlResult + error) :=
  mbind (lift (Table (mtable m) (NewQueryBuilder d))) (Insert data).

Definition Model_Update {W : Type} {P : Port W}
                        (m : Model) (d : option conn) (id : value)
                        (data : list (string * value))
  : M W (sqlResult + error) :=
  mbind (lift (qb <- Table (mtable m) (NewQueryBuilder d) ;;
               Where (primaryKey m) "=" id qb)%outcome)
        (Update data).

Definition Model_Delete {W : Type} {P : Port W}
                        (m : Model) (d : option conn) (id : value)
  : M W (sqlResult + error) :=
  mbind (lift (qb <- Table (mtable m) (NewQueryBuilder d) ;;
               Where (primaryKey m) "=" id qb)%outcome)
        Delete.

(** The builder [Chunk] makes for the page at [offset]: the clauses of the
    receiver, its own limit and offset, no union and no sticky error. *)
Definition chunkPage (qb : QueryBuilder) (size offset : Z) : QueryBuilder :=
  mkQB (db qb) (rawDB qb) (table qb) (selectCols qb) (whereConds qb)
       (orderBy qb) (groupBy qb) (having qb) (joins qb)
       size offset None false None (includeTrashed qb).

(** The builder [ChunkByID] makes for every page. *)
Definition chunkByIDPage (qb : QueryBuilder) (size : Z) (col : string) (lastID : value)
  : QueryBuilder :=
  mkQB (db qb) (rawDB qb) (table qb) (selectCols qb)
       (whereConds qb ++ [mkCond col ">" lastID "AND" None])
       [col ++ " ASC"] (groupBy qb) (having qb) (joins qb)
       size 0%Z None false None (includeTrashed qb).

(** The error of a terminal call on a builder without a table. *)
Definition tableRequired : error := Errorf "table name is required" [].

(** A caller's callback that always asks for the next page. *)
Definition keepGoing {W : Type} : list row -> W -> bool * W := fun _ w => (true, w).

(** A database without rows, for the examples. *)
Definition emptyScript : script := mkScript None None None [].

(** The select list as [ToSQL] writes it. *)
Definition selectList (cols : list string) : string :=
  if (length cols =? 0)%nat then "*" else GoStr.Join cols ", ".

(** What [ToSQL] writes after the FROM and JOIN clauses and before the
    UNION clause, on its own. *)
Definition afterFrom (qb : QueryBuilder) : string * list value :=
  let '(query, ps) := writeWhere qb "" [] in
  let query := writeGroupBy qb query in
  let '(query, ps) := writeHaving qb query ps in
  let query := writeOrderBy qb query in
  let query := writeLimit qb query in
  let query := writeOffset qb query in
  (query, ps).

(** The separator the WHERE loop writes before a condition appended to the
    conditions of [qb]. *)
Definition whereSeparator (qb : QueryBuilder) (logic : string) : string :=
  match whereConds qb with
  | [] => " WHERE "
  | _ :: _ => " " ++ logic ++ " "
  end.

(** A paginated builder, for the examples. *)
Definition secondPage : QueryBuilder :=
  Paginate 2 10 (set_table (NewQueryBuilder (Some 0%nat)) "users").

(* ------------------------------------------------------------------ *)
(** ** The module registry ([ModuleRegistry])

    A value of the interface [Module]: its name and its two lifecycle
    methods, which act on the application [W].  The registry's mutex is
    left out: the calls are taken one at a time. *)

Record AModule (W : Type) : Type := mkModule {
  Name : string;
  Initialize : W -> option error * W;
  Shutdown : W -> option error * W
}.

Arguments mkModule {W} Name Initialize Shutdown.
Arguments Name {W} a.
Arguments Initialize {W} a w.
Arguments Shutdown {W} a w.

(** A Go map with string keys, as the list of its entries; a key occurs
    once. *)
Fixpoint mapGet {A : Type} (m : list (string * A)) (k : string) : option A :=
  match m with
  | [] => None
  | (k', v) :: rest => if String.eqb k k' then Some v else mapGet rest k
  end.

Fixpoint mapSet {A : Type} (m : list (string * A)) (k : string) (v : A)
  : list (string * A) :=
  match m with
  | [] => [(k, v)]
  | (k', v') :: rest =>
      if String.eqb k k' then (k, v) :: rest else (k', v') :: mapSet rest k v
  end.

Record ModuleRegistry (W : Type) : Type := mkRegistry {
  modules : list (string * AModule W);
  order : list string
}.

Arguments mkRegistry {W} modules order.
Arguments modules {W} m.
Arguments order {W} m.

(** The calls a registry makes on its modules, in order. *)
Inductive lifecycle : Type :=
| Initialized (name : string)
| ShutDown (name : string).

Definition newline : string := String (ascii_of_nat 10) EmptyString.

Section Registry.

Context {W : Type}.

Definition NewModuleRegistry : ModuleRegistry W := mkRegistry [] [].

(** [Register] returns the error and the registry it leaves. *)
Definition Registry_Register (m : AModule W) (r : ModuleRegistry W)
  : option error * ModuleRegistry W :=
  let name := Name m in
  match mapGet (modules r) name with
  | Some _ => (Some (Errorf "module %q already registered" [AStr name]), r)
  | None => (None, mkRegistry (mapSet (modules r) name m) (order r ++ [name])%list)
  end.

Definition Registry_Get (name : string) (r : ModuleRegistry W) : option (AModule W) :=
  mapGet (modules r) name.

Definition Registry_Has (name : string) (r : ModuleRegistry W) : bool :=
  match mapGet (modules r) name with
  | Some _ => true
  | None => false
  end.

Definition Registry_Names (r : ModuleRegistry W) : list string := order r.

Definition Registry_Count (r : ModuleRegistry W) : Z := Z.of_nat (length (modules r)).

(** [for _, name := range r.order] of [InitializeAll]; a name without a
    module is a call on a nil interface. *)
Fixpoint InitializeAll_loop (r : ModuleRegistry W) (names : list string)
                            (w : W) (calls : list lifecycle)
  : outcome (option error * W * list lifecycle) :=
  match names with
  | [] => Ret (None, w, calls)
  | name :: rest =>
      match mapGet (modules r) name with
      | None => Panic "nil pointer dereference"
      | Some m =>
          let '(e, w') := Initialize m w in
          match e with
          | Some e =>
              Ret (Some (Errorf "module %q initialization failed: %w"
                                [AStr name; AErr e]),
                   w', (calls ++ [Initialized name])%list)
          | None => InitializeAll_loop r rest w' (calls ++ [Initialized name])%list
          end
      end
  end.

Definition Registry_InitializeAll (r : ModuleRegistry W) (w : W)
  : outcome (option error * W * list lifecycle) :=
  InitializeAll_loop r (order r) w [].

(** The loop of [ShutdownAll], over the names from the last to the first. *)
Fixpoint ShutdownAll_loop (r : ModuleRegistry W) (names : list string)
                          (w : W) (calls : list lifecycle) (errs : list error)
  : outcome (list error * W * list lifecycle) :=
  match names with
  | [] => Ret (errs, w, calls)
  | name :: rest =>
      match mapGet (modules r) name with
      | None => Panic "nil pointer dereference"
      | Some m =>
          let '(e, w') := Shutdown m w in
          let errs :=
            match e with
            | Some e => (errs ++ [Errorf "module %q shutdown failed: %w"
                                         [AStr name; AErr e]])%list
            | None => errs
            end in
          ShutdownAll_loop r rest w' (calls ++ [ShutDown name])%list errs
      end
  end.

(** The text of an error, its [Error] method. *)
Variable errorText : error -> string.

(** How [ShutdownAll] combines the errors it has collected. *)
Definition combineErrors (errs : list error) : option error :=
  match errs with
  | [] => None
  | [e] => Some e
  | _ =>
      Some (Errorf "%s"
              [AStr (fold_left (fun errMsg e => errMsg ++ newline ++ "  - " ++ errorText e)
                               errs "multiple shutdown errors:")])
  end.

Definition Registry_ShutdownAll (r : ModuleRegistry W) (w : W)
  : outcome (option error * W * list lifecycle) :=
  (res <- ShutdownAll_loop r (List.rev (order r)) w [] [] ;;
   let '(errs, w', calls) := res in
   Ret (combineErrors errs, w', calls))%outcome.

End Registry.

(** A run of [Register] calls from the first module to the last, whatever
    each call answers. *)
Fixpoint registerAll {W : Type} (ms : list (AModule W)) (r : ModuleRegistry W)
  : ModuleRegistry W :=
  match ms with
  | [] => r
  | m :: rest => registerAll rest (snd (Registry_Register m r))
  end.

(** The names of a list, each at the place of its first occurrence, those
    in [seen] left out. *)
Fixpoint firstOccurrences (seen names : list string) : list string :=
  match names with
  | [] => []
  | n :: rest =>
      if existsb (String.eqb n) seen
      then firstOccurrences seen rest
      else n :: firstOccurrences (seen ++ [n])%list rest
  end.

(** The error a module's shutdown is wrapped into. *)
Definition shutdownFailure {W : Type} (res : AModule W -> option error) (m : AModule W)
  : list error :=
  match res m with
  | Some e => [Errorf "module %q shutdown failed: %w" [AStr (Name m); AErr e]]
  | None => []
  end.

(** Modules for the examples: the application is a counter of the calls. *)
Definition okModule (name : string) : AModule nat :=
  mkModule name (fun w => (None, S w)) (fun w => (None, S w)).

Definition badModule (name : string) : AModule nat :=
  mkModule name (fun w => (Some (Errorf "no route to host" []), S w))
                (fun w => (Some (Errorf "still busy" []), S w)).

Definition formatOf (e : error) : string :=
  match e with Errorf format _ => format end.

(** Three modules for the examples, the second failing. *)
Definition threeModules : list (AModule nat) :=
  [okModule "sms"; badModule "email"; okModule "websocket"].

(** What every registry built by [Register] satisfies: the entries of the
    map are in the order of registration, each under its module's name. *)
Definition wellFormed {W : Type} (r : ModuleRegistry W) : Prop :=
  map fst (modules r) = order r
  /\ NoDup (order r)
  /\ (forall k m, In (k, m) (modules r) -> Name m = k).

(* ================================================================== *)
(** * Properties *)

(* ------------------------------------------------------------------ *)
(** ** Facts about strings *)

Lemma append_nil_r (s : string) : s ++ "" = s.
Proof. induction s as [|c s IH]; simpl; [reflexivity | now rewrite IH]. Qed.

Lemma append_assoc (a b c : string) : (a ++ b) ++ c = a ++ (b ++ c).
Proof. induction a as [|x a IH]; simpl; [reflexivity | now rewrite IH]. Qed.

Lemma count_append (c : ascii) (a b : string) :
  GoStr.count c (a ++ b) = GoStr.count c a + GoStr.count c b.
Proof.
  induction a as [|x a IH]; simpl; [reflexivity|].
  rewrite IH. lia.
Qed.

Lemma HasPrefix_append (p s : string) : GoStr.HasPrefix (p ++ s) p = true.
Proof.
  induction p as [|c p IH]; simpl; [reflexivity|].
  now rewrite Ascii.eqb_refl, IH.
Qed.

Lemma Contains_prefix (s sub : string) :
  GoStr.HasPrefix s sub = true -> GoStr.Contains s sub = true.
Proof. intros H. destruct s; simpl in *; rewrite H; reflexivity. Qed.

Lemma Contains_append (a b c : string) : GoStr.Contains (a ++ b ++ c) b = true.
Proof.
  induction a as [|x a IH]; simpl.
  - apply Contains_prefix, HasPrefix_append.
  - rewrite IH. apply orb_true_r.
Qed.

(* ------------------------------------------------------------------ *)
(** ** Facts about [int] *)

Lemma wrap_in_range (z : Z) : Int.in_range z -> Int.wrap z = z.
Proof.
  unfold Int.in_range, Int.wrap, Int.min_int, Int.max_int, Int.bits.
  intros H. rewrite Z.mod_small; lia.
Qed.

(** Claim C5.  On a fresh builder, [Table("users").Where("id","=",1).OrWhere("id","=",2)]
    assembles to the text SELECT * FROM users WHERE id = ? OR id = ? with
    the parameters 1, 2 and no error; [Table("users").WhereIn("id",[1,2,3])]
    assembles to SELECT * FROM users WHERE id IN (?, ?, ?) with the
    parameters 1, 2, 3 and no error; and the logic keyword of the first
    condition is never written: changing it changes nothing [ToSQL] returns. *)
Theorem or_where_and_where_in_text (d : option conn) :
  (qb <- run [CTable "users"; CWhere "id" "=" (VInt 1); COrWhere "id" "=" (VInt 2)]
             (NewQueryBuilder d) ;;
   Ret (ToSQL qb))%outcome
  = Ret ("SELECT * FROM users WHERE id = ? OR id = ?", [VInt 1; VInt 2], None)
  /\
  (qb <- run [CTable "users"; CWhereIn "id" [VInt 1; VInt 2; VInt 3]]
             (NewQueryBuilder d) ;;
   Ret (ToSQL qb))%outcome
  = Ret ("SELECT * FROM users WHERE id IN (?, ?, ?)", [VInt 1; VInt 2; VInt 3], None)
  /\
  (forall (qb : QueryBuilder) (c : whereCondition) (rest : list whereCondition)
          (l : string),
      whereConds qb = c :: rest ->
      ToSQL (set_whereConds qb
               (mkCond (column c) (operator c) (cvalue c) l (params c) :: rest))
      = ToSQL qb).
Proof.
  split; [|split].
  - destruct d; reflexivity.
  - destruct d; reflexivity.
  - intros qb c rest l H.
    destruct qb; simpl in H; subst.
    destruct c; reflexivity.
Qed.

(** Claim C10, counterexample.  Page 2^62+1 with 4 rows per page are two
    [int]s; the offset [Paginate] stores is 0, not (page-1)*perPage = 2^64:
    the product wraps around. *)
Lemma paginate_offset_overflow :
  Int.in_range 4611686018427387905 /\ Int.in_range 4 /\
  offsetCount (Paginate 4611686018427387905 4 (NewQueryBuilder None)) = 0%Z /\
  offsetCount (Paginate 4611686018427387905 4 (NewQueryBuilder None))
    <> ((4611686018427387905 - 1) * 4)%Z.
Proof.
  repeat split; try (vm_compute; congruence).
Qed.

(** Claim C10, amended.  For all [int]s page and perPage, with page clamped
    to 1 when below 1 and perPage replaced by 15 when below 1, [Paginate]
    sets the limit to perPage and the offset to (page-1)*perPage reduced to
    the 64-bit [int] range by wrap-around, which is the exact product
    whenever that fits; it leaves the sticky error and every other field as
    they were. *)
Theorem paginate_sets_limit_and_wrapped_offset
  (page perPage : Z) (qb : QueryBuilder)
  (Hpage : Int.in_range page) (HperPage : Int.in_range perPage) :
  let page' := if (page <? 1)%Z then 1%Z else page in
  let perPage' := if (perPage <? 1)%Z then 15%Z else perPage in
  Paginate page perPage qb
  = set_offsetCount (set_limitCount qb perPage') (Int.wrap ((page' - 1) * perPage'))
  /\ limitCount (Paginate page perPage qb) = perPage'
  /\ offsetCount (Paginate page perPage qb) = Int.wrap ((page' - 1) * perPage')
  /\ (Int.in_range ((page' - 1) * perPage') ->
      offsetCount (Paginate page perPage qb) = ((page' - 1) * perPage')%Z)
  /\ err (Paginate page perPage qb) = err qb.
Proof.
  intros page' perPage'.
  assert (Hsub : Int.sub page' 1 = (page' - 1)%Z).
  { unfold Int.sub. apply wrap_in_range.
    subst page'. unfold Int.in_range, Int.min_int, Int.max_int, Int.bits in *.
    destruct (page <? 1)%Z eqn:E; [lia|]. apply Z.ltb_ge in E. lia. }
  assert (Heq : Paginate page perPage qb
    = set_offsetCount (set_limitCount qb perPage') (Int.wrap ((page' - 1) * perPage'))).
  { unfold Paginate, Offset, Limit. fold page'. fold perPage'.
    unfold Int.mul. rewrite Hsub. reflexivity. }
  rewrite Heq. repeat split.
  intros Hr. simpl. apply wrap_in_range, Hr.
Qed.

Lemma paginate_sets_limit_and_wrapped_offset_witness :
  limitCount (Paginate 0 0 (NewQueryBuilder None)) = 15%Z /\
  offsetCount (Paginate 0 0 (NewQueryBuilder None)) = 0%Z /\
  limitCount (Paginate 2 15 (NewQueryBuilder None)) = 15%Z /\
  offsetCount (Paginate 2 15 (NewQueryBuilder None)) = 15%Z.
Proof.
  assert (R0 : Int.in_range 0) by (vm_compute; split; congruence).
  assert (R2 : Int.in_range 2) by (vm_compute; split; congruence).
  assert (R15 : Int.in_range 15) by (vm_compute; split; congruence).
  pose proof (paginate_sets_limit_and_wrapped_offset 0 0 (NewQueryBuilder None) R0 R0)
    as (_ & L0 & O0 & _).
  pose proof (paginate_sets_limit_and_wrapped_offset 2 15 (NewQueryBuilder None) R2 R15)
    as (_ & L2 & O2 & _).
  repeat split; assumption.
Defined.

Lemma valid_identifier_nonempty (t : string) :
  isValidIdentifier t = Ret true -> String.eqb t "" = false.
Proof. destruct t; [discriminate | reflexivity]. Qed.

Lemma ToSQL_eq (qb : QueryBuilder) :
  ToSQL qb =
  match err qb with
  | Some e => ("", [], Some e)
  | None =>
      if String.eqb (table qb) ""
      then ("", [], Some (Errorf "table name is required" []))
      else
        let '(query, ps) := assembleSelect qb in
        match unionQuery qb with
        | Some q =>
            let '(unionSQL, unionParams, uerr) := ToSQL q in
            match uerr with
            | Some e => ("", [], Some e)
            | None =>
                let unionType := if unionAll qb then "UNION ALL" else "UNION" in
                (query ++ " " ++ unionType ++ " " ++ unionSQL,
                 (ps ++ unionParams)%list, None)
            end
        | None => (query, ps, None)
        end
  end.
Proof. destruct qb; reflexivity. Qed.

(** Claim C9.  For a valid column and any value [v], [Where] with the
    operator IN or BETWEEN appends a condition holding [v] and no extra
    parameters; the assembler writes that condition as the column, the
    operator and the [%s] rendering of [v], appends no parameter for it, and
    a builder that has only a table and this condition assembles to
    SELECT * FROM t WHERE col op <v rendered> with an empty parameter list. *)
Theorem where_in_between_renders_value
  (col op : string) (v : value)
  (Hcol : isValidIdentifier col = Ret true)
  (Hop : op = "IN" \/ op = "BETWEEN") :
  (forall qb : QueryBuilder,
      Where col op v qb
      = Ret (set_whereConds qb (whereConds qb ++ [mkCond col op v "AND" None])%list))
  /\ (forall (query : string) (ps : list value),
      writeCond (mkCond col op v "AND" None) query ps
      = (query ++ col ++ " " ++ op ++ " " ++ fmt_s v, ps))
  /\ (forall (d : option conn) (t : string),
      isValidIdentifier t = Ret true ->
      (qb <- run [CTable t; CWhere col op v] (NewQueryBuilder d) ;; Ret (ToSQL qb))%outcome
      = Ret ("SELECT * FROM " ++ t ++ " WHERE " ++ col ++ " " ++ op ++ " " ++ fmt_s v,
             [], None)).
Proof.
  assert (Hvalid : isValidOperator op = true) by (destruct Hop; subst; reflexivity).
  assert (Hw : forall query ps,
      writeCond (mkCond col op v "AND" None) query ps
      = (query ++ col ++ " " ++ op ++ " " ++ fmt_s v, ps)).
  { intros. destruct Hop; subst; reflexivity. }
  split; [|split]; auto.
  - intros qb. unfold Where. rewrite Hcol. simpl. rewrite Hvalid. reflexivity.
  - intros d t Ht.
    cbn [run apply]. unfold Table. rewrite Ht. cbn [obind negb].
    unfold Where. rewrite Hcol. cbn [obind negb]. rewrite Hvalid. cbn [obind negb].
    f_equal. rewrite ToSQL_eq.
    cbn [err set_whereConds set_table NewQueryBuilder table unionQuery].
    rewrite (valid_identifier_nonempty t Ht).
    unfold assembleSelect.
    destruct Hop; subst op; simpl; rewrite !append_assoc; reflexivity.
Qed.

Lemma length_append (a b : string) :
  String.length (a ++ b) = String.length a + String.length b.
Proof. induction a as [|c a IH]; simpl; [reflexivity | now rewrite IH]. Qed.

Lemma slice_inner_defined (c d : ascii) (s : string) :
  exists inner,
    GoStr.slice (String c (String d s)) 1
                (Z.of_nat (String.length (String c (String d s))) - 1) = Ret inner.
Proof.
  unfold GoStr.slice.
  replace ((0 <=? 1)%Z && (1 <=? Z.of_nat (String.length (String c (String d s))) - 1)%Z &&
           (Z.of_nat (String.length (String c (String d s))) - 1 <=?
            Z.of_nat (String.length (String c (String d s))))%Z) with true.
  - eexists; reflexivity.
  - symmetry. cbn [String.length]. rewrite !andb_true_iff, !Z.leb_le. lia.
Qed.

Lemma isValidIdentifier_panics_only_on_a_lone_quote (s : string) :
  s <> backtick -> s <> dquote -> exists b, isValidIdentifier s = Ret b.
Proof.
  intros Hb Hd. unfold isValidIdentifier.
  destruct ((GoStr.HasPrefix s backtick && GoStr.HasSuffix s backtick)
            || (GoStr.HasPrefix s dquote && GoStr.HasSuffix s dquote)) eqn:E.
  - destruct s as [|c [|d s]].
    + discriminate E.
    + exfalso. apply orb_true_iff in E. destruct E as [E|E];
        apply andb_true_iff in E; destruct E as [E _];
        unfold backtick, dquote in E; cbn [GoStr.HasPrefix] in E;
        rewrite andb_true_r in E; apply Ascii.eqb_eq in E; subst c.
      * apply Hb; reflexivity.
      * apply Hd; reflexivity.
    + destruct (slice_inner_defined c d s) as [inner Hin].
      rewrite Hin. simpl. eexists; reflexivity.
  - eexists; reflexivity.
Qed.

(** Claim C2, the code at the failing inputs.  [isValidIdentifier] on the
    one-character strings made of a backtick or of a double quote panics in
    its slice expression, and so do the mutators that validate such an
    argument: no sticky error is set, the call does not return. *)
Theorem lone_quote_identifier_panics :
  isValidIdentifier backtick = Panic "slice bounds out of range"
  /\ isValidIdentifier dquote = Panic "slice bounds out of range"
  /\ (forall qb : QueryBuilder, Table backtick qb = Panic "slice bounds out of range")
  /\ (forall (qb : QueryBuilder) (v : value),
        Where dquote "=" v qb = Panic "slice bounds out of range").
Proof. repeat split. Qed.

(** Claim C8, the part that holds.  With a size of zero or less, [Chunk] and
    [ChunkByID] return the error "chunk size must be positive" at once, for
    every callback and every column: the world and the log of port calls and
    callback runs are as before.  With a positive size and a column to which
    identifier validation answers false, [ChunkByID] returns the
    invalid-column error, again with nothing issued. *)
Theorem chunk_rejects_nonpositive_size
  {W : Type} {P : Port W} (fuel : nat) (size : Z) (col : string)
  (fn : list row -> W -> bool * W) (qb : QueryBuilder) (st : state W) :
  ((size <= 0)%Z ->
     Chunk fuel size fn qb st
       = Ret (Some (Errorf "chunk size must be positive" []), st)
     /\ ChunkByID fuel size col fn qb st
       = Ret (Some (Errorf "chunk size must be positive" []), st))
  /\
  ((0 < size)%Z -> isValidIdentifier col = Ret false ->
     ChunkByID fuel size col fn qb st
       = Ret (Some (Errorf "invalid column name: %q" [AStr col]), st)).
Proof.
  split.
  - intros H. apply Z.leb_le in H. unfold Chunk, ChunkByID. rewrite H. split; reflexivity.
  - intros H Hc. unfold ChunkByID.
    replace (size <=? 0)%Z with false by (symmetry; apply Z.leb_gt; lia).
    unfold mbind, lift. rewrite Hc. reflexivity.
Qed.

Lemma chunk_rejects_nonpositive_size_witness :
  Chunk 5 0 (fun _ w => (true, w)) (set_table (NewQueryBuilder (Some 0%nat)) "users")
        (mkState quietScript [])
    = Ret (Some (Errorf "chunk size must be positive" []), mkState quietScript [])
  /\ Chunk 5 (-1) (fun _ w => (true, w)) (set_table (NewQueryBuilder (Some 0%nat)) "users")
        (mkState quietScript [])
    = Ret (Some (Errorf "chunk size must be positive" []), mkState quietScript [])
  /\ ChunkByID 5 10 "id; DROP" (fun _ w => (true, w))
        (set_table (NewQueryBuilder (Some 0%nat)) "users") (mkState quietScript [])
    = Ret (Some (Errorf "invalid column name: %q" [AStr "id; DROP"]),
           mkState quietScript []).
Proof.
  split; [|split].
  - apply (proj1 (chunk_rejects_nonpositive_size 5 0 "id" (fun _ w => (true, w))
                    (set_table (NewQueryBuilder (Some 0%nat)) "users")
                    (mkState quietScript []))).
    lia.
  - apply (proj1 (chunk_rejects_nonpositive_size 5 (-1) "id" (fun _ w => (true, w))
                    (set_table (NewQueryBuilder (Some 0%nat)) "users")
                    (mkState quietScript []))).
    lia.
  - apply (proj2 (chunk_rejects_nonpositive_size 5 10 "id; DROP" (fun _ w => (true, w))
                    (set_table (NewQueryBuilder (Some 0%nat)) "users")
                    (mkState quietScript []))).
    + lia.
    + reflexivity.
Defined.

(** Claim C8, the code at the failing inputs.  With a positive size and a
    column that is the one-character string made of a backtick or of a
    double quote, [ChunkByID] does not return the invalid-column error: the
    validation of the column panics in its slice expression, so the call
    does not return, whatever the callback, the builder and the state are.
    The two strings do not pass validation, and they are the only columns
    on which validation does not answer. *)
Theorem chunk_by_id_panics_on_a_lone_quote_column
  {W : Type} {P : Port W} (fuel : nat) (size : Z)
  (fn : list row -> W -> bool * W) (qb : QueryBuilder) (st : state W) :
  (0 < size)%Z ->
  ChunkByID fuel size backtick fn qb st = Panic "slice bounds out of range"
  /\ ChunkByID fuel size dquote fn qb st = Panic "slice bounds out of range"
  /\ (forall col : string,
        isValidIdentifier col <> Ret true ->
        ChunkByID fuel size col fn qb st
        = Ret (Some (Errorf "invalid column name: %q" [AStr col]), st)
        \/ ((col = backtick \/ col = dquote)
            /\ ChunkByID fuel size col fn qb st = Panic "slice bounds out of range")).
Proof.
  intros H.
  assert (Hs : (size <=? 0)%Z = false) by (apply Z.leb_gt; lia).
  assert (Hb : ChunkByID fuel size backtick fn qb st = Panic "slice bounds out of range").
  { unfold ChunkByID. rewrite Hs. reflexivity. }
  assert (Hd : ChunkByID fuel size dquote fn qb st = Panic "slice bounds out of range").
  { unfold ChunkByID. rewrite Hs. reflexivity. }
  split; [exact Hb|]. split; [exact Hd|].
  intros col Hcol.
  destruct (string_dec col backtick) as [->|Hnb]; [right; split; [now left|exact Hb]|].
  destruct (string_dec col dquote) as [->|Hnd]; [right; split; [now right|exact Hd]|].
  left. destruct (isValidIdentifier_panics_only_on_a_lone_quote col Hnb Hnd) as [b Hv].
  destruct b; [contradiction|].
  unfold ChunkByID. rewrite Hs. unfold mbind, lift. rewrite Hv. reflexivity.
Qed.

Lemma chunk_by_id_panics_on_a_lone_quote_column_witness :
  ChunkByID 5 10 backtick (fun _ w => (true, w))
            (set_table (NewQueryBuilder (Some 0%nat)) "users") (mkState quietScript [])
  = Panic "slice bounds out of range".
Proof.
  assert (Hs : (0 < 10)%Z) by lia.
  exact (proj1 (chunk_by_id_panics_on_a_lone_quote_column
                  5 10 (fun _ w => (true, w))
                  (set_table (NewQueryBuilder (Some 0%nat)) "users")
                  (mkState quietScript []) Hs)).
Defined.

(** Claim C6.  [Transaction] without a connection that can begin
    transactions returns a configuration error and touches nothing.  Once
    begun: when the callback returns an error and the rollback succeeds, that
    same error is returned; when the rollback fails too, the returned error
    wraps the rollback failure and the original error; when the callback
    succeeds, the transaction is committed and the result is nil, or a
    commit-failure error wrapping the failure of the commit. *)
Theorem transaction_outcomes
  {W : Type} {P : Port W}
  (fn : QueryBuilder -> M W (option error)) (qb : QueryBuilder) (st : state W) :
  (rawDB qb = None ->
     Transaction fn qb st
     = Ret (Some (Errorf "cannot start transaction: no database connection" []), st))
  /\
  (forall (c : conn) (tx : txid) (w1 : W) (r : option error) (st2 : state W),
     rawDB qb = Some c ->
     port_Begin c (world st) = (inl tx, w1) ->
     fn (newQueryBuilderWithDB (Some (OfTx tx)) (Some c))
        (mkState w1 (log st ++ [EvBegin c])) = Ret (r, st2) ->
     (forall (e : error) (w3 : W),
        r = Some e ->
        port_Rollback tx (world st2) = (None, w3) ->
        Transaction fn qb st
        = Ret (Some e, mkState w3 (log st2 ++ [EvRollback tx])))
     /\
     (forall (e rbErr : error) (w3 : W),
        r = Some e ->
        port_Rollback tx (world st2) = (Some rbErr, w3) ->
        Transaction fn qb st
        = Ret (Some (Errorf "rollback failed: %v (original error: %w)"
                            [AErr rbErr; AErr e]),
               mkState w3 (log st2 ++ [EvRollback tx])))
     /\
     (forall (w3 : W),
        r = None ->
        port_Commit tx (world st2) = (None, w3) ->
        Transaction fn qb st = Ret (None, mkState w3 (log st2 ++ [EvCommit tx])))
     /\
     (forall (ce : error) (w3 : W),
        r = None ->
        port_Commit tx (world st2) = (Some ce, w3) ->
        Transaction fn qb st
        = Ret (Some (Errorf "failed to commit transaction: %w" [AErr ce]),
               mkState w3 (log st2 ++ [EvCommit tx])))).
Proof.
  split.
  - intros H. unfold Transaction. rewrite H. reflexivity.
  - intros c tx w1 r st2 Hraw Hbegin Hfn.
    assert (Hstart : forall k : option error -> M W (option error),
      Transaction fn qb st =
      (match r with
       | Some e =>
           mbind (dbRollback tx) (fun rb =>
             match rb with
             | Some rbErr =>
                 mret (Some (Errorf "rollback failed: %v (original error: %w)"
                                    [AErr rbErr; AErr e]))
             | None => mret (Some e)
             end)
       | None =>
           mbind (dbCommit tx) (fun c0 =>
             match c0 with
             | Some e => mret (Some (Errorf "failed to commit transaction: %w" [AErr e]))
             | None => mret None
             end)
       end) st2).
    { intros _. unfold Transaction. rewrite Hraw.
      unfold mbind at 1. unfold dbBegin, through. rewrite Hbegin.
      unfold mbind at 1. rewrite Hfn. reflexivity. }
    specialize (Hstart (fun _ => mret None)).
    repeat split.
    + intros e w3 -> Hrb. rewrite Hstart.
      unfold mbind, dbRollback, through. rewrite Hrb. reflexivity.
    + intros e rbErr w3 -> Hrb. rewrite Hstart.
      unfold mbind, dbRollback, through. rewrite Hrb. reflexivity.
    + intros w3 -> Hc. rewrite Hstart.
      unfold mbind, dbCommit, through. rewrite Hc. reflexivity.
    + intros ce w3 -> Hc. rewrite Hstart.
      unfold mbind, dbCommit, through. rewrite Hc. reflexivity.
Qed.

Lemma where_in_between_renders_value_witness :
  (qb <- run [CTable "users"; CWhere "id" "IN" (VStr "(1); DROP TABLE users;--")]
             (NewQueryBuilder None) ;;
   Ret (ToSQL qb))%outcome
  = Ret ("SELECT * FROM users WHERE id IN (1); DROP TABLE users;--", [], None).
Proof.
  apply (proj2 (proj2 (where_in_between_renders_value
                         "id" "IN" (VStr "(1); DROP TABLE users;--")
                         eq_refl (or_introl eq_refl)))
               None "users" eq_refl).
Defined.

Lemma transaction_outcomes_witness :
  Transaction (fun _ => mret (Some (Errorf "boom" [])))
              (NewQueryBuilder (Some 0%nat)) (mkState quietScript [])
    = Ret (Some (Errorf "boom" []),
           mkState quietScript [EvBegin 0%nat; EvRollback 7%nat])
  /\ Transaction (fun _ => mret (Some (Errorf "boom" [])))
              (NewQueryBuilder (Some 0%nat)) (mkState failingRollback [])
    = Ret (Some (Errorf "rollback failed: %v (original error: %w)"
                        [AErr (Errorf "connection lost" []); AErr (Errorf "boom" [])]),
           mkState failingRollback [EvBegin 0%nat; EvRollback 7%nat])
  /\ Transaction (fun _ => mret None)
              (NewQueryBuilder (Some 0%nat)) (mkState quietScript [])
    = Ret (None, mkState quietScript [EvBegin 0%nat; EvCommit 7%nat])
  /\ Transaction (fun _ => mret None)
              (NewQueryBuilder None) (mkState quietScript [])
    = Ret (Some (Errorf "cannot start transaction: no database connection" []),
           mkState quietScript []).
Proof.
  split; [|split; [|split]].
  - exact (proj1 (proj2 (transaction_outcomes
                           (fun _ => mret (Some (Errorf "boom" [])))
                           (NewQueryBuilder (Some 0%nat)) (mkState quietScript []))
                        0%nat 7%nat quietScript (Some (Errorf "boom" []))
                        (mkState quietScript [EvBegin 0%nat])
                        eq_refl eq_refl eq_refl)
                 (Errorf "boom" []) quietScript eq_refl eq_refl).
  - exact (proj1 (proj2 (proj2 (transaction_outcomes
                           (fun _ => mret (Some (Errorf "boom" [])))
                           (NewQueryBuilder (Some 0%nat)) (mkState failingRollback []))
                        0%nat 7%nat failingRollback (Some (Errorf "boom" []))
                        (mkState failingRollback [EvBegin 0%nat])
                        eq_refl eq_refl eq_refl))
                 (Errorf "boom" []) (Errorf "connection lost" []) failingRollback
                 eq_refl eq_refl).
  - exact (proj1 (proj2 (proj2 (proj2 (transaction_outcomes
                           (fun _ => mret None)
                           (NewQueryBuilder (Some 0%nat)) (mkState quietScript []))
                        0%nat 7%nat quietScript None
                        (mkState quietScript [EvBegin 0%nat])
                        eq_refl eq_refl eq_refl)))
                 quietScript eq_refl eq_refl).
  - exact (proj1 (transaction_outcomes (fun _ => mret None)
                    (NewQueryBuilder None) (mkState quietScript [])) eq_refl).
Defined.

Lemma set_selectCols_restore (qb : QueryBuilder) (cols : list string) :
  set_selectCols (set_selectCols qb cols) (selectCols qb) = qb.
Proof. destruct qb; reflexivity. Qed.

Lemma Count_restores_after_assembly
  {W : Type} {P : Port W} (qb : QueryBuilder) (st : state W)
  (query : string) (ps : list value) (h : handle) :
  ToSQL (set_selectCols qb ["COUNT(*)"]) = (query, ps, None) ->
  db qb = Some h ->
  Count qb st
  = Ret (qb, fst (port_QueryRowScan h query ps (world st)),
         mkState (snd (port_QueryRowScan h query ps (world st)))
                 (log st ++ [EvQueryRow h query ps])).
Proof.
  intros Hsql Hdb. unfold Count. rewrite Hsql.
  rewrite set_selectCols_restore. unfold mbind, dbQueryRowScan. rewrite Hdb.
  unfold through. destruct (port_QueryRowScan h query ps (world st)); reflexivity.
Qed.

Lemma Count_keeps_count_star_on_error
  {W : Type} {P : Port W} (qb : QueryBuilder) (st : state W)
  (query : string) (ps : list value) (e : error) :
  ToSQL (set_selectCols qb ["COUNT(*)"]) = (query, ps, Some e) ->
  Count qb st = Ret (set_selectCols qb ["COUNT(*)"], (0%Z, Some e), st).
Proof. intros Hsql. unfold Count. rewrite Hsql. reflexivity. Qed.

(** Claim C7, the code at a failing input.  On a builder with the select
    columns id, name and a sticky error, [Count] returns that error and
    leaves the select columns set to the single count-star expression: the
    early return skips the restore. *)
Theorem count_leaves_count_star_when_assembly_fails :
  exists qb : QueryBuilder,
    run [CTable "users"; CSelect ["id"; "name"]; CWhere "id" "INVALID" (VInt 1)]
        (NewQueryBuilder (Some 0%nat)) = Ret qb
    /\ selectCols qb = ["id"; "name"]
    /\ exists qb' : QueryBuilder,
         Count qb (mkState quietScript [])
         = Ret (qb', (0%Z, Some (Errorf "invalid operator in WHERE: %q" [AStr "INVALID"])),
                mkState quietScript [])
         /\ selectCols qb' = ["COUNT(*)"]
         /\ selectCols qb' <> selectCols qb.
Proof.
  eexists. split; [reflexivity|]. split; [reflexivity|].
  eexists. split; [reflexivity|]. split; [reflexivity|]. discriminate.
Qed.

(** Claim C3, the code at the failing input.  On the builder of a
    soft-delete model, [WithTrashed] leaves the condition deleted_at IS NULL
    in the assembled text; [OnlyTrashed] adds deleted_at IS NOT NULL beside
    it. *)
Theorem with_trashed_keeps_deleted_at_filter (d : option conn) :
  (qb <- Model_Query (WithSoftDelete (NewModel "posts")) d ;;
   Ret (ToSQL (WithTrashed qb)))%outcome
  = Ret ("SELECT * FROM posts WHERE deleted_at IS NULL", [], None)
  /\
  (qb <- Model_Query (WithSoftDelete (NewModel "posts")) d ;;
   qb' <- OnlyTrashed qb ;;
   Ret (ToSQL qb'))%outcome
  = Ret ("SELECT * FROM posts WHERE deleted_at IS NULL AND deleted_at IS NOT NULL",
         [], None).
Proof. split; destruct d; reflexivity. Qed.

(** ** Mutators: validation looks at the arguments only *)

Ltac effect_cases :=
  repeat match goal with
  | |- effect (fun qb => obind ?o _) =>
      destruct o as [[|]|?|]; cbn [obind negb andb]
  | |- effect (fun qb => if ?b then _ else _) => destruct b
  | |- effect (fun qb => Ret (set_err qb ?e)) =>
      apply (Rejects _ e); reflexivity
  | |- effect (fun qb => Panic _) => apply Aborts; discriminate
  | |- effect (fun qb => Diverge) => apply Aborts; discriminate
  | |- effect (fun qb => Ret (?f qb)) =>
      apply (Accepts _ f); [reflexivity | intros []; reflexivity]
  end.

Lemma Select_loop_effect (rest columns : list string) :
  effect (Select_loop rest columns).
Proof.
  induction rest as [|col rest IH].
  - apply (Accepts _ (fun qb => set_selectCols qb columns));
      [reflexivity | intros []; reflexivity].
  - change (effect (fun qb =>
      if String.eqb col "*" || isValidSelectExpression col
      then Select_loop rest columns qb
      else obind (isValidIdentifier col) (fun ok =>
             if negb ok
             then Ret (set_err qb (Errorf "invalid column name: %q" [AStr col]))
             else Select_loop rest columns qb))).
    destruct (String.eqb col "*" || isValidSelectExpression col); [exact IH|].
    destruct (isValidIdentifier col) as [[|]|?|]; cbn [obind negb].
    + exact IH.
    + apply (Rejects _ (Errorf "invalid column name: %q" [AStr col])); reflexivity.
    + apply Aborts; discriminate.
    + apply Aborts; discriminate.
Qed.

Lemma GroupBy_loop_effect (rest columns : list string) :
  effect (GroupBy_loop rest columns).
Proof.
  induction rest as [|col rest IH].
  - apply (Accepts _ (fun qb => set_groupBy qb (groupBy qb ++ columns)));
      [reflexivity | intros []; reflexivity].
  - change (effect (fun qb =>
      obind (isValidIdentifier col) (fun ok =>
        if negb ok
        then Ret (set_err qb (Errorf "invalid column name in GroupBy: %q" [AStr col]))
        else GroupBy_loop rest columns qb))).
    destruct (isValidIdentifier col) as [[|]|?|]; cbn [obind negb].
    + exact IH.
    + apply (Rejects _ (Errorf "invalid column name in GroupBy: %q" [AStr col]));
        reflexivity.
    + apply Aborts; discriminate.
    + apply Aborts; discriminate.
Qed.

Lemma joinWith_effect (kind msgTable msgOn t onText : string) :
  effect (joinWith kind msgTable msgOn t onText).
Proof.
  change (effect (fun qb => joinWith kind msgTable msgOn t onText qb)).
  unfold joinWith. effect_cases.
  apply (Accepts _ (fun qb => set_joins qb (joins qb ++ [mkJoin kind t onText])));
    [reflexivity | intros []; reflexivity].
Qed.

Lemma apply_effect (c : call) : effect (apply c).
Proof.
  destruct c;
    match goal with |- effect ?m => change (effect (fun qb => m qb)) end;
    cbn [apply].
  - unfold Table. effect_cases.
    apply (Accepts _ (fun qb => set_table qb t)); [reflexivity | intros []; reflexivity].
  - unfold Select. apply Select_loop_effect.
  - unfold Where. effect_cases.
    apply (Accepts _ (fun qb => set_whereConds qb (whereConds qb ++ [mkCond col op v "AND" None])));
      [reflexivity | intros []; reflexivity].
  - unfold OrWhere. effect_cases.
    apply (Accepts _ (fun qb => set_whereConds qb (whereConds qb ++ [mkCond col op v "OR" None])));
      [reflexivity | intros []; reflexivity].
  - unfold WhereIn. effect_cases.
    apply (Accepts _ (fun qb => set_whereConds qb
             (whereConds qb ++
              [mkCond col "IN"
                 (VStr ("(" ++ GoStr.Join (map (fun _ => "?") values) ", " ++ ")"))
                 "AND" (Some values)])));
      [reflexivity | intros []; reflexivity].
  - unfold WhereBetween. effect_cases.
    apply (Accepts _ (fun qb => set_whereConds qb
             (whereConds qb ++
              [mkCond col "BETWEEN" (VStr "? AND ?") "AND" (Some [start_; end_])])));
      [reflexivity | intros []; reflexivity].
  - unfold WhereNull. effect_cases.
    apply (Accepts _ (fun qb => set_whereConds qb
             (whereConds qb ++ [mkCond col "IS NULL" (VStr "") "AND" None])));
      [reflexivity | intros []; reflexivity].
  - unfold WhereNotNull. effect_cases.
    apply (Accepts _ (fun qb => set_whereConds qb
             (whereConds qb ++ [mkCond col "IS NOT NULL" (VStr "") "AND" None])));
      [reflexivity | intros []; reflexivity].
  - unfold Join. apply joinWith_effect.
  - unfold LeftJoin. apply joinWith_effect.
  - unfold RightJoin. apply joinWith_effect.
  - unfold OrderBy. effect_cases.
    apply (Accepts _ (fun qb => set_orderBy qb
             (orderBy qb ++
              [col ++ " " ++
               GoStr.ToUpper (if String.eqb direction "" then "ASC" else direction)])));
      [reflexivity | intros []; reflexivity].
  - unfold GroupBy. apply GroupBy_loop_effect.
  - unfold Having. effect_cases.
    + apply (Accepts _ (fun qb => set_having qb (having qb ++ [mkCond col op v "AND" None])));
        [reflexivity | intros []; reflexivity].
    + apply (Accepts _ (fun qb => set_having qb (having qb ++ [mkCond col op v "AND" None])));
        [reflexivity | intros []; reflexivity].
  - apply (Accepts _ (Limit count)); [reflexivity | intros []; reflexivity].
  - apply (Accepts _ (Offset count)); [reflexivity | intros []; reflexivity].
  - apply (Accepts _ (Union query)); [reflexivity | intros []; reflexivity].
  - apply (Accepts _ (UnionAll query)); [reflexivity | intros []; reflexivity].
  - apply (Accepts _ (Paginate page perPage)); [reflexivity | intros []; reflexivity].
  - apply (Accepts _ WithTrashed); [reflexivity | intros []; reflexivity].
  - unfold OnlyTrashed, WhereNotNull. effect_cases.
    apply (Accepts _ (fun qb => set_whereConds qb
             (whereConds qb ++ [mkCond "deleted_at" "IS NOT NULL" (VStr "") "AND" None])));
      [reflexivity | intros []; reflexivity].
Qed.

Lemma apply_err (c : call) (qb qb' : QueryBuilder) :
  apply c qb = Ret qb' ->
  err qb' = match raised c with Some e' => Some e' | None => err qb end.
Proof.
  intros H. unfold raised.
  destruct (apply_effect c) as [Ha | e He | f Hf Herr].
  - exfalso. exact (Ha _ _ H).
  - rewrite He in H. injection H as <-. rewrite He. destruct qb; reflexivity.
  - rewrite Hf in H. injection H as <-. rewrite Hf, !Herr. reflexivity.
Qed.

(** A call whose validation fails changes nothing but the sticky error. *)
Lemma apply_rejected_frame (c : call) (qb qb' : QueryBuilder) (e : error) :
  apply c qb = Ret qb' -> raised c = Some e -> qb' = set_err qb e.
Proof.
  intros H Hr. unfold raised in Hr.
  destruct (apply_effect c) as [Ha | e' He | f Hf Herr].
  - exfalso. exact (Ha _ _ H).
  - rewrite He in H, Hr. injection H as <-. simpl in Hr. congruence.
  - rewrite Hf in Hr. rewrite Herr in Hr. discriminate Hr.
Qed.

Lemma run_err (cs : list call) (qb qb' : QueryBuilder) :
  run cs qb = Ret qb' -> err qb' = stickyAfter cs (err qb).
Proof.
  revert qb. induction cs as [|c cs IH]; intros qb H; simpl in H.
  - injection H as <-. reflexivity.
  - destruct (apply c qb) as [q1| |] eqn:E; simpl in H; try discriminate.
    rewrite (IH _ H). unfold stickyAfter. simpl.
    rewrite (apply_err _ _ _ E). reflexivity.
Qed.

Lemma stickyAfter_some (cs : list call) (e : error) :
  exists e', stickyAfter cs (Some e) = Some e'.
Proof.
  revert e. induction cs as [|c cs IH]; intros e.
  - exists e; reflexivity.
  - unfold stickyAfter. simpl. destruct (raised c) as [e1|]; apply IH.
Qed.

Lemma stickyAfter_quiet (cs : list call) (e0 : option error) :
  (forall c, In c cs -> raised c = None) -> stickyAfter cs e0 = e0.
Proof.
  revert e0. induction cs as [|c cs IH]; intros e0 H.
  - reflexivity.
  - unfold stickyAfter. simpl. rewrite (H c (or_introl eq_refl)).
    apply IH. intros c' Hc'. apply H. right; exact Hc'.
Qed.

Lemma ToSQL_sticky (qb : QueryBuilder) (e : error) :
  err qb = Some e -> ToSQL qb = ("", [], Some e).
Proof. intros H. rewrite ToSQL_eq, H. reflexivity. Qed.

(** Claim C4, counterexample.  After [Table] has failed on an invalid name,
    a [Where] with an invalid operator replaces the sticky error: [ToSQL]
    fails with the second error, not with the first. *)
Lemma later_failure_replaces_sticky_error :
  exists qb1 qb2 : QueryBuilder,
    Table "users; DROP TABLE users;--" (NewQueryBuilder None) = Ret qb1
    /\ err qb1 = Some (Errorf "invalid table name: %q" [AStr "users; DROP TABLE users;--"])
    /\ Where "id" "INVALID" (VInt 1) qb1 = Ret qb2
    /\ ToSQL qb2 = ("", [], Some (Errorf "invalid operator in WHERE: %q" [AStr "INVALID"]))
    /\ err qb2 <> err qb1.
Proof.
  eexists. eexists. split; [reflexivity|]. split; [reflexivity|].
  split; [reflexivity|]. split; [reflexivity|]. discriminate.
Qed.

(** Claim C4, amended.  After any chain of mutator calls that returns, the
    sticky error is the one recorded by the last call whose validation
    failed, or the one the builder started with when no call failed; it is
    never cleared; and once it is set, [ToSQL], [Get], [Count], [Insert],
    [Update] and [Delete] all fail with exactly that error, without a call
    through the port. *)
Theorem sticky_error_is_the_last_failure
  {W : Type} {P : Port W} (cs : list call) (qb qb' : QueryBuilder)
  (Hrun : run cs qb = Ret qb') :
  err qb' = stickyAfter cs (err qb)
  /\ (forall e, err qb = Some e -> exists e', err qb' = Some e')
  /\ ((forall c, In c cs -> raised c = None) -> err qb' = err qb)
  /\ (forall e', err qb' = Some e' ->
        ToSQL qb' = ("", [], Some e')
        /\ forall (st : state W) (data : list (string * value)),
             Get qb' st = Ret (inr e', st)
             /\ Count qb' st = Ret (set_selectCols qb' ["COUNT(*)"], (0%Z, Some e'), st)
             /\ Insert data qb' st = Ret (inr e', st)
             /\ Update data qb' st = Ret (inr e', st)
             /\ Delete qb' st = Ret (inr e', st)).
Proof.
  pose proof (run_err _ _ _ Hrun) as Herr.
  split; [exact Herr|]. split; [|split].
  - intros e He. rewrite Herr, He. apply stickyAfter_some.
  - intros Hq. rewrite Herr. apply stickyAfter_quiet, Hq.
  - intros e' He'. split; [apply ToSQL_sticky, He'|].
    intros st data. repeat split.
    + unfold Get. rewrite (ToSQL_sticky _ _ He'). reflexivity.
    + apply Count_keeps_count_star_on_error with (query := "") (ps := []).
      apply ToSQL_sticky. destruct qb'; exact He'.
    + unfold Insert. rewrite He'. reflexivity.
    + unfold Update. rewrite He'. reflexivity.
    + unfold Delete. rewrite He'. reflexivity.
Qed.

Lemma sticky_error_is_the_last_failure_witness :
  exists qb' : QueryBuilder,
    run [CTable "users; DROP TABLE users;--"; CWhere "id" "=" (VInt 1);
         CWhere "id" "INVALID" (VInt 1); CLimit 3]
        (NewQueryBuilder (Some 0%nat)) = Ret qb'
    /\ err qb' = Some (Errorf "invalid operator in WHERE: %q" [AStr "INVALID"])
    /\ Get qb' (mkState quietScript [])
       = Ret (inr (Errorf "invalid operator in WHERE: %q" [AStr "INVALID"]),
              mkState quietScript []).
Proof.
  eexists. split; [reflexivity|].
  match goal with |- err ?q = _ /\ _ =>
    pose proof (@sticky_error_is_the_last_failure script scriptedPort
      [CTable "users; DROP TABLE users;--"; CWhere "id" "=" (VInt 1);
       CWhere "id" "INVALID" (VInt 1); CLimit 3]
      (NewQueryBuilder (Some 0%nat)) q eq_refl) as (He & _ & _ & Hterm)
  end.
  split; [exact He|].
  exact (proj1 (proj2 (Hterm _ He) (mkState quietScript []) [])).
Defined.

(** ** Assembly only appends *)

Section Appending.

Variable A : Prop.

Lemma extends_refl (a : string * list value) : extends A a a.
Proof.
  exists "", []. destruct a as [q ps]. simpl.
  rewrite append_nil_r, app_nil_r. split; reflexivity.
Qed.

Lemma extends_trans (a b c : string * list value) :
  extends A a b -> extends A b c -> extends A a c.
Proof.
  intros (s1 & p1 & -> & H1) (s2 & p2 & -> & H2).
  exists (s1 ++ s2), (p1 ++ p2)%list. simpl.
  rewrite append_assoc, <- app_assoc. split; [reflexivity|].
  intros HA. rewrite count_append, length_app, H1, H2; auto.
Qed.

Lemma extends_text (q s : string) (ps : list value) :
  (A -> GoStr.count "?" s = 0) -> extends A (q, ps) (q ++ s, ps).
Proof.
  intros H. exists s, []. simpl. rewrite app_nil_r. split; [reflexivity|exact H].
Qed.

Lemma extends_one (q s : string) (ps : list value) (v : value) :
  (A -> GoStr.count "?" s = 1) -> extends A (q, ps) (q ++ s, (ps ++ [v])%list).
Proof. intros H. exists s, [v]. simpl. split; [reflexivity|exact H]. Qed.

Lemma binds_intro (a b : string * list value) (text : string) (vals : list value) :
  extends A ("", []) a ->
  extends A (fst a ++ text, (snd a ++ vals)%list) b ->
  binds A b text vals.
Proof.
  intros (s1 & p1 & -> & H1) (s2 & p2 & -> & H2). simpl.
  exists s1, s2, p1, p2. rewrite append_assoc, <- app_assoc.
  split; [reflexivity|]. split; [reflexivity|exact H1].
Qed.

Lemma binds_extends (r r' : string * list value) (text : string) (vals : list value) :
  binds A r text vals -> extends A r r' -> binds A r' text vals.
Proof.
  intros (s1 & s2 & p1 & p2 & Hs & Hp & H1) (s & p & -> & H2). simpl.
  exists s1, (s2 ++ s), p1, (p2 ++ p)%list.
  rewrite Hs, Hp, !append_assoc, <- !app_assoc. auto.
Qed.

End Appending.

(** ** Question marks in the pieces of the text *)

Lemma noQ_count (s : string) : noQ s = true -> GoStr.count "?" s = 0.
Proof. unfold noQ. apply Nat.eqb_eq. Qed.

Lemma count_uint (d : Decimal.uint) :
  GoStr.count "?" (NilEmpty.string_of_uint d) = 0.
Proof. induction d; simpl; auto. Qed.

Lemma count_itoa (z : Z) : GoStr.count "?" (GoStr.itoa z) = 0.
Proof.
  unfold GoStr.itoa, NilZero.string_of_int, NilZero.string_of_uint.
  destruct (Z.to_int z) as [d|d]; destruct d; simpl; auto using count_uint.
Qed.

Lemma count_Join (l : list string) :
  forallb noQ l = true -> GoStr.count "?" (GoStr.Join l ", ") = 0.
Proof.
  induction l as [|a l IH]; intros H; [reflexivity|].
  simpl in H. apply andb_true_iff in H. destruct H as [Ha Hl].
  destruct l as [|b l].
  - simpl. apply noQ_count, Ha.
  - change (GoStr.Join (a :: b :: l) ", ") with (a ++ ", " ++ GoStr.Join (b :: l) ", ").
    rewrite !count_append, (noQ_count _ Ha), (IH Hl). reflexivity.
Qed.

Lemma writeCond_eq (c : whereCondition) (q : string) (ps : list value) :
  writeCond c q ps = (q ++ condText c, (ps ++ condParams c)%list).
Proof.
  unfold condText, condParams, writeCond.
  destruct (String.eqb (operator c) "IS NULL" || String.eqb (operator c) "IS NOT NULL").
  - simpl. rewrite app_nil_r. reflexivity.
  - destruct (String.eqb (operator c) "IN" || String.eqb (operator c) "BETWEEN").
    + simpl. destruct (params c); simpl; [reflexivity | now rewrite app_nil_r].
    + reflexivity.
Qed.

Lemma condText_count (c : whereCondition) :
  condAligned c = true -> GoStr.count "?" (condText c) = length (condParams c).
Proof.
  unfold condAligned, condText, condParams, writeCond, extraParams.
  rewrite !andb_true_iff. intros [[[Hc Ho] _] Hv].
  apply noQ_count in Hc, Ho.
  destruct (String.eqb (operator c) "IS NULL" || String.eqb (operator c) "IS NOT NULL").
  - cbn [fst snd]. rewrite !count_append, Hc, Ho. reflexivity.
  - destruct (String.eqb (operator c) "IN" || String.eqb (operator c) "BETWEEN").
    + apply Nat.eqb_eq in Hv. cbn [fst snd].
      rewrite !count_append, Hc, Ho, Hv. destruct (params c); reflexivity.
    + cbn [fst snd]. rewrite !count_append, Hc, Ho. reflexivity.
Qed.

Lemma havingText_count (c : whereCondition) :
  havingAligned c = true -> GoStr.count "?" (havingText c) = 1.
Proof.
  unfold havingAligned, havingText. rewrite !andb_true_iff. intros [[Hc Ho] _].
  apply noQ_count in Hc, Ho. rewrite !count_append, Hc, Ho. reflexivity.
Qed.

Lemma separator_count (i : nat) (l : string) :
  noQ l = true ->
  GoStr.count "?" (if (0 <? i)%nat then " " ++ l ++ " " else "") = 0.
Proof.
  intros H. apply noQ_count in H.
  destruct (0 <? i)%nat; [|reflexivity].
  rewrite !count_append, H. reflexivity.
Qed.

(** ** The loops *)

Lemma whereLoop_cons (i : nat) (c : whereCondition) (rest : list whereCondition)
                     (q : string) (ps : list value) :
  whereLoop i (c :: rest) q ps
  = whereLoop (S i) rest
      ((q ++ (if (0 <? i)%nat then " " ++ logic c ++ " " else "")) ++ condText c)
      (ps ++ condParams c)%list.
Proof.
  cbn [whereLoop].
  destruct (0 <? i)%nat; rewrite writeCond_eq; [reflexivity|].
  rewrite append_nil_r. reflexivity.
Qed.

Lemma havingLoop_cons (i : nat) (c : whereCondition) (rest : list whereCondition)
                      (q : string) (ps : list value) :
  havingLoop i (c :: rest) q ps
  = havingLoop (S i) rest
      ((q ++ (if (0 <? i)%nat then " " ++ logic c ++ " " else "")) ++ havingText c)
      (ps ++ [cvalue c])%list.
Proof.
  cbn [havingLoop]. unfold havingText.
  destruct (0 <? i)%nat; [reflexivity|].
  rewrite append_nil_r. reflexivity.
Qed.

Lemma whereLoop_app (l1 l2 : list whereCondition) (i : nat) (q : string) (ps : list value) :
  whereLoop i (l1 ++ l2) q ps
  = whereLoop (i + length l1) l2 (fst (whereLoop i l1 q ps)) (snd (whereLoop i l1 q ps)).
Proof.
  revert i q ps. induction l1 as [|c l1 IH]; intros i q ps.
  - simpl. rewrite Nat.add_0_r. reflexivity.
  - rewrite <- app_comm_cons, !whereLoop_cons, IH. simpl length.
    rewrite Nat.add_succ_r. reflexivity.
Qed.

Lemma havingLoop_app (l1 l2 : list whereCondition) (i : nat) (q : string) (ps : list value) :
  havingLoop i (l1 ++ l2) q ps
  = havingLoop (i + length l1) l2 (fst (havingLoop i l1 q ps)) (snd (havingLoop i l1 q ps)).
Proof.
  revert i q ps. induction l1 as [|c l1 IH]; intros i q ps.
  - simpl. rewrite Nat.add_0_r. reflexivity.
  - rewrite <- app_comm_cons, !havingLoop_cons, IH. simpl length.
    rewrite Nat.add_succ_r. reflexivity.
Qed.

Section Stages.

Variable A : Prop.

Lemma whereLoop_extends (conds : list whereCondition) (i : nat)
                        (q : string) (ps : list value) :
  (A -> forallb condAligned conds = true) ->
  extends A (q, ps) (whereLoop i conds q ps).
Proof.
  revert i q ps. induction conds as [|c rest IH]; intros i q ps H.
  - apply extends_refl.
  - rewrite whereLoop_cons.
    assert (Hc : A -> condAligned c = true).
    { intros a. specialize (H a). simpl in H. apply andb_true_iff in H. tauto. }
    assert (Hr : A -> forallb condAligned rest = true).
    { intros a. specialize (H a). simpl in H. apply andb_true_iff in H. tauto. }
    eapply extends_trans; [|apply IH, Hr].
    eapply extends_trans.
    + apply extends_text. intros a. apply separator_count.
      specialize (Hc a). unfold condAligned in Hc.
      rewrite !andb_true_iff in Hc. destruct Hc as [[[_ _] Hl] _]. exact Hl.
    + exists (condText c), (condParams c). split; [reflexivity|].
      intros a. apply condText_count, Hc, a.
Qed.

Lemma havingLoop_extends (conds : list whereCondition) (i : nat)
                         (q : string) (ps : list value) :
  (A -> forallb havingAligned conds = true) ->
  extends A (q, ps) (havingLoop i conds q ps).
Proof.
  revert i q ps. induction conds as [|c rest IH]; intros i q ps H.
  - apply extends_refl.
  - rewrite havingLoop_cons.
    assert (Hc : A -> havingAligned c = true).
    { intros a. specialize (H a). simpl in H. apply andb_true_iff in H. tauto. }
    assert (Hr : A -> forallb havingAligned rest = true).
    { intros a. specialize (H a). simpl in H. apply andb_true_iff in H. tauto. }
    eapply extends_trans; [|apply IH, Hr].
    eapply extends_trans.
    + apply extends_text. intros a. apply separator_count.
      specialize (Hc a). unfold havingAligned in Hc.
      rewrite !andb_true_iff in Hc. destruct Hc as [[_ _] Hl]. exact Hl.
    + apply extends_one. intros a. apply havingText_count, Hc, a.
Qed.

Lemma joinsLoop_appends (js : list joinClause) (q : string) :
  exists s, joinsLoop js q = q ++ s /\
            (forallb joinAligned js = true -> GoStr.count "?" s = 0).
Proof.
  revert q. induction js as [|j js IH]; intros q.
  - exists "". rewrite append_nil_r. auto.
  - cbn [joinsLoop].
    destruct (IH (q ++ " " ++ joinType j ++ " JOIN " ++ jtable j ++ " ON " ++ on j))
      as (s & Hs & Hc).
    exists ((" " ++ joinType j ++ " JOIN " ++ jtable j ++ " ON " ++ on j) ++ s).
    split; [rewrite Hs, append_assoc; reflexivity|].
    intros H. simpl in H. apply andb_true_iff in H. destruct H as [Hj Hjs].
    unfold joinAligned in Hj. rewrite !andb_true_iff in Hj.
    destruct Hj as [[H1 H2] H3]. apply noQ_count in H1, H2, H3.
    rewrite !count_append, H1, H2, H3, (Hc Hjs). reflexivity.
Qed.

End Stages.

Lemma placeholdersAligned_parts (qb : QueryBuilder) :
  placeholdersAligned qb = true ->
  partsAligned qb /\
  (forall q, unionQuery qb = Some q -> placeholdersAligned q = true).
Proof.
  destruct qb. unfold partsAligned. simpl.
  rewrite !andb_true_iff. intros [[[[[[[H1 H2] H3] H4] H5] H6] H7] H8].
  repeat split; try assumption.
  intros q ->. exact H8.
Qed.

Lemma assembleSelect_eq (qb : QueryBuilder) :
  assembleSelect qb
  = (writeOffset qb (writeLimit qb (writeOrderBy qb
       (fst (writeHaving qb
               (writeGroupBy qb (fst (writeWhere qb (writeSelectFrom qb) [])))
               (snd (writeWhere qb (writeSelectFrom qb) [])))))),
     snd (writeHaving qb
            (writeGroupBy qb (fst (writeWhere qb (writeSelectFrom qb) [])))
            (snd (writeWhere qb (writeSelectFrom qb) [])))).
Proof.
  unfold assembleSelect.
  destruct (writeWhere qb (writeSelectFrom qb) []) as [q1 p1]. cbn [fst snd].
  destruct (writeHaving qb (writeGroupBy qb q1) p1) as [q2 p2]. reflexivity.
Qed.

Section BuilderStages.

Variable A : Prop.
Variable qb : QueryBuilder.
Hypothesis HA : A -> partsAligned qb.

Lemma writeSelectFrom_extends : extends A ("", []) (writeSelectFrom qb, []).
Proof.
  unfold writeSelectFrom.
  destruct (joinsLoop_appends (joins qb)
              (("SELECT " ++
                (if (length (selectCols qb) =? 0)%nat then "*"
                 else GoStr.Join (selectCols qb) ", ")) ++ " FROM " ++ table qb))
    as (s & Hs & Hc).
  exists (((("SELECT " ++
            (if (length (selectCols qb) =? 0)%nat then "*"
             else GoStr.Join (selectCols qb) ", ")) ++ " FROM " ++ table qb)) ++ s), [].
  split.
  - cbn [fst snd app]. f_equal.
    destruct (length (selectCols qb) =? 0)%nat; rewrite <- Hs; reflexivity.
  - intros a. destruct (HA a) as (Ht & Hsel & Hj & _).
    rewrite !count_append, (Hc Hj), (noQ_count _ Ht).
    destruct (length (selectCols qb) =? 0)%nat; [reflexivity|].
    rewrite (count_Join _ Hsel). reflexivity.
Qed.

Lemma writeWhere_extends (q : string) (ps : list value) :
  extends A (q, ps) (writeWhere qb q ps).
Proof.
  unfold writeWhere. destruct (0 <? length (whereConds qb))%nat.
  - eapply extends_trans.
    + apply extends_text with (s := " WHERE "). reflexivity.
    + apply whereLoop_extends. intros a. apply (HA a).
  - apply extends_refl.
Qed.

Lemma writeGroupBy_extends (q : string) (ps : list value) :
  extends A (q, ps) (writeGroupBy qb q, ps).
Proof.
  unfold writeGroupBy. destruct (0 <? length (groupBy qb))%nat.
  - apply extends_text. intros a. destruct (HA a) as (_ & _ & _ & _ & Hg & _).
    rewrite count_append, (count_Join _ Hg). reflexivity.
  - apply extends_refl.
Qed.

Lemma writeHaving_extends (q : string) (ps : list value) :
  extends A (q, ps) (writeHaving qb q ps).
Proof.
  unfold writeHaving. destruct (0 <? length (having qb))%nat.
  - eapply extends_trans.
    + apply extends_text with (s := " HAVING "). reflexivity.
    + apply havingLoop_extends. intros a. apply (HA a).
  - apply extends_refl.
Qed.

Lemma writeTail_extends (q : string) (ps : list value) :
  extends A (q, ps) (writeOffset qb (writeLimit qb (writeOrderBy qb q)), ps).
Proof.
  apply extends_trans with (b := (writeOrderBy qb q, ps));
    [|apply extends_trans with (b := (writeLimit qb (writeOrderBy qb q), ps))].
  - unfold writeOrderBy. destruct (0 <? length (orderBy qb))%nat.
    + apply extends_text. intros a. destruct (HA a) as (_ & _ & _ & _ & _ & _ & Ho).
      rewrite count_append, (count_Join _ Ho). reflexivity.
    + apply extends_refl.
  - unfold writeLimit. destruct (0 <? limitCount qb)%Z.
    + apply extends_text. intros _. rewrite count_append, count_itoa. reflexivity.
    + apply extends_refl.
  - unfold writeOffset. destruct (0 <? offsetCount qb)%Z.
    + apply extends_text. intros _. rewrite count_append, count_itoa. reflexivity.
    + apply extends_refl.
Qed.

(** After the WHERE clause. *)
Lemma afterWhere_extends (w : string * list value) :
  extends A w
    (writeOffset qb (writeLimit qb (writeOrderBy qb
       (fst (writeHaving qb (writeGroupBy qb (fst w)) (snd w))))),
     snd (writeHaving qb (writeGroupBy qb (fst w)) (snd w))).
Proof.
  destruct w as [q ps]. cbn [fst snd].
  eapply extends_trans; [apply writeGroupBy_extends|].
  eapply extends_trans; [apply writeHaving_extends|].
  destruct (writeHaving qb (writeGroupBy qb q) ps) as [q2 p2]. cbn [fst snd].
  apply writeTail_extends.
Qed.

Lemma assembleSelect_extends : extends A ("", []) (assembleSelect qb).
Proof.
  rewrite assembleSelect_eq.
  eapply extends_trans; [apply writeSelectFrom_extends|].
  eapply extends_trans; [apply writeWhere_extends|].
  apply afterWhere_extends.
Qed.

Lemma writeWhere_binds (pre post : list whereCondition) (c : whereCondition)
                       (q : string) (ps : list value) :
  whereConds qb = (pre ++ c :: post)%list ->
  extends A ("", []) (q, ps) ->
  binds A (writeWhere qb q ps) (condText c) (condParams c).
Proof.
  intros Hw Hq. unfold writeWhere.
  assert (Hall : A -> forallb condAligned pre = true /\ condAligned c = true
                      /\ forallb condAligned post = true).
  { intros a. destruct (HA a) as (_ & _ & _ & Hc & _). rewrite Hw in Hc.
    rewrite forallb_app in Hc. simpl in Hc. rewrite !andb_true_iff in Hc. tauto. }
  rewrite Hw.
  replace (0 <? length (pre ++ c :: post))%nat with true
    by (symmetry; apply Nat.ltb_lt; rewrite length_app; simpl; lia).
  rewrite whereLoop_app, whereLoop_cons.
  apply binds_intro with
    (a := (fst (whereLoop 0 pre (q ++ " WHERE ") ps) ++
           (if (0 <? 0 + length pre)%nat then " " ++ logic c ++ " " else ""),
           snd (whereLoop 0 pre (q ++ " WHERE ") ps)));
    [|apply whereLoop_extends; intros a; apply (proj2 (proj2 (Hall a)))].
  eapply extends_trans; [exact Hq|].
  eapply extends_trans; [apply extends_text with (s := " WHERE "); reflexivity|].
  eapply extends_trans;
    [apply whereLoop_extends with (i := 0) (conds := pre); intros a; apply (proj1 (Hall a))|].
  destruct (whereLoop 0 pre (q ++ " WHERE ") ps) as [q1 p1]. cbn [fst snd].
  apply extends_text. intros a. apply separator_count.
  destruct (Hall a) as (_ & Hc & _). unfold condAligned in Hc.
  rewrite !andb_true_iff in Hc. destruct Hc as [[[_ _] Hl] _]. exact Hl.
Qed.

Lemma writeHaving_binds (pre post : list whereCondition) (c : whereCondition)
                        (q : string) (ps : list value) :
  having qb = (pre ++ c :: post)%list ->
  extends A ("", []) (q, ps) ->
  binds A (writeHaving qb q ps) (havingText c) [cvalue c].
Proof.
  intros Hw Hq. unfold writeHaving.
  assert (Hall : A -> forallb havingAligned pre = true /\ havingAligned c = true
                      /\ forallb havingAligned post = true).
  { intros a. destruct (HA a) as (_ & _ & _ & _ & _ & Hc & _). rewrite Hw in Hc.
    rewrite forallb_app in Hc. simpl in Hc. rewrite !andb_true_iff in Hc. tauto. }
  rewrite Hw.
  replace (0 <? length (pre ++ c :: post))%nat with true
    by (symmetry; apply Nat.ltb_lt; rewrite length_app; simpl; lia).
  rewrite havingLoop_app, havingLoop_cons.
  apply binds_intro with
    (a := (fst (havingLoop 0 pre (q ++ " HAVING ") ps) ++
           (if (0 <? 0 + length pre)%nat then " " ++ logic c ++ " " else ""),
           snd (havingLoop 0 pre (q ++ " HAVING ") ps)));
    [|apply havingLoop_extends; intros a; apply (proj2 (proj2 (Hall a)))].
  eapply extends_trans; [exact Hq|].
  eapply extends_trans; [apply extends_text with (s := " HAVING "); reflexivity|].
  eapply extends_trans;
    [apply havingLoop_extends with (i := 0) (conds := pre); intros a; apply (proj1 (Hall a))|].
  destruct (havingLoop 0 pre (q ++ " HAVING ") ps) as [q1 p1]. cbn [fst snd].
  apply extends_text. intros a. apply separator_count.
  destruct (Hall a) as (_ & Hc & _). unfold havingAligned in Hc.
  rewrite !andb_true_iff in Hc. destruct Hc as [[_ _] Hl]. exact Hl.
Qed.

Lemma assembleSelect_binds_where (pre post : list whereCondition) (c : whereCondition) :
  whereConds qb = (pre ++ c :: post)%list ->
  binds A (assembleSelect qb) (condText c) (condParams c).
Proof.
  intros Hw. rewrite assembleSelect_eq.
  eapply binds_extends; [|apply afterWhere_extends].
  apply (writeWhere_binds pre post c _ _ Hw), writeSelectFrom_extends.
Qed.

Lemma assembleSelect_binds_having (pre post : list whereCondition) (c : whereCondition) :
  having qb = (pre ++ c :: post)%list ->
  binds A (assembleSelect qb) (havingText c) [cvalue c].
Proof.
  intros Hh. rewrite assembleSelect_eq.
  destruct (writeWhere qb (writeSelectFrom qb) []) as [q1 p1] eqn:Ew. cbn [fst snd].
  assert (Hb : binds A (writeHaving qb (writeGroupBy qb q1) p1) (havingText c) [cvalue c]).
  { apply (writeHaving_binds pre post c _ _ Hh).
    eapply extends_trans; [apply writeSelectFrom_extends|].
    eapply extends_trans; [apply writeWhere_extends|].
    rewrite Ew. apply writeGroupBy_extends. }
  destruct (writeHaving qb (writeGroupBy qb q1) p1) as [q2 p2]. cbn [fst snd].
  eapply binds_extends; [exact Hb|]. apply writeTail_extends.
Qed.

End BuilderStages.

(** ** [ToSQL] as a whole *)

(** Induction along the chain of union children. *)
Lemma union_chain_ind (Q : QueryBuilder -> Prop) :
  (forall qb, (forall q, unionQuery qb = Some q -> Q q) -> Q qb) ->
  forall qb, Q qb.
Proof.
  intros step. fix rec 1. intros qb. apply step.
  destruct qb as [? ? ? ? ? ? ? ? ? ? ? u ? ? ?]. cbn. intros q Hq.
  destruct u as [q'|]; [|discriminate].
  injection Hq as <-. apply rec.
Qed.

Lemma ToSQL_success (qb : QueryBuilder) (sql : string) (ps : list value) :
  ToSQL qb = (sql, ps, None) ->
  err qb = None /\ table qb <> "" /\
  ((unionQuery qb = None /\ assembleSelect qb = (sql, ps))
   \/ (exists q usql ups,
         unionQuery qb = Some q /\ ToSQL q = (usql, ups, None) /\
         sql = fst (assembleSelect qb) ++ " " ++ unionKeyword qb ++ " " ++ usql /\
         ps = (snd (assembleSelect qb) ++ ups)%list)).
Proof.
  rewrite ToSQL_eq. destruct (err qb); [discriminate|].
  destruct (String.eqb (table qb) "") eqn:Et; [discriminate|].
  apply String.eqb_neq in Et.
  destruct (assembleSelect qb) as [q0 p0]. cbn [fst snd].
  destruct (unionQuery qb) as [q|].
  - destruct (ToSQL q) as [[usql ups] [e|]] eqn:Eq; [discriminate|].
    intros H. injection H as <- <-. split; [reflexivity|]. split; [exact Et|].
    right. exists q, usql, ups. rewrite Eq. repeat split; reflexivity.
  - intros H. injection H as <- <-. split; [reflexivity|]. split; [exact Et|].
    left. split; reflexivity.
Qed.

(** The statement of placeholder counting, for one builder. *)
Lemma ToSQL_extends (qb : QueryBuilder) :
  forall sql ps,
    ToSQL qb = (sql, ps, None) ->
    placeholdersAligned qb = true ->
    GoStr.count "?" sql = length ps.
Proof.
  induction qb as [qb IH] using union_chain_ind. intros sql ps Hsql Hal.
  destruct (placeholdersAligned_parts _ Hal) as [Hparts Hchild].
  destruct (assembleSelect_extends True qb (fun _ => Hparts)) as (s & p & Hs & Hc).
  cbn [fst snd app] in Hs. specialize (Hc I).
  destruct (ToSQL_success _ _ _ Hsql) as (_ & _ & [[_ Ha] | (q & usql & ups & Hu & Hq & -> & ->)]).
  - rewrite Ha in Hs. injection Hs as -> ->. exact Hc.
  - rewrite Hs. cbn [fst snd].
    rewrite !count_append, length_app, Hc, (IH q Hu _ _ Hq (Hchild q Hu)).
    unfold unionKeyword. destruct (unionAll qb); reflexivity.
Qed.

(** Claim C1, counterexample.  A quoted identifier may hold a question
    mark: [Table("users").Select("`a?`")] has no sticky error and a table,
    and assembles to a text with one question mark and no parameter. *)
Lemma quoted_identifier_adds_a_question_mark :
  exists qb : QueryBuilder,
    run [CTable "users"; CSelect ["`a?`"]] (NewQueryBuilder None) = Ret qb
    /\ err qb = None /\ table qb <> ""
    /\ ToSQL qb = ("SELECT `a?` FROM users", [], None)
    /\ GoStr.count "?" "SELECT `a?` FROM users" = 1
    /\ GoStr.count "?" "SELECT `a?` FROM users" <> length (@nil value).
Proof.
  eexists. split; [reflexivity|]. split; [reflexivity|]. split; [discriminate|].
  split; [reflexivity|]. split; [reflexivity|]. discriminate.
Qed.

(** Claim C1, amended.  For a builder whose stored texts hold no question
    mark of their own and whose IN and BETWEEN conditions carry a value text
    with as many question marks as extra parameters (as [WhereIn] and
    [WhereBetween] build them), the same holding for its union child: when
    [ToSQL] succeeds, the text has exactly as many question marks as there
    are parameters, and they are bound in order: the text of every WHERE
    condition, of every HAVING condition and of the union child stands in
    the SQL after as many question marks as parameters stand before its own
    parameters in the list. *)
Theorem placeholders_match_parameters
  (qb : QueryBuilder) (sql : string) (ps : list value)
  (Haligned : placeholdersAligned qb = true)
  (Hsql : ToSQL qb = (sql, ps, None)) :
  GoStr.count "?" sql = length ps
  /\ (forall pre c post,
        whereConds qb = (pre ++ c :: post)%list ->
        exists s1 s2 p1 p2,
          sql = s1 ++ condText c ++ s2 /\ ps = (p1 ++ condParams c ++ p2)%list /\
          GoStr.count "?" s1 = length p1 /\
          GoStr.count "?" (condText c) = length (condParams c))
  /\ (forall pre c post,
        having qb = (pre ++ c :: post)%list ->
        exists s1 s2 p1 p2,
          sql = s1 ++ havingText c ++ s2 /\ ps = (p1 ++ [cvalue c] ++ p2)%list /\
          GoStr.count "?" s1 = length p1 /\
          GoStr.count "?" (havingText c) = 1)
  /\ (forall q usql ups,
        unionQuery qb = Some q -> ToSQL q = (usql, ups, None) ->
        exists s1 p1,
          sql = s1 ++ usql /\ ps = (p1 ++ ups)%list /\
          GoStr.count "?" s1 = length p1 /\
          GoStr.count "?" usql = length ups).
Proof.
  destruct (placeholdersAligned_parts _ Haligned) as [Hparts Hchild].
  pose proof (ToSQL_success _ _ _ Hsql) as (_ & _ & Hshape).
  assert (Hfinal : extends True (assembleSelect qb) (sql, ps)).
  { destruct Hshape as [[_ Ha] | (q & usql & ups & Hu & Hq & -> & ->)].
    - rewrite Ha. apply extends_refl.
    - exists (" " ++ unionKeyword qb ++ " " ++ usql), ups.
      split; [reflexivity|]. intros _.
      rewrite !count_append, (ToSQL_extends q _ _ Hq (Hchild q Hu)).
      unfold unionKeyword. destruct (unionAll qb); reflexivity. }
  split; [exact (ToSQL_extends qb _ _ Hsql Haligned)|]. split; [|split].
  - intros pre c post Hw.
    pose proof (binds_extends True _ _ _ _
                  (assembleSelect_binds_where True qb (fun _ => Hparts) pre post c Hw)
                  Hfinal) as (s1 & s2 & p1 & p2 & Hs & Hp & Hc).
    exists s1, s2, p1, p2. cbn [fst snd] in Hs, Hp.
    repeat split; auto.
    apply condText_count. destruct Hparts as (_ & _ & _ & Hconds & _).
    rewrite Hw, forallb_app in Hconds. simpl in Hconds.
    rewrite !andb_true_iff in Hconds. tauto.
  - intros pre c post Hh.
    pose proof (binds_extends True _ _ _ _
                  (assembleSelect_binds_having True qb (fun _ => Hparts) pre post c Hh)
                  Hfinal) as (s1 & s2 & p1 & p2 & Hs & Hp & Hc).
    exists s1, s2, p1, p2. cbn [fst snd] in Hs, Hp.
    repeat split; auto.
    apply havingText_count. destruct Hparts as (_ & _ & _ & _ & _ & Hconds & _).
    rewrite Hh, forallb_app in Hconds. simpl in Hconds.
    rewrite !andb_true_iff in Hconds. tauto.
  - intros q usql ups Hu Hq.
    destruct Hshape as [[Hn _] | (q' & usql' & ups' & Hu' & Hq' & Hs & Hp)];
      [congruence|].
    rewrite Hu in Hu'. injection Hu' as <-. rewrite Hq in Hq'. injection Hq' as <- <-.
    destruct (assembleSelect_extends True qb (fun _ => Hparts)) as (s & p & Ha & Hc).
    cbn [fst snd app] in Ha. rewrite Ha in Hs, Hp. cbn [fst snd] in Hs, Hp.
    exists (s ++ " " ++ unionKeyword qb ++ " "), p.
    rewrite Hs, Hp, !append_assoc. repeat split.
    + rewrite !count_append, (Hc I). unfold unionKeyword.
      destruct (unionAll qb); simpl; lia.
    + exact (ToSQL_extends q _ _ Hq (Hchild q Hu)).
Qed.

(** ** What a returning mutator leaves behind *)

Lemma Select_loop_shape (rest columns : list string) (qb qb' : QueryBuilder) :
  Select_loop rest columns qb = Ret qb' ->
  qb' = set_selectCols qb columns \/ exists e, qb' = set_err qb e.
Proof.
  induction rest as [|col rest IH]; cbn [Select_loop].
  - intros H. injection H as <-. left; reflexivity.
  - destruct (String.eqb col "*" || isValidSelectExpression col); [exact IH|].
    destruct (isValidIdentifier col) as [[|]|?|]; cbn [obind negb];
      [exact IH | | discriminate | discriminate].
    intros H. injection H as <-. right. eexists; reflexivity.
Qed.

Lemma GroupBy_loop_shape (rest columns : list string) (qb qb' : QueryBuilder) :
  GroupBy_loop rest columns qb = Ret qb' ->
  qb' = set_groupBy qb (groupBy qb ++ columns) \/ exists e, qb' = set_err qb e.
Proof.
  induction rest as [|col rest IH]; cbn [GroupBy_loop].
  - intros H. injection H as <-. left; reflexivity.
  - destruct (isValidIdentifier col) as [[|]|?|]; cbn [obind negb];
      [exact IH | | discriminate | discriminate].
    intros H. injection H as <-. right. eexists; reflexivity.
Qed.

(** Breaks [H : apply c qb = Ret qb'] into the builders [qb'] can be. *)
Ltac mutator_cases H :=
  cbn [apply] in H;
  unfold Table, Where, OrWhere, WhereIn, WhereBetween, WhereNull, WhereNotNull,
         Join, LeftJoin, RightJoin, joinWith, OrderBy, Having, OnlyTrashed,
         WhereNotNull in H;
  repeat match type of H with
  | obind ?o _ = Ret _ => destruct o as [[|]|?|]; cbn [obind negb andb] in H
  | (if ?b then _ else _) = Ret _ => destruct b eqn:?
  | Ret _ = Ret _ => injection H as <-
  | Panic _ = Ret _ => discriminate H
  | Diverge = Ret _ => discriminate H
  end.

(** Every call keeps the conditions already there. *)
Lemma apply_keeps_whereConds (c : call) (qb qb' : QueryBuilder) :
  apply c qb = Ret qb' ->
  exists extra, whereConds qb' = (whereConds qb ++ extra)%list.
Proof.
  intros H.
  assert (Hsame : forall q, whereConds q = whereConds qb ->
                            exists extra, whereConds q = (whereConds qb ++ extra)%list).
  { intros q ->. exists []. now rewrite app_nil_r. }
  destruct c.
  2: { cbn [apply] in H. unfold Select in H.
       destruct (Select_loop_shape _ _ _ _ H) as [-> | [e ->]];
         apply Hsame; destruct qb; reflexivity. }
  12: { cbn [apply] in H. unfold GroupBy in H.
        destruct (GroupBy_loop_shape _ _ _ _ H) as [-> | [e ->]];
          apply Hsame; destruct qb; reflexivity. }
  all: mutator_cases H;
    try (apply Hsame; destruct qb; reflexivity);
    try (eexists; destruct qb; reflexivity).
Qed.

Lemma run_keeps_whereConds (cs : list call) (qb qb' : QueryBuilder) :
  run cs qb = Ret qb' ->
  exists extra, whereConds qb' = (whereConds qb ++ extra)%list.
Proof.
  revert qb. induction cs as [|c cs IH]; intros qb H; cbn [run] in H.
  - injection H as <-. exists []. now rewrite app_nil_r.
  - destruct (apply c qb) as [q1| |] eqn:E; cbn [obind] in H; try discriminate.
    destruct (apply_keeps_whereConds _ _ _ E) as [x1 H1].
    destruct (IH _ H) as [x2 H2].
    exists (x1 ++ x2)%list. rewrite H2, H1, app_assoc. reflexivity.
Qed.

(** ** Soft delete: the filter of [Model.Query] cannot be taken back *)

Lemma ToSQL_contains_condition (qb : QueryBuilder) (sql : string) (ps : list value)
                               (pre post : list whereCondition) (c : whereCondition) :
  ToSQL qb = (sql, ps, None) ->
  whereConds qb = (pre ++ c :: post)%list ->
  GoStr.Contains sql (condText c) = true.
Proof.
  intros Hsql Hw.
  assert (HF : False -> partsAligned qb) by tauto.
  pose proof (assembleSelect_binds_where False qb HF pre post c Hw)
    as (s1 & s2 & p1 & p2 & Hs & _).
  destruct (ToSQL_success _ _ _ Hsql) as (_ & _ & [[_ Ha] | (q & usql & ups & _ & _ & -> & _)]).
  - rewrite Ha in Hs. cbn [fst] in Hs. subst sql. apply Contains_append.
  - rewrite Hs, !append_assoc. apply Contains_append.
Qed.

Lemma soft_delete_filter_survives_every_chain
  (m : Model) (d : option conn) (cs : list call) (qb0 qb : QueryBuilder)
  (sql : string) (ps : list value) :
  softDelete m = true ->
  Model_Query m d = Ret qb0 ->
  run cs qb0 = Ret qb ->
  ToSQL qb = (sql, ps, None) ->
  GoStr.Contains sql "deleted_at IS NULL" = true.
Proof.
  intros Hsoft Hq Hrun Hsql.
  assert (Hstart : err qb0 <> None \/
                   whereConds qb0 = [mkCond "deleted_at" "IS NULL" (VStr "") "AND" None]).
  { unfold Model_Query in Hq. rewrite Hsoft in Hq.
    destruct (isValidIdentifier (mtable m)) as [[|]|?|] eqn:Ev;
      cbn [obind negb] in Hq; try discriminate.
    - unfold Table in Hq. rewrite Ev in Hq. cbn [obind negb] in Hq.
      right. injection Hq as <-. reflexivity.
    - left. injection Hq as <-. discriminate. }
  destruct Hstart as [He | Hw].
  - exfalso. destruct (err qb0) as [e|] eqn:E0; [|congruence].
    pose proof (run_err _ _ _ Hrun) as Herr. rewrite E0 in Herr.
    destruct (stickyAfter_some cs e) as [e' He']. rewrite He' in Herr.
    rewrite (ToSQL_sticky _ _ Herr) in Hsql. discriminate.
  - destruct (run_keeps_whereConds _ _ _ Hrun) as [extra Hx]. rewrite Hw in Hx.
    exact (ToSQL_contains_condition qb sql ps [] extra _ Hsql Hx).
Qed.

(** ** Chains of clean calls keep the builder aligned *)

Lemma count_placeholders (values : list value) :
  GoStr.count "?" (GoStr.Join (map (fun _ => "?") values) ", ") = length values.
Proof.
  induction values as [|v values IH]; [reflexivity|].
  destruct values as [|w values]; [reflexivity|].
  change (GoStr.Join (map (fun _ => "?") (v :: w :: values)) ", ")
    with ("?" ++ ", " ++ GoStr.Join (map (fun _ => "?") (w :: values)) ", ").
  rewrite !count_append, IH. reflexivity.
Qed.

Lemma aligned_set_err (qb : QueryBuilder) (e : error) :
  placeholdersAligned (set_err qb e) = placeholdersAligned qb.
Proof. destruct qb; reflexivity. Qed.

Lemma aligned_add_cond (qb : QueryBuilder) (c : whereCondition) :
  placeholdersAligned qb = true -> condAligned c = true ->
  placeholdersAligned (set_whereConds qb (whereConds qb ++ [c])) = true.
Proof.
  destruct qb. cbn. rewrite forallb_app. cbn.
  rewrite !andb_true_iff. intros [[[[[[[H1 H2] H3] H4] H5] H6] H7] H8] Hc.
  repeat split; assumption.
Qed.

Lemma aligned_add_having (qb : QueryBuilder) (c : whereCondition) :
  placeholdersAligned qb = true -> havingAligned c = true ->
  placeholdersAligned (set_having qb (having qb ++ [c])) = true.
Proof.
  destruct qb. cbn. rewrite forallb_app. cbn.
  rewrite !andb_true_iff. intros [[[[[[[H1 H2] H3] H4] H5] H6] H7] H8] Hc.
  repeat split; assumption.
Qed.

Lemma aligned_add_join (qb : QueryBuilder) (j : joinClause) :
  placeholdersAligned qb = true -> joinAligned j = true ->
  placeholdersAligned (set_joins qb (joins qb ++ [j])) = true.
Proof.
  destruct qb. cbn. rewrite forallb_app. cbn.
  rewrite !andb_true_iff. intros [[[[[[[H1 H2] H3] H4] H5] H6] H7] H8] Hc.
  repeat split; assumption.
Qed.

Lemma aligned_add_orderBy (qb : QueryBuilder) (o : string) :
  placeholdersAligned qb = true -> noQ o = true ->
  placeholdersAligned (set_orderBy qb (orderBy qb ++ [o])) = true.
Proof.
  destruct qb. cbn. rewrite forallb_app. cbn.
  rewrite !andb_true_iff. intros [[[[[[[H1 H2] H3] H4] H5] H6] H7] H8] Hc.
  repeat split; assumption.
Qed.

Lemma aligned_add_groupBy (qb : QueryBuilder) (g : list string) :
  placeholdersAligned qb = true -> forallb noQ g = true ->
  placeholdersAligned (set_groupBy qb (groupBy qb ++ g)) = true.
Proof.
  destruct qb. cbn. rewrite forallb_app.
  rewrite !andb_true_iff. intros [[[[[[[H1 H2] H3] H4] H5] H6] H7] H8] Hc.
  repeat split; assumption.
Qed.

Lemma aligned_set_selectCols (qb : QueryBuilder) (cols : list string) :
  placeholdersAligned qb = true -> forallb noQ cols = true ->
  placeholdersAligned (set_selectCols qb cols) = true.
Proof.
  destruct qb. cbn.
  rewrite !andb_true_iff. intros [[[[[[[H1 H2] H3] H4] H5] H6] H7] H8] Hc.
  repeat split; assumption.
Qed.

Lemma aligned_set_table (qb : QueryBuilder) (t : string) :
  placeholdersAligned qb = true -> noQ t = true ->
  placeholdersAligned (set_table qb t) = true.
Proof.
  destruct qb. cbn.
  rewrite !andb_true_iff. intros [[[[[[[H1 H2] H3] H4] H5] H6] H7] H8] Hc.
  repeat split; assumption.
Qed.

Lemma aligned_set_union (qb q : QueryBuilder) (all : bool) :
  placeholdersAligned qb = true -> placeholdersAligned q = true ->
  placeholdersAligned (set_union qb q all) = true.
Proof.
  destruct qb. simpl.
  rewrite !andb_true_iff. intros [[[[[[[H1 H2] H3] H4] H5] H6] H7] H8] Hc.
  repeat split; assumption.
Qed.

Lemma condAligned_mk (col op l : string) (v : value) (p : option (list value)) :
  condAligned (mkCond col op v l p)
  = noQ col && noQ op && noQ l &&
    (if String.eqb op "IN" || String.eqb op "BETWEEN"
     then Nat.eqb (GoStr.count "?" (fmt_s v))
                  (length (match p with Some extra => extra | None => [] end))
     else true).
Proof. reflexivity. Qed.

Lemma havingAligned_mk (col op l : string) (v : value) (p : option (list value)) :
  havingAligned (mkCond col op v l p) = noQ col && noQ op && noQ l.
Proof. reflexivity. Qed.

Lemma joinAligned_mk (k t o : string) :
  joinAligned (mkJoin k t o) = noQ k && noQ t && noQ o.
Proof. reflexivity. Qed.

Lemma run_keeps_alignment_step (c : call) (qb qb' : QueryBuilder) :
  placeholdersAligned qb = true -> callClean c = true ->
  apply c qb = Ret qb' -> placeholdersAligned qb' = true.
Proof.
  intros Hal Hclean H.
  destruct c.
  2: { cbn [apply] in H. unfold Select in H.
       destruct (Select_loop_shape _ _ _ _ H) as [-> | [e ->]].
       - apply aligned_set_selectCols; assumption.
       - rewrite aligned_set_err; assumption. }
  12: { cbn [apply] in H. unfold GroupBy in H.
        destruct (GroupBy_loop_shape _ _ _ _ H) as [-> | [e ->]].
        - apply aligned_add_groupBy; assumption.
        - rewrite aligned_set_err; assumption. }
  all: cbn [callClean] in Hclean; rewrite ?andb_true_iff in Hclean;
    mutator_cases H;
    try (rewrite aligned_set_err; assumption).
  - apply aligned_set_table; assumption.
  - apply aligned_add_cond; [assumption|].
    destruct Hclean as [[Hc Ho] Hv]. rewrite condAligned_mk, Hc, Ho.
    destruct (String.eqb op "IN" || String.eqb op "BETWEEN"); [|reflexivity].
    apply noQ_count in Hv. rewrite Hv. reflexivity.
  - apply aligned_add_cond; [assumption|].
    destruct Hclean as [[Hc Ho] Hv]. rewrite condAligned_mk, Hc, Ho.
    destruct (String.eqb op "IN" || String.eqb op "BETWEEN"); [|reflexivity].
    apply noQ_count in Hv. rewrite Hv. reflexivity.
  - apply aligned_add_cond; [assumption|].
    rewrite condAligned_mk, Hclean.
    change (fmt_s (VStr ?x)) with x.
    change (String "(" ?x) with ("(" ++ x).
    rewrite !count_append, count_placeholders. cbn. rewrite Nat.add_0_r.
    apply Nat.eqb_refl.
  - apply aligned_add_cond; [assumption|]. rewrite condAligned_mk, Hclean. reflexivity.
  - apply aligned_add_cond; [assumption|]. rewrite condAligned_mk, Hclean. reflexivity.
  - apply aligned_add_cond; [assumption|]. rewrite condAligned_mk, Hclean. reflexivity.
  - apply aligned_add_join; [assumption|].
    destruct Hclean as [Ht Ho]. rewrite joinAligned_mk, Ht, Ho. reflexivity.
  - apply aligned_add_join; [assumption|].
    destruct Hclean as [Ht Ho]. rewrite joinAligned_mk, Ht, Ho. reflexivity.
  - apply aligned_add_join; [assumption|].
    destruct Hclean as [Ht Ho]. rewrite joinAligned_mk, Ht, Ho. reflexivity.
  - apply aligned_add_orderBy; [assumption|].
    destruct Hclean as [Hc Hd]. apply noQ_count in Hc, Hd.
    unfold noQ. change (String " " ?x) with (" " ++ x).
    rewrite !count_append, Hc, Hd. reflexivity.
  - apply aligned_add_having; [assumption|].
    destruct Hclean as [Hc Ho]. rewrite havingAligned_mk, Hc, Ho. reflexivity.
  - apply aligned_add_having; [assumption|].
    destruct Hclean as [Hc Ho]. rewrite havingAligned_mk, Hc, Ho. reflexivity.
  - destruct qb; exact Hal.
  - destruct qb; exact Hal.
  - apply aligned_set_union; assumption.
  - apply aligned_set_union; assumption.
  - destruct qb; exact Hal.
  - destruct qb; exact Hal.
  - apply aligned_add_cond; [assumption | reflexivity].
Qed.

(** Builders made by clean calls are aligned. *)
Lemma run_keeps_alignment (cs : list call) (qb qb' : QueryBuilder) :
  placeholdersAligned qb = true -> forallb callClean cs = true ->
  run cs qb = Ret qb' -> placeholdersAligned qb' = true.
Proof.
  revert qb. induction cs as [|c cs IH]; intros qb Hal Hclean H; cbn [run] in H.
  - injection H as <-. exact Hal.
  - cbn in Hclean. apply andb_true_iff in Hclean. destruct Hclean as [Hc Hcs].
    destruct (apply c qb) as [q1| |] eqn:E; cbn [obind] in H; try discriminate.
    exact (IH q1 (run_keeps_alignment_step _ _ _ Hal Hc E) Hcs H).
Qed.

Lemma placeholders_match_parameters_witness :
  ToSQL exampleQuery
  = ("SELECT id, COUNT(*) FROM users INNER JOIN profiles ON users.id = profiles.user_id WHERE age > ? OR role = ? AND id IN (?, ?, ?) AND age BETWEEN ? AND ? AND deleted_at IS NULL GROUP BY id HAVING COUNT(*) > ? ORDER BY id DESC LIMIT 10 UNION SELECT * FROM admins WHERE level >= ?",
     [VInt 18; VStr "admin"; VInt 1; VInt 2; VInt 3; VInt 18; VInt 65; VInt 5; VInt 2],
     None)
  /\ GoStr.count "?" (fst (fst (ToSQL exampleQuery))) = 9
  /\ length (snd (fst (ToSQL exampleQuery))) = 9.
Proof.
  assert (Hal : placeholdersAligned exampleQuery = true) by (vm_compute; reflexivity).
  assert (Hsql : ToSQL exampleQuery
                 = (fst (fst (ToSQL exampleQuery)), snd (fst (ToSQL exampleQuery)), None))
    by (vm_compute; reflexivity).
  split; [vm_compute; reflexivity|].
  pose proof (proj1 (placeholders_match_parameters exampleQuery _ _ Hal Hsql)) as H.
  split; [rewrite H|]; vm_compute; reflexivity.
Defined.

(* ================================================================== *)
(** * Further properties of the package *)

(** ** Patterns: what a match tells about the text *)

Lemma MatchString_Empty (s : string) : MatchString Empty s = false.
Proof. induction s as [|c s IH]; [reflexivity | exact IH]. Qed.

Lemma deriv_outside_alphabet (r : regex) (c : ascii) :
  alphabet r c = false -> deriv c r = Empty.
Proof.
  induction r as [| |p|r1 IH1 r2 IH2|r1 IH1 r2 IH2|r1 IH1]; cbn [alphabet deriv];
    intros H.
  - reflexivity.
  - reflexivity.
  - rewrite H. reflexivity.
  - apply orb_false_iff in H. destruct H as [H1 H2].
    rewrite (IH1 H1), (IH2 H2). destruct (nullable r1); reflexivity.
  - apply orb_false_iff in H. destruct H as [H1 H2].
    rewrite (IH1 H1), (IH2 H2). reflexivity.
  - rewrite (IH1 H). reflexivity.
Qed.

Lemma alphabet_cat (a b : regex) (d : ascii) :
  alphabet (cat a b) d = true -> alphabet a d || alphabet b d = true.
Proof.
  destruct a, b; cbn; intros H; try discriminate H; try exact H;
    rewrite ?orb_false_r; try exact H; try (rewrite H; reflexivity).
Qed.

Lemma alphabet_alt (a b : regex) (d : ascii) :
  alphabet (alt a b) d = true -> alphabet a d || alphabet b d = true.
Proof.
  destruct a, b; cbn; intros H; try discriminate H; try exact H;
    rewrite ?orb_false_r; try exact H; try (rewrite H; reflexivity).
Qed.

Lemma alphabet_deriv (r : regex) (c d : ascii) :
  alphabet (deriv c r) d = true -> alphabet r d = true.
Proof.
  induction r as [| |p|r1 IH1 r2 IH2|r1 IH1 r2 IH2|r1 IH1]; cbn [alphabet deriv];
    intros H.
  - discriminate H.
  - discriminate H.
  - destruct (p c); discriminate H.
  - destruct (nullable r1).
    + apply alphabet_alt in H. apply orb_true_iff in H. destruct H as [H|H].
      * apply alphabet_cat in H. apply orb_true_iff in H. destruct H as [H|H].
        -- rewrite (IH1 H). reflexivity.
        -- rewrite H. apply orb_true_r.
      * rewrite (IH2 H). apply orb_true_r.
    + apply alphabet_cat in H. apply orb_true_iff in H. destruct H as [H|H].
      * rewrite (IH1 H). reflexivity.
      * rewrite H. apply orb_true_r.
  - apply alphabet_alt in H. apply orb_true_iff in H. destruct H as [H|H].
    + rewrite (IH1 H). reflexivity.
    + rewrite (IH2 H). apply orb_true_r.
  - apply alphabet_cat in H. apply orb_true_iff in H. destruct H as [H|H].
    + exact (IH1 H).
    + exact H.
Qed.

Lemma allChars_weaken (p q : ascii -> bool) (s : string) :
  (forall c, p c = true -> q c = true) -> allChars p s = true -> allChars q s = true.
Proof.
  intros Hpq. induction s as [|c s IH]; cbn; [reflexivity|].
  rewrite !andb_true_iff. intros [Hc Hs]. split; [apply Hpq, Hc | apply IH, Hs].
Qed.

(** A matched text is made of bytes the pattern's classes admit. *)
Lemma MatchString_alphabet (s : string) :
  forall r, MatchString r s = true -> allChars (alphabet r) s = true.
Proof.
  induction s as [|c s IH]; intros r H; cbn; [reflexivity|].
  cbn [MatchString] in H.
  destruct (alphabet r c) eqn:Ec.
  - cbn. apply (allChars_weaken (alphabet (deriv c r))).
    + intros d. apply alphabet_deriv.
    + apply IH, H.
  - rewrite (deriv_outside_alphabet _ _ Ec), MatchString_Empty in H. discriminate H.
Qed.

Lemma allChars_count (p : ascii -> bool) (s : string) (c : ascii) :
  allChars p s = true -> p c = false -> GoStr.count c s = 0.
Proof.
  intros Hs Hc. induction s as [|d s IH]; [reflexivity|].
  cbn in Hs. apply andb_true_iff in Hs. destruct Hs as [Hd Hs].
  cbn. rewrite (IH Hs).
  destruct (Ascii.eqb c d) eqn:E; [|reflexivity].
  apply Ascii.eqb_eq in E. subst d. congruence.
Qed.

Lemma validIdentifier_alphabet (c : ascii) :
  alphabet validIdentifier c = true -> bareChar c = true.
Proof.
  destruct c as [[] [] [] [] [] [] [] []]; vm_compute; intros H;
    first [reflexivity | discriminate H].
Qed.

Lemma joinPattern_alphabet (c : ascii) :
  alphabet joinPattern c = true -> joinChar c = true.
Proof.
  destruct c as [[] [] [] [] [] [] [] []]; vm_compute; intros H;
    first [reflexivity | discriminate H].
Qed.

(** Extra X1.  An identifier that [isValidIdentifier] accepts outside its
    quoted branch is made of ASCII letters, digits, underscores and dots
    only: every other byte (a space, a quote, a semicolon, a question mark,
    a parenthesis, a dash) occurs zero times in it. *)
Theorem bare_identifier_characters (s : string) :
  isValidIdentifier s = Ret true ->
  quotedForm s = false ->
  allChars bareChar s = true /\
  (forall c, bareChar c = false -> GoStr.count c s = 0).
Proof.
  intros Hv Hq. unfold isValidIdentifier in Hv. fold (quotedForm s) in Hv.
  rewrite Hq in Hv. injection Hv as Hm.
  assert (Hall : allChars bareChar s = true).
  { apply (allChars_weaken (alphabet validIdentifier)).
    - apply validIdentifier_alphabet.
    - apply MatchString_alphabet, Hm. }
  split; [exact Hall|]. intros c Hc. exact (allChars_count _ _ _ Hall Hc).
Qed.

Lemma bare_identifier_characters_witness :
  allChars bareChar "users.id" = true /\ GoStr.count ";" "users.id" = 0.
Proof.
  assert (Hv : isValidIdentifier "users.id" = Ret true) by (vm_compute; reflexivity).
  assert (Hq : quotedForm "users.id" = false) by (vm_compute; reflexivity).
  destruct (bare_identifier_characters "users.id" Hv Hq) as [Hall Hc].
  split; [exact Hall|]. apply Hc. vm_compute. reflexivity.
Defined.

(** Extra X2.  A join condition that [isValidJoinCondition] accepts is made
    of ASCII letters, digits, underscores, dots, equals signs and white
    space only: no quote, semicolon, parenthesis, dash or question mark can
    reach the ON clause. *)
Theorem join_condition_characters (s : string) :
  isValidJoinCondition s = true ->
  allChars joinChar s = true /\
  (forall c, joinChar c = false -> GoStr.count c s = 0).
Proof.
  intros Hm. unfold isValidJoinCondition in Hm.
  assert (Hall : allChars joinChar s = true).
  { apply (allChars_weaken (alphabet joinPattern)).
    - apply joinPattern_alphabet.
    - apply MatchString_alphabet, Hm. }
  split; [exact Hall|]. intros c Hc. exact (allChars_count _ _ _ Hall Hc).
Qed.

Lemma join_condition_characters_witness :
  allChars joinChar "users.id = profiles.user_id" = true /\
  GoStr.count "'" "users.id = profiles.user_id" = 0.
Proof.
  assert (Hv : isValidJoinCondition "users.id = profiles.user_id" = true)
    by (vm_compute; reflexivity).
  destruct (join_condition_characters _ Hv) as [Hall Hc].
  split; [exact Hall|]. apply Hc. vm_compute. reflexivity.
Defined.

(** ** Quoted identifiers *)

Lemma rev_append_char (s : string) (c : ascii) :
  GoStr.rev (s ++ String c "") = String c (GoStr.rev s).
Proof.
  induction s as [|d s IH]; cbn; [reflexivity|]. rewrite IH. reflexivity.
Qed.

Lemma substring_prefix (a b : string) :
  String.substring 0 (String.length a) (a ++ b) = a.
Proof.
  induction a as [|c a IH]; cbn.
  - destruct b; reflexivity.
  - rewrite IH. reflexivity.
Qed.

Lemma HasSuffix_quoted (q : ascii) (inner : string) :
  GoStr.HasSuffix (String q (inner ++ String q "")) (String q "") = true.
Proof.
  unfold GoStr.HasSuffix. cbn [GoStr.rev]. rewrite rev_append_char.
  cbn. rewrite Ascii.eqb_refl. reflexivity.
Qed.

Lemma slice_quoted (q : ascii) (inner : string) :
  GoStr.slice (String q (inner ++ String q "")) 1
              (Z.of_nat (String.length (String q (inner ++ String q ""))) - 1)
  = Ret inner.
Proof.
  unfold GoStr.slice. cbn [String.length]. rewrite length_append. cbn [String.length].
  replace ((0 <=? 1)%Z &&
           (1 <=? Z.of_nat (S (String.length inner + 1)) - 1)%Z &&
           (Z.of_nat (S (String.length inner + 1)) - 1 <=?
            Z.of_nat (S (String.length inner + 1)))%Z) with true
    by (symmetry; rewrite !andb_true_iff, !Z.leb_le; lia).
  replace (Z.to_nat (Z.of_nat (S (String.length inner + 1)) - 1 - 1))
    with (String.length inner) by lia.
  change (Z.to_nat 1) with 1. cbn [String.substring].
  rewrite substring_prefix. reflexivity.
Qed.

(** Extra X3.  A string wrapped in two backticks, or in two double quotes,
    is a valid identifier exactly when what stands between them is not empty
    and holds neither a backtick nor a double quote; nothing else about the
    content is looked at (spaces, semicolons, dashes and question marks
    pass). *)
Theorem quoted_identifier_validity (inner : string) :
  isValidIdentifier (backtick ++ inner ++ backtick)
  = Ret (negb (String.eqb inner "") && negb (GoStr.ContainsAny inner quoteChars))
  /\
  isValidIdentifier (dquote ++ inner ++ dquote)
  = Ret (negb (String.eqb inner "") && negb (GoStr.ContainsAny inner quoteChars)).
Proof.
  assert (Hlen : (0 <? String.length inner)%nat = negb (String.eqb inner "")).
  { destruct inner; reflexivity. }
  split.
  - unfold isValidIdentifier, backtick. cbn [append].
    rewrite HasSuffix_quoted. cbn [GoStr.HasPrefix].
    rewrite Ascii.eqb_refl. cbn [andb orb].
    rewrite slice_quoted. cbn [obind]. rewrite Hlen. reflexivity.
  - unfold isValidIdentifier, dquote. cbn [append].
    rewrite (HasSuffix_quoted (ascii_of_nat 34)). cbn [GoStr.HasPrefix].
    rewrite Ascii.eqb_refl. cbn [andb]. rewrite orb_true_r.
    rewrite slice_quoted. cbn [obind]. rewrite Hlen. reflexivity.
Qed.

(** ** ORDER BY directions *)

Lemma MatchString_alt (s : string) :
  forall a b, MatchString (alt a b) s = MatchString a s || MatchString b s.
Proof.
  induction s as [|c s IH]; intros a b.
  - destruct a, b; cbn; rewrite ?orb_false_r; reflexivity.
  - destruct a; destruct b; cbn [alt];
      rewrite ?MatchString_Empty, ?orb_false_r; try reflexivity;
      cbn [MatchString deriv]; apply IH.
Qed.

Lemma MatchString_Alt (s : string) (a b : regex) :
  MatchString (Alt a b) s = MatchString a s || MatchString b s.
Proof.
  destruct s as [|c s]; [reflexivity|]. cbn [MatchString deriv]. apply MatchString_alt.
Qed.

Lemma MatchString_Lit (w s : string) :
  MatchString (Lit w) s = true -> s = w.
Proof.
  revert s. induction w as [|a w IH]; intros s H.
  - destruct s as [|c s]; [reflexivity|].
    cbn in H. rewrite MatchString_Empty in H. discriminate H.
  - destruct s as [|c s]; [discriminate H|].
    cbn [MatchString Lit deriv nullable andb] in H.
    destruct (Ascii.eqb a c) eqn:E.
    + apply Ascii.eqb_eq in E. subst c.
      assert (Hcat : cat Eps (Lit w) = Lit w).
      { destruct (Lit w); reflexivity. }
      rewrite Hcat in H. rewrite (IH _ H). reflexivity.
    + assert (Hcat : cat Empty (Lit w) = Empty) by reflexivity.
      rewrite Hcat, MatchString_Empty in H. discriminate H.
Qed.

Lemma validOrderDirection_matches (s : string) :
  MatchString validOrderDirection s = true -> s = "ASC" \/ s = "DESC".
Proof.
  unfold validOrderDirection. rewrite MatchString_Alt.
  intros H. apply orb_true_iff in H. destruct H as [H|H];
    apply MatchString_Lit in H; auto.
Qed.

(** Extra X4.  Whatever direction text a caller passes, an [OrderBy] that
    returns has either recorded an error and changed nothing else, or
    appended the column followed by exactly ASC or exactly DESC: no other
    text can reach the ORDER BY clause through the direction. *)
Theorem order_by_direction_is_asc_or_desc
  (col direction : string) (qb qb' : QueryBuilder) :
  OrderBy col direction qb = Ret qb' ->
  (exists e, qb' = set_err qb e)
  \/ qb' = set_orderBy qb (orderBy qb ++ [col ++ " ASC"])
  \/ qb' = set_orderBy qb (orderBy qb ++ [col ++ " DESC"]).
Proof.
  unfold OrderBy. intros H.
  destruct (isValidIdentifier col) as [[|]|?|]; cbn [obind negb] in H;
    try discriminate H.
  - destruct (MatchString validOrderDirection
                (GoStr.ToUpper (if String.eqb direction "" then "ASC" else direction)))
      eqn:E; cbn [negb] in H; injection H as <-.
    + right. destruct (validOrderDirection_matches _ E) as [-> | ->]; auto.
    + left. eexists; reflexivity.
  - left. injection H as <-. eexists; reflexivity.
Qed.

Lemma order_by_direction_is_asc_or_desc_witness :
  orderBy (set_orderBy (NewQueryBuilder None) ["created_at DESC"]) = ["created_at DESC"]
  /\ ((exists e, set_orderBy (NewQueryBuilder None) ["created_at DESC"]
                 = set_err (NewQueryBuilder None) e)
      \/ set_orderBy (NewQueryBuilder None) ["created_at DESC"]
         = set_orderBy (NewQueryBuilder None)
             (orderBy (NewQueryBuilder None) ++ ["created_at" ++ " ASC"])
      \/ set_orderBy (NewQueryBuilder None) ["created_at DESC"]
         = set_orderBy (NewQueryBuilder None)
             (orderBy (NewQueryBuilder None) ++ ["created_at" ++ " DESC"])).
Proof.
  split; [reflexivity|].
  apply (order_by_direction_is_asc_or_desc "created_at" "desc" (NewQueryBuilder None)).
  vm_compute. reflexivity.
Defined.

(** ** Mutators and the sticky error *)

(** Extra X5.  Whether a mutator call fails validation depends on its
    arguments only.  When it fails, the builder it returns is the receiver
    with the sticky error set and no other field changed; when it passes,
    the sticky error is what it was before the call. *)
Theorem mutator_sets_error_or_keeps_it (c : call) (qb qb' : QueryBuilder) :
  apply c qb = Ret qb' ->
  match raised c with
  | Some e => qb' = set_err qb e
  | None => err qb' = err qb
  end.
Proof.
  intros H. unfold raised.
  destruct (apply_effect c) as [Ha | e He | f Hf Herr].
  - exfalso. exact (Ha _ _ H).
  - rewrite He in H. injection H as <-. rewrite He. reflexivity.
  - rewrite Hf in H. injection H as <-. rewrite Hf, Herr. cbn. apply Herr.
Qed.

Lemma mutator_sets_error_or_keeps_it_witness :
  exists qb qb' : QueryBuilder,
    run [CTable "users"; CLimit 5] (NewQueryBuilder None) = Ret qb
    /\ apply (CJoin "posts" "users.id = posts.user_id; DROP TABLE users;--") qb = Ret qb'
    /\ qb' = set_err qb (Errorf "invalid JOIN condition: %q"
                           [AStr "users.id = posts.user_id; DROP TABLE users;--"])
    /\ table qb' = "users" /\ limitCount qb' = 5%Z /\ joins qb' = [].
Proof.
  eexists. eexists. split; [vm_compute; reflexivity|].
  match goal with |- apply ?c ?q = Ret ?q' /\ _ =>
    assert (Happ : apply c q = Ret (set_err q (Errorf "invalid JOIN condition: %q"
                     [AStr "users.id = posts.user_id; DROP TABLE users;--"])))
      by (vm_compute; reflexivity);
    assert (Hr : raised c = Some (Errorf "invalid JOIN condition: %q"
                     [AStr "users.id = posts.user_id; DROP TABLE users;--"]))
      by (vm_compute; reflexivity);
    pose proof (mutator_sets_error_or_keeps_it c q _ Happ) as Hthm
  end.
  rewrite Hr in Hthm.
  split; [exact Happ|]. split; [exact Hthm|]. repeat split.
Defined.

(** ** Soft delete *)

Lemma writeWhere_first (qb : QueryBuilder) (c : whereCondition)
                       (rest : list whereCondition) (q : string) (ps : list value) :
  whereConds qb = c :: rest ->
  exists s, fst (writeWhere qb q ps) = q ++ " WHERE " ++ condText c ++ s.
Proof.
  intros Hw. unfold writeWhere. rewrite Hw. cbn [length Nat.ltb Nat.leb].
  rewrite whereLoop_cons. cbn [Nat.ltb Nat.leb].
  destruct (whereLoop_extends False rest 1
              (((q ++ " WHERE ") ++ "") ++ condText c) (ps ++ condParams c))
    as (s & p & Hs & _); [tauto|].
  exists s. rewrite Hs. cbn [fst]. rewrite append_nil_r, !append_assoc. reflexivity.
Qed.

Lemma ToSQL_first_condition (qb : QueryBuilder) (sql : string) (ps : list value)
                            (c : whereCondition) (rest : list whereCondition) :
  ToSQL qb = (sql, ps, None) ->
  whereConds qb = c :: rest ->
  GoStr.Contains sql (" WHERE " ++ condText c) = true.
Proof.
  intros Hsql Hw.
  destruct (writeWhere_first qb c rest (writeSelectFrom qb) [] Hw) as [s Hs].
  assert (HF : False -> partsAligned qb) by tauto.
  destruct (afterWhere_extends False qb HF (writeWhere qb (writeSelectFrom qb) []))
    as (s2 & p2 & Hafter & _).
  rewrite <- assembleSelect_eq in Hafter.
  assert (Hq : exists s3, sql = writeSelectFrom qb ++ (" WHERE " ++ condText c) ++ s3).
  { destruct (ToSQL_success _ _ _ Hsql)
      as (_ & _ & [[_ Ha] | (q & usql & ups & _ & _ & -> & _)]).
    - rewrite Ha in Hafter. injection Hafter as -> _. rewrite Hs.
      exists (s ++ s2). rewrite !append_assoc. reflexivity.
    - rewrite Hafter. cbn [fst]. rewrite Hs.
      exists (s ++ s2 ++ " " ++ unionKeyword qb ++ " " ++ usql).
      rewrite !append_assoc. reflexivity. }
  destruct Hq as [s3 ->]. apply Contains_append.
Qed.

(** Extra X6.  For a model with soft delete enabled, whatever chain of
    mutators (WithTrashed and OnlyTrashed included) is applied to the builder
    [Model.Query] returns, a successful [ToSQL] yields a text whose WHERE
    clause opens with deleted_at IS NULL: the filter is the first condition
    and no mutator removes or reorders conditions. *)
Theorem soft_delete_filter_opens_the_where_clause
  (m : Model) (d : option conn) (cs : list call) (qb0 qb : QueryBuilder)
  (sql : string) (ps : list value) :
  softDelete m = true ->
  Model_Query m d = Ret qb0 ->
  run cs qb0 = Ret qb ->
  ToSQL qb = (sql, ps, None) ->
  GoStr.Contains sql " WHERE deleted_at IS NULL" = true.
Proof.
  intros Hsoft Hq Hrun Hsql.
  assert (Hstart : err qb0 <> None \/
                   whereConds qb0 = [mkCond "deleted_at" "IS NULL" (VStr "") "AND" None]).
  { unfold Model_Query in Hq. rewrite Hsoft in Hq.
    destruct (isValidIdentifier (mtable m)) as [[|]|?|] eqn:Ev;
      cbn [obind negb] in Hq; try discriminate.
    - unfold Table in Hq. rewrite Ev in Hq. cbn [obind negb] in Hq.
      right. injection Hq as <-. reflexivity.
    - left. injection Hq as <-. discriminate. }
  destruct Hstart as [He | Hw].
  - exfalso. destruct (err qb0) as [e|] eqn:E0; [|congruence].
    pose proof (run_err _ _ _ Hrun) as Herr. rewrite E0 in Herr.
    destruct (stickyAfter_some cs e) as [e' He']. rewrite He' in Herr.
    rewrite (ToSQL_sticky _ _ Herr) in Hsql. discriminate.
  - destruct (run_keeps_whereConds _ _ _ Hrun) as [extra Hx]. rewrite Hw in Hx.
    exact (ToSQL_first_condition qb sql ps _ extra Hsql Hx).
Qed.

Lemma soft_delete_filter_opens_the_where_clause_witness :
  GoStr.Contains
    "SELECT * FROM posts WHERE deleted_at IS NULL AND author_id = ? ORDER BY id DESC"
    " WHERE deleted_at IS NULL" = true.
Proof.
  assert (Hq : exists qb0, Model_Query postsModel None = Ret qb0 /\
               exists qb, run [CWithTrashed; CWhere "author_id" "=" (VInt 7);
                               COrderBy "id" "desc"] qb0 = Ret qb /\
               ToSQL qb = ("SELECT * FROM posts WHERE deleted_at IS NULL AND author_id = ? ORDER BY id DESC",
                           [VInt 7], None)).
  { eexists. split; [vm_compute; reflexivity|].
    eexists. split; [vm_compute; reflexivity|]. vm_compute. reflexivity. }
  destruct Hq as (qb0 & H0 & qb & Hrun & Hsql).
  exact (soft_delete_filter_opens_the_where_clause postsModel None _ qb0 qb _ _
           eq_refl H0 Hrun Hsql).
Defined.

(** ** Clean chains *)

Lemma fresh_builder_aligned (d : option conn) :
  placeholdersAligned (NewQueryBuilder d) = true.
Proof. reflexivity. Qed.

(** Extra X7.  A builder made from a fresh one by calls whose arguments hold
    no question mark of their own (and whose Where and OrWhere use IN or
    BETWEEN only on a value rendered without one) assembles, when it
    assembles, to a text with exactly as many question marks as there are
    parameters. *)
Theorem clean_chain_placeholders_match_parameters
  (d : option conn) (cs : list call) (qb : QueryBuilder)
  (sql : string) (ps : list value) :
  forallb callClean cs = true ->
  run cs (NewQueryBuilder d) = Ret qb ->
  ToSQL qb = (sql, ps, None) ->
  GoStr.count "?" sql = length ps.
Proof.
  intros Hclean Hrun Hsql.
  apply (ToSQL_extends qb sql ps Hsql).
  exact (run_keeps_alignment cs _ qb (fresh_builder_aligned d) Hclean Hrun).
Qed.

Lemma clean_chain_placeholders_match_parameters_witness :
  GoStr.count "?" (fst (fst (ToSQL exampleQuery)))
  = length (snd (fst (ToSQL exampleQuery))).
Proof.
  apply (clean_chain_placeholders_match_parameters None exampleChain exampleQuery).
  - vm_compute. reflexivity.
  - vm_compute. reflexivity.
  - vm_compute. reflexivity.
Defined.

(** ** The WHERE clause does not depend on what was written before it *)

Lemma whereLoop_prefix (conds : list whereCondition) (i : nat)
                       (q : string) (ps : list value) :
  whereLoop i conds q ps
  = (q ++ fst (whereLoop i conds "" []), (ps ++ snd (whereLoop i conds "" []))%list).
Proof.
  revert i q ps. induction conds as [|c rest IH]; intros i q ps.
  - cbn. rewrite append_nil_r, app_nil_r. reflexivity.
  - rewrite !whereLoop_cons.
    rewrite (IH (S i) ((q ++ _) ++ condText c) (ps ++ condParams c)%list).
    rewrite (IH (S i) (("" ++ _) ++ condText c) ([] ++ condParams c)%list).
    cbn [fst snd app append]. rewrite !append_assoc, <- !app_assoc. reflexivity.
Qed.

Lemma writeWhere_prefix (qb : QueryBuilder) (q : string) (ps : list value) :
  writeWhere qb q ps = (q ++ whereText qb, (ps ++ whereParams qb)%list).
Proof.
  unfold whereText, whereParams, writeWhere.
  destruct (0 <? length (whereConds qb))%nat.
  - rewrite (whereLoop_prefix _ 0 (q ++ " WHERE ") ps).
    rewrite (whereLoop_prefix _ 0 ("" ++ " WHERE ") []).
    cbn [fst snd app append]. rewrite !append_assoc. reflexivity.
  - cbn. rewrite append_nil_r, app_nil_r. reflexivity.
Qed.

(** ** The loops over the data of [Insert] and [Update] *)

Lemma Insert_loop_valid (data : list (string * value))
                        (columns placeholders : list string) (values : list value) :
  keysValid data ->
  Insert_loop data columns placeholders values
  = Ret (inr ((columns ++ map fst data)%list,
              (placeholders ++ map (fun _ => "?") data)%list,
              (values ++ map snd data)%list)).
Proof.
  revert columns placeholders values.
  induction data as [|[col v] data IH]; intros columns placeholders values Hv.
  - cbn. rewrite !app_nil_r. reflexivity.
  - cbn [Insert_loop].
    assert (Hcol : isValidIdentifier col = Ret true) by (apply Hv; left; reflexivity).
    rewrite Hcol. cbn [obind negb].
    rewrite IH; [|intros c Hc; apply Hv; right; exact Hc].
    cbn [map fst snd]. rewrite <- !app_assoc. reflexivity.
Qed.


Lemma Update_loop_valid (data : list (string * value))
                        (setParts : list string) (ps : list value) :
  keysValid data ->
  Update_loop data setParts ps
  = Ret (inr ((setParts ++ map (fun kv => (fst kv ++ " = ?")%string) data)%list,
              (ps ++ map snd data)%list)).
Proof.
  revert setParts ps.
  induction data as [|[col v] data IH]; intros setParts ps Hv.
  - cbn. rewrite !app_nil_r. reflexivity.
  - cbn [Update_loop].
    assert (Hcol : isValidIdentifier col = Ret true) by (apply Hv; left; reflexivity).
    rewrite Hcol. cbn [obind negb].
    rewrite IH; [|intros c Hc; apply Hv; right; exact Hc].
    cbn [map fst snd]. rewrite <- !app_assoc. reflexivity.
Qed.


Lemma table_nonempty (qb : QueryBuilder) :
  table qb <> "" -> String.eqb (table qb) "" = false.
Proof. intros H. apply String.eqb_neq, H. Qed.

Lemma count_question_marks (A : Type) (data : list A) :
  GoStr.count "?" (GoStr.Join (map (fun _ => "?") data) ", ") = length data.
Proof.
  induction data as [|v data IH]; [reflexivity|].
  destruct data as [|w data]; [reflexivity|].
  change (GoStr.Join (map (fun _ => "?") (v :: w :: data)) ", ")
    with ("?" ++ ", " ++ GoStr.Join (map (fun _ => "?") (w :: data)) ", ").
  rewrite !count_append, IH. reflexivity.
Qed.

(** Extra X8.  On a builder with no sticky error, a table and a connection,
    [Insert] with data whose keys all pass identifier validation makes
    exactly one Exec call: the statement INSERT INTO table (keys) VALUES
    (one question mark per entry), with the values bound in the order of the
    keys.  With no entry at all the two lists are empty and the statement is
    still sent. *)
Theorem insert_statement
  {W : Type} {P : Port W} (data : list (string * value))
  (qb : QueryBuilder) (h : handle) (st : state W) :
  err qb = None -> table qb <> "" -> db qb = Some h -> keysValid data ->
  Insert data qb st
  = Ret (fst (port_Exec h (insertText (table qb) data) (map snd data) (world st)),
         mkState (snd (port_Exec h (insertText (table qb) data) (map snd data) (world st)))
                 (log st ++ [EvExec h (insertText (table qb) data) (map snd data)])%list)
  /\ GoStr.count "?" (GoStr.Join (map (fun _ => "?") data) ", ") = length (map snd data).
Proof.
  intros He Ht Hdb Hv. split.
  - unfold Insert. rewrite He, (table_nonempty _ Ht).
    unfold mbind, lift. rewrite (Insert_loop_valid data [] [] [] Hv). rewrite !app_nil_l.
    rewrite Hdb. unfold dbExec, through, insertText.
    destruct (port_Exec h _ (map snd data) (world st)); reflexivity.
  - rewrite length_map. apply count_question_marks.
Qed.

Lemma userRow_valid : keysValid userRow.
Proof.
  intros col [<- | [<- | []]]; vm_compute; reflexivity.
Defined.

Lemma insert_statement_witness :
  Insert userRow (set_table (NewQueryBuilder (Some 0%nat)) "users") (mkState quietScript [])
  = Ret (inl (mkResult 1 1),
         mkState quietScript
           [EvExec (OfPool 0%nat) "INSERT INTO users (name, age) VALUES (?, ?)"
                   [VStr "Ada"; VInt 36]]).
Proof.
  assert (Ht : table (set_table (NewQueryBuilder (Some 0%nat)) "users") <> "")
    by discriminate.
  exact (proj1 (insert_statement userRow
                  (set_table (NewQueryBuilder (Some 0%nat)) "users") (OfPool 0%nat)
                  (mkState quietScript []) eq_refl Ht eq_refl userRow_valid)).
Defined.




Lemma Update_sends
  {W : Type} {P : Port W} (data : list (string * value))
  (qb : QueryBuilder) (h : handle) (st : state W) :
  err qb = None -> table qb <> "" -> db qb = Some h -> keysValid data ->
  Update data qb st
  = Ret (fst (port_Exec h (updateText qb data) (map snd data ++ whereParams qb)%list
                        (world st)),
         mkState (snd (port_Exec h (updateText qb data) (map snd data ++ whereParams qb)%list
                                 (world st)))
                 (log st ++ [EvExec h (updateText qb data)
                                    (map snd data ++ whereParams qb)%list])%list).
Proof.
  intros He Ht Hdb Hv.
  unfold Update. rewrite He, (table_nonempty _ Ht).
  unfold mbind, lift. rewrite (Update_loop_valid data [] [] Hv). rewrite !app_nil_l.
  rewrite writeWhere_prefix. rewrite Hdb. unfold dbExec, through, updateText.
  rewrite !append_assoc.
  destruct (port_Exec h _ (map snd data ++ whereParams qb)%list (world st)); reflexivity.
Qed.

Lemma Delete_sends
  {W : Type} {P : Port W} (qb : QueryBuilder) (h : handle) (st : state W) :
  err qb = None -> table qb <> "" -> db qb = Some h ->
  Delete qb st
  = Ret (fst (port_Exec h (deleteText qb) (whereParams qb) (world st)),
         mkState (snd (port_Exec h (deleteText qb) (whereParams qb) (world st)))
                 (log st ++ [EvExec h (deleteText qb) (whereParams qb)])%list).
Proof.
  intros He Ht Hdb.
  unfold Delete. rewrite He, (table_nonempty _ Ht).
  rewrite writeWhere_prefix. rewrite app_nil_l, Hdb. unfold dbExec, through, deleteText.
  rewrite !append_assoc.
  destruct (port_Exec h _ (whereParams qb) (world st)); reflexivity.
Qed.

Lemma whereText_without_conditions (qb : QueryBuilder) :
  whereConds qb = [] -> whereText qb = "".
Proof. intros Hw. unfold whereText, writeWhere. rewrite Hw. reflexivity. Qed.

(** Extra X10.  On a builder with no sticky error, a table and a connection,
    [Update] with valid keys makes exactly one Exec call: UPDATE table SET
    key = ? for each entry, followed by the builder's WHERE clause, with the
    values of the data bound first and the parameters of the WHERE clause
    after them.  Joins, grouping, ordering, limit, offset and union of the
    builder play no part, and a builder without conditions updates every
    row: the statement has no WHERE clause. *)
Theorem update_statement
  {W : Type} {P : Port W} (data : list (string * value))
  (qb : QueryBuilder) (h : handle) (st : state W) :
  err qb = None -> table qb <> "" -> db qb = Some h -> keysValid data ->
  Update data qb st
  = Ret (fst (port_Exec h (updateText qb data) (map snd data ++ whereParams qb)%list
                        (world st)),
         mkState (snd (port_Exec h (updateText qb data) (map snd data ++ whereParams qb)%list
                                 (world st)))
                 (log st ++ [EvExec h (updateText qb data)
                                    (map snd data ++ whereParams qb)%list])%list)
  /\ (whereConds qb = [] ->
      updateText qb data
      = "UPDATE " ++ table qb ++ " SET "
        ++ GoStr.Join (map (fun kv => fst kv ++ " = ?") data) ", ").
Proof.
  intros He Ht Hdb Hv. split; [exact (Update_sends data qb h st He Ht Hdb Hv)|].
  intros Hw. unfold updateText. rewrite (whereText_without_conditions _ Hw).
  rewrite append_nil_r. reflexivity.
Qed.

Lemma update_statement_witness :
  Update userRow usersById (mkState quietScript [])
  = Ret (inl (mkResult 1 1),
         mkState quietScript
           [EvExec (OfPool 0%nat) "UPDATE users SET name = ?, age = ? WHERE id = ?"
                   [VStr "Ada"; VInt 36; VInt 1]]).
Proof.
  assert (Ht : table usersById <> "") by discriminate.
  exact (proj1 (update_statement userRow usersById (OfPool 0%nat)
                  (mkState quietScript []) eq_refl Ht eq_refl userRow_valid)).
Defined.

(** Extra X11.  On a builder with no sticky error, a table and a connection,
    [Delete] (and [ForceDelete], which is the same call) makes exactly one
    Exec call: DELETE FROM table followed by the builder's WHERE clause and
    its parameters.  Limit, offset, ordering, joins, grouping and union are
    not part of the statement, and a builder without conditions deletes
    without a WHERE clause. *)
Theorem delete_statement
  {W : Type} {P : Port W} (qb : QueryBuilder) (h : handle) (st : state W) :
  err qb = None -> table qb <> "" -> db qb = Some h ->
  Delete qb st
  = Ret (fst (port_Exec h (deleteText qb) (whereParams qb) (world st)),
         mkState (snd (port_Exec h (deleteText qb) (whereParams qb) (world st)))
                 (log st ++ [EvExec h (deleteText qb) (whereParams qb)])%list)
  /\ ForceDelete qb st = Delete qb st
  /\ (whereConds qb = [] -> deleteText qb = "DELETE FROM " ++ table qb).
Proof.
  intros He Ht Hdb. split; [|split].
  - exact (Delete_sends qb h st He Ht Hdb).
  - reflexivity.
  - intros Hw. unfold deleteText. rewrite (whereText_without_conditions _ Hw).
    rewrite append_nil_r. reflexivity.
Qed.

Lemma delete_statement_witness :
  Delete usersById (mkState quietScript [])
  = Ret (inl (mkResult 1 1),
         mkState quietScript
           [EvExec (OfPool 0%nat) "DELETE FROM users WHERE id = ?" [VInt 1]]).
Proof.
  assert (Ht : table usersById <> "") by discriminate.
  exact (proj1 (delete_statement usersById (OfPool 0%nat) (mkState quietScript [])
                  eq_refl Ht eq_refl)).
Defined.

(** Extra X12.  [SoftDelete] sends UPDATE table SET deleted_at = ? followed
    by the WHERE clause, and binds the string NOW() as the first parameter:
    the time function is passed as a text value, not written into the
    statement.  [Restore] sends the same statement with nil bound. *)
Theorem soft_delete_binds_now_as_text
  {W : Type} {P : Port W} (qb : QueryBuilder) (h : handle) (st : state W) :
  err qb = None -> table qb <> "" -> db qb = Some h ->
  let text := "UPDATE " ++ table qb ++ " SET deleted_at = ?" ++ whereText qb in
  SoftDelete qb st
  = Ret (fst (port_Exec h text (VStr "NOW()" :: whereParams qb) (world st)),
         mkState (snd (port_Exec h text (VStr "NOW()" :: whereParams qb) (world st)))
                 (log st ++ [EvExec h text (VStr "NOW()" :: whereParams qb)])%list)
  /\ Restore qb st
  = Ret (fst (port_Exec h text (VNil :: whereParams qb) (world st)),
         mkState (snd (port_Exec h text (VNil :: whereParams qb) (world st)))
                 (log st ++ [EvExec h text (VNil :: whereParams qb)])%list).
Proof.
  intros He Ht Hdb text.
  assert (Hk : forall v, keysValid [("deleted_at", v)]).
  { intros v col [<- | []]. vm_compute. reflexivity. }
  split.
  - unfold SoftDelete.
    rewrite (Update_sends _ qb h st He Ht Hdb (Hk (VStr "NOW()"))). reflexivity.
  - unfold Restore.
    rewrite (Update_sends _ qb h st He Ht Hdb (Hk VNil)). reflexivity.
Qed.

Lemma soft_delete_binds_now_as_text_witness :
  SoftDelete usersById (mkState quietScript [])
  = Ret (inl (mkResult 1 1),
         mkState quietScript
           [EvExec (OfPool 0%nat) "UPDATE users SET deleted_at = ? WHERE id = ?"
                   [VStr "NOW()"; VInt 1]]).
Proof.
  assert (Ht : table usersById <> "") by discriminate.
  exact (proj1 (soft_delete_binds_now_as_text usersById (OfPool 0%nat)
                  (mkState quietScript []) eq_refl Ht eq_refl)).
Defined.

(** ** Relations *)

Lemma ToSQL_table_and_condition (d : option handle) (raw : option conn)
                                (t col : string) (v : value) :
  t <> "" ->
  ToSQL (set_whereConds (set_table (newQueryBuilderWithDB d raw) t)
                        [mkCond col "=" v "AND" None])
  = ("SELECT * FROM " ++ t ++ " WHERE " ++ col ++ " = ?", [v], None).
Proof.
  intros Ht. rewrite ToSQL_eq. cbn [err set_whereConds set_table newQueryBuilderWithDB].
  replace (String.eqb (table _) "") with false
    by (symmetry; apply String.eqb_neq; exact Ht).
  unfold assembleSelect, writeSelectFrom, writeWhere, writeGroupBy, writeHaving,
         writeOrderBy, writeLimit, writeOffset.
  simpl. rewrite !append_assoc. reflexivity.
Qed.

Lemma valid_identifier_not_empty (t : string) :
  isValidIdentifier t = Ret true -> t <> "".
Proof. intros H ->. discriminate H. Qed.

(** Extra X13.  [HasMany] and [BelongsTo] build on a fresh builder: table,
    conditions, limit and sticky error of the receiver are not inherited.
    For a valid related table, [BelongsTo] assembles to SELECT * FROM table
    WHERE id = ? with the given value, whatever is passed as foreign key
    (the argument is not used, not even validated); [HasMany], for a valid
    foreign key, assembles to SELECT * FROM table WHERE key = ?. *)
Theorem relations_start_from_a_fresh_builder
  (relatedTable foreignKey : string) (v : value) (qb : QueryBuilder) :
  isValidIdentifier relatedTable = Ret true ->
  (exists q,
     BelongsTo relatedTable foreignKey v qb = Ret q /\
     db q = db qb /\ rawDB q = rawDB qb /\
     ToSQL q = ("SELECT * FROM " ++ relatedTable ++ " WHERE id = ?", [v], None))
  /\
  (isValidIdentifier foreignKey = Ret true ->
   exists q,
     HasMany relatedTable foreignKey v qb = Ret q /\
     db q = db qb /\ rawDB q = rawDB qb /\
     ToSQL q = ("SELECT * FROM " ++ relatedTable ++ " WHERE " ++ foreignKey ++ " = ?",
                [v], None)).
Proof.
  intros Ht. pose proof (valid_identifier_not_empty _ Ht) as Hne. split.
  - eexists. split; [|split; [|split]].
    + unfold BelongsTo, Table. rewrite Ht. cbn [obind negb].
      unfold Where.
      replace (isValidIdentifier "id") with (Ret true) by (vm_compute; reflexivity).
      cbn [obind negb].
      replace (isValidOperator "=") with true by (vm_compute; reflexivity).
      cbn [negb]. reflexivity.
    + reflexivity.
    + reflexivity.
    + exact (ToSQL_table_and_condition (db qb) (rawDB qb) relatedTable "id" v Hne).
  - intros Hk. eexists. split; [|split; [|split]].
    + unfold HasMany, Table. rewrite Ht. cbn [obind negb].
      unfold Where. rewrite Hk. cbn [obind negb].
      replace (isValidOperator "=") with true by (vm_compute; reflexivity).
      cbn [negb]. reflexivity.
    + reflexivity.
    + reflexivity.
    + exact (ToSQL_table_and_condition (db qb) (rawDB qb) relatedTable foreignKey v Hne).
Qed.

Lemma relations_start_from_a_fresh_builder_witness :
  exists q,
    BelongsTo "users" "user_id; DROP TABLE users;--" (VInt 5)
              (set_err (NewQueryBuilder None) (Errorf "earlier failure" [])) = Ret q
    /\ ToSQL q = ("SELECT * FROM users WHERE id = ?", [VInt 5], None).
Proof.
  assert (Ht : isValidIdentifier "users" = Ret true) by (vm_compute; reflexivity).
  destruct (proj1 (relations_start_from_a_fresh_builder
                     "users" "user_id; DROP TABLE users;--" (VInt 5)
                     (set_err (NewQueryBuilder None) (Errorf "earlier failure" [])) Ht))
    as (q & Hq & _ & _ & Hsql).
  exists q. split; [exact Hq | exact Hsql].
Defined.

(** ** Scopes *)

(** Extra X14.  [Scope] feeds the builder through the given scopes from left
    to right, stopping at a scope that does not return: applying the scopes
    of a list followed by those of a second list is applying the first list
    and then the second to its result. *)
Theorem scope_composes_left_to_right (s1 s2 : list scope) (qb : QueryBuilder) :
  Scope (s1 ++ s2) qb = (qb' <- Scope s1 qb ;; Scope s2 qb')%outcome.
Proof.
  revert qb. induction s1 as [|s s1 IH]; intros qb; cbn [Scope].
  - reflexivity.
  - rewrite <- app_comm_cons. cbn [Scope].
    destruct (s qb) as [q| |]; cbn [obind]; [apply IH | reflexivity | reflexivity].
Qed.

(** Extra X15.  The predefined scopes pass validation on every builder:
    they never panic and never touch the sticky error.  [Published] appends
    the two conditions published = true and published_at IS NOT NULL, in
    that order; [Draft] appends published = false; [Active] appends
    active = true; [Recent] and [Oldest] append created_at DESC and
    created_at ASC to the ordering. *)
Theorem predefined_scopes_always_pass (qb : QueryBuilder) :
  Published qb
  = Ret (set_whereConds qb
           (whereConds qb ++ [mkCond "published" "=" (VBool true) "AND" None;
                              mkCond "published_at" "IS NOT NULL" (VStr "") "AND" None]))
  /\ Draft qb
  = Ret (set_whereConds qb
           (whereConds qb ++ [mkCond "published" "=" (VBool false) "AND" None]))
  /\ Active qb
  = Ret (set_whereConds qb
           (whereConds qb ++ [mkCond "active" "=" (VBool true) "AND" None]))
  /\ Recent qb = Ret (set_orderBy qb (orderBy qb ++ ["created_at DESC"]))
  /\ Oldest qb = Ret (set_orderBy qb (orderBy qb ++ ["created_at ASC"])).
Proof.
  assert (H1 : isValidIdentifier "published" = Ret true) by (vm_compute; reflexivity).
  assert (H2 : isValidIdentifier "published_at" = Ret true) by (vm_compute; reflexivity).
  assert (H3 : isValidIdentifier "active" = Ret true) by (vm_compute; reflexivity).
  assert (H4 : isValidIdentifier "created_at" = Ret true) by (vm_compute; reflexivity).
  assert (H5 : isValidOperator "=" = true) by (vm_compute; reflexivity).
  assert (H6 : MatchString validOrderDirection (GoStr.ToUpper "DESC") = true)
    by (vm_compute; reflexivity).
  assert (H7 : MatchString validOrderDirection (GoStr.ToUpper "ASC") = true)
    by (vm_compute; reflexivity).
  split; [|split; [|split; [|split]]].
  - unfold Published, Where, WhereNotNull. rewrite H1, H5. cbn [obind negb].
    rewrite H2. cbn [obind negb]. destruct qb. cbn. rewrite <- app_assoc. reflexivity.
  - unfold Draft, Where. rewrite H1, H5. reflexivity.
  - unfold Active, Where. rewrite H3, H5. reflexivity.
  - unfold Recent, OrderBy. rewrite H4. cbn [obind negb String.eqb Ascii.eqb].
    change (if String.eqb "DESC" "" then "ASC" else "DESC") with "DESC".
    rewrite H6. reflexivity.
  - unfold Oldest, OrderBy. rewrite H4. cbn [obind negb].
    change (if String.eqb "ASC" "" then "ASC" else "ASC") with "ASC".
    rewrite H7. reflexivity.
Qed.

(** ** [First] *)

(** Extra X16.  [First] drops the error of assembly: on a builder with a
    sticky error and a connection it still calls QueryRow, with the empty
    text and no parameters, and it leaves the limit of the builder at 1. *)
Theorem first_queries_even_when_assembly_fails
  {W : Type} {R : RowPort W} (qb : QueryBuilder) (e : error) (h : handle) (st : state W) :
  err qb = Some e -> db qb = Some h ->
  First qb st
  = Ret ((Limit 1 qb, fst (port_QueryRow h "" [] (world st))),
         mkState (snd (port_QueryRow h "" [] (world st)))
                 (log st ++ [EvQueryRow h "" []])).
Proof.
  intros He Hdb. unfold First.
  assert (He' : err (Limit 1 qb) = Some e) by (destruct qb; exact He).
  assert (Hdb' : db (Limit 1 qb) = Some h) by (destruct qb; exact Hdb).
  rewrite (ToSQL_sticky _ _ He'). unfold mbind, dbQueryRow. rewrite Hdb'.
  destruct (port_QueryRow h "" [] (world st)); reflexivity.
Qed.

Lemma first_queries_even_when_assembly_fails_witness :
  exists qb,
    Table "users; DROP TABLE users;--" (NewQueryBuilder (Some 0%nat)) = Ret qb
    /\ First qb (mkState quietScript [])
       = Ret ((Limit 1 qb, inl [VInt 1]),
              mkState quietScript [EvQueryRow (OfPool 0%nat) "" []]).
Proof.
  eexists. split; [vm_compute; reflexivity|].
  match goal with |- First ?q _ = _ =>
    exact (first_queries_even_when_assembly_fails q
             (Errorf "invalid table name: %q" [AStr "users; DROP TABLE users;--"])
             (OfPool 0%nat) (mkState quietScript []) eq_refl eq_refl)
  end.
Defined.

(** ** The shortcuts of the model *)

Lemma whereText_single (d : option conn) (t col : string) (v : value) :
  whereText (set_whereConds (set_table (NewQueryBuilder d) t)
                            [mkCond col "=" v "AND" None])
  = " WHERE " ++ col ++ " = ?"
  /\ whereParams (set_whereConds (set_table (NewQueryBuilder d) t)
                                 [mkCond col "=" v "AND" None]) = [v].
Proof. split; reflexivity. Qed.

(** Extra X17.  [Model.Delete] and [Model.Update] do not look at the
    soft-delete flag: for a valid table and primary key, [Model.Delete]
    sends DELETE FROM table WHERE key = ? with the id, a hard delete also
    for a soft-delete model, and [Model.Update] with valid data sends
    UPDATE table SET ... WHERE key = ? with no deleted_at condition. *)
Theorem model_delete_and_update_ignore_soft_delete
  {W : Type} {P : Port W} (m : Model) (c : conn) (id : value)
  (data : list (string * value)) (st : state W) :
  isValidIdentifier (mtable m) = Ret true ->
  isValidIdentifier (primaryKey m) = Ret true ->
  let del := "DELETE FROM " ++ mtable m ++ " WHERE " ++ primaryKey m ++ " = ?" in
  let upd := "UPDATE " ++ mtable m ++ " SET " ++
             GoStr.Join (map (fun kv => fst kv ++ " = ?") data) ", " ++
             " WHERE " ++ primaryKey m ++ " = ?" in
  Model_Delete m (Some c) id st
  = Ret (fst (port_Exec (OfPool c) del [id] (world st)),
         mkState (snd (port_Exec (OfPool c) del [id] (world st)))
                 (log st ++ [EvExec (OfPool c) del [id]]))
  /\ (keysValid data ->
      Model_Update m (Some c) id data st
      = Ret (fst (port_Exec (OfPool c) upd (map snd data ++ [id]) (world st)),
             mkState (snd (port_Exec (OfPool c) upd (map snd data ++ [id]) (world st)))
                     (log st ++ [EvExec (OfPool c) upd (map snd data ++ [id])]))).
Proof.
  intros Ht Hk del upd.
  pose proof (valid_identifier_not_empty _ Ht) as Hne.
  assert (Hop : isValidOperator "=" = true) by (vm_compute; reflexivity).
  assert (Hbuild :
    (qb <- Table (mtable m) (NewQueryBuilder (Some c)) ;;
     Where (primaryKey m) "=" id qb)%outcome
    = Ret (set_whereConds (set_table (NewQueryBuilder (Some c)) (mtable m))
                          [mkCond (primaryKey m) "=" id "AND" None])).
  { unfold Table. rewrite Ht. cbn [obind negb]. unfold Where. rewrite Hk.
    cbn [obind negb]. rewrite Hop. reflexivity. }
  set (qb0 := set_whereConds (set_table (NewQueryBuilder (Some c)) (mtable m))
                             [mkCond (primaryKey m) "=" id "AND" None]) in *.
  assert (Hne0 : table qb0 <> "") by exact Hne.
  split.
  - unfold Model_Delete. rewrite Hbuild. unfold mbind at 1. unfold lift.
    rewrite (Delete_sends qb0 (OfPool c) st eq_refl Hne0 eq_refl).
    unfold deleteText. subst qb0.
    rewrite (proj1 (whereText_single _ _ _ _)), (proj2 (whereText_single _ _ _ _)).
    reflexivity.
  - intros Hv. unfold Model_Update. rewrite Hbuild. unfold mbind at 1. unfold lift.
    rewrite (Update_sends data qb0 (OfPool c) st eq_refl Hne0 eq_refl Hv).
    unfold updateText. subst qb0.
    rewrite (proj1 (whereText_single _ _ _ _)), (proj2 (whereText_single _ _ _ _)).
    reflexivity.
Qed.

Lemma model_delete_and_update_ignore_soft_delete_witness :
  Model_Delete postsModel (Some 0%nat) (VInt 9) (mkState quietScript [])
  = Ret (inl (mkResult 1 1),
         mkState quietScript
           [EvExec (OfPool 0%nat) "DELETE FROM posts WHERE id = ?" [VInt 9]]).
Proof.
  assert (Ht : isValidIdentifier (mtable postsModel) = Ret true)
    by (vm_compute; reflexivity).
  assert (Hk : isValidIdentifier (primaryKey postsModel) = Ret true)
    by (vm_compute; reflexivity).
  exact (proj1 (model_delete_and_update_ignore_soft_delete postsModel 0%nat (VInt 9) []
                  (mkState quietScript []) Ht Hk)).
Defined.

(** ** Terminal calls without a table *)

Lemma ToSQL_without_table (qb : QueryBuilder) :
  err qb = None -> table qb = "" -> ToSQL qb = ("", [], Some tableRequired).
Proof. intros He Ht. rewrite ToSQL_eq, He, Ht. reflexivity. Qed.

(** Extra X18.  On a builder with no sticky error and no table, every
    terminal call fails with the error "table name is required" and sends
    nothing to the port: [ToSQL], [Get], [Count], [Insert], [Update] and
    [Delete] alike, whatever else the builder holds. *)
Theorem terminal_calls_require_a_table
  {W : Type} {P : Port W} (qb : QueryBuilder) (data : list (string * value))
  (st : state W) :
  err qb = None -> table qb = "" ->
  ToSQL qb = ("", [], Some tableRequired)
  /\ Get qb st = Ret (inr tableRequired, st)
  /\ Count qb st = Ret (set_selectCols qb ["COUNT(*)"], (0%Z, Some tableRequired), st)
  /\ Insert data qb st = Ret (inr tableRequired, st)
  /\ Update data qb st = Ret (inr tableRequired, st)
  /\ Delete qb st = Ret (inr tableRequired, st).
Proof.
  intros He Ht. pose proof (ToSQL_without_table qb He Ht) as Hsql.
  split; [exact Hsql|]. split; [|split; [|split; [|split]]].
  - unfold Get. rewrite Hsql. reflexivity.
  - apply Count_keeps_count_star_on_error with (query := "") (ps := []).
    apply ToSQL_without_table; destruct qb; assumption.
  - unfold Insert. rewrite He, Ht. reflexivity.
  - unfold Update. rewrite He, Ht. reflexivity.
  - unfold Delete. rewrite He, Ht. reflexivity.
Qed.

Lemma terminal_calls_require_a_table_witness :
  exists qb,
    run [CWhere "id" "=" (VInt 1); CLimit 3] (NewQueryBuilder (Some 0%nat)) = Ret qb
    /\ Delete qb (mkState quietScript [])
       = Ret (inr tableRequired, mkState quietScript []).
Proof.
  eexists. split; [vm_compute; reflexivity|].
  match goal with |- Delete ?q ?s = _ =>
    exact (proj2 (proj2 (proj2 (proj2 (proj2
             (terminal_calls_require_a_table q [] s eq_refl eq_refl))))))
  end.
Defined.

(** ** The chunk iterators *)

Lemma Chunk_loop_page {W : Type} {P : Port W} (fuel : nat) (size : Z)
                      (fn : list row -> W -> bool * W) (qb qb2 : QueryBuilder) :
  (forall offset, chunkPage qb size offset = chunkPage qb2 size offset) ->
  forall offset st, Chunk_loop fuel size fn qb offset st
                    = Chunk_loop fuel size fn qb2 offset st.
Proof.
  intros Hpage. induction fuel as [|fuel IH]; intros offset st; [reflexivity|].
  cbn [Chunk_loop].
  change (mkQB (db qb) (rawDB qb) (table qb) (selectCols qb) (whereConds qb)
               (orderBy qb) (groupBy qb) (having qb) (joins qb)
               size offset None false None (includeTrashed qb))
    with (chunkPage qb size offset).
  change (mkQB (db qb2) (rawDB qb2) (table qb2) (selectCols qb2) (whereConds qb2)
               (orderBy qb2) (groupBy qb2) (having qb2) (joins qb2)
               size offset None false None (includeTrashed qb2))
    with (chunkPage qb2 size offset).
  rewrite Hpage. unfold mbind.
  destruct (Get (chunkPage qb2 size offset) st) as [[[rows|e] st1]| |]; try reflexivity.
  destruct (hasNext rows); [|reflexivity].
  destruct (Get (chunkPage qb2 size offset) st1) as [[[rows'|e] st2]| |]; try reflexivity.
  destruct (callback fn rows' st2) as [[go st3]| |]; try reflexivity.
  destruct (negb go); [reflexivity|]. apply IH.
Qed.

Lemma ChunkByID_loop_page {W : Type} {P : Port W} (fuel : nat) (size : Z) (col : string)
                          (fn : list row -> W -> bool * W) (qb qb2 : QueryBuilder)
                          (lastID : value) :
  chunkByIDPage qb size col lastID = chunkByIDPage qb2 size col lastID ->
  forall st, ChunkByID_loop fuel size col fn qb lastID st
             = ChunkByID_loop fuel size col fn qb2 lastID st.
Proof.
  intros Hpage. induction fuel as [|fuel IH]; intros st; [reflexivity|].
  cbn [ChunkByID_loop].
  change (mkQB (db qb) (rawDB qb) (table qb) (selectCols qb)
               (whereConds qb ++ [mkCond col ">" lastID "AND" None])
               [col ++ " ASC"] (groupBy qb) (having qb) (joins qb)
               size 0%Z None false None (includeTrashed qb))
    with (chunkByIDPage qb size col lastID).
  change (mkQB (db qb2) (rawDB qb2) (table qb2) (selectCols qb2)
               (whereConds qb2 ++ [mkCond col ">" lastID "AND" None])
               [col ++ " ASC"] (groupBy qb2) (having qb2) (joins qb2)
               size 0%Z None false None (includeTrashed qb2))
    with (chunkByIDPage qb2 size col lastID).
  rewrite Hpage. unfold mbind.
  destruct (Get (chunkByIDPage qb2 size col lastID) st) as [[[rows|e] st1]| |];
    try reflexivity.
  destruct (hasNext rows); [|reflexivity].
  destruct (Get (chunkByIDPage qb2 size col lastID) st1) as [[[rows'|e] st2]| |];
    try reflexivity.
  destruct (callback fn rows' st2) as [[go st3]| |]; try reflexivity.
  destruct (negb go); [reflexivity|]. apply IH.
Qed.

(** Extra X19.  [Chunk] and [ChunkByID] copy the clauses of the receiver
    into the builder of each page but neither its sticky error nor its
    union: a builder on which a mutator failed validation, or which has a
    union child, is iterated exactly as the builder without the error and
    without the union. *)
Theorem chunk_ignores_sticky_error_and_union
  {W : Type} {P : Port W} (fuel : nat) (size : Z) (col : string)
  (fn : list row -> W -> bool * W) (qb q : QueryBuilder) (e : error) (all : bool)
  (st : state W) :
  Chunk fuel size fn (set_err qb e) st = Chunk fuel size fn qb st
  /\ Chunk fuel size fn (set_union qb q all) st = Chunk fuel size fn qb st
  /\ ChunkByID fuel size col fn (set_err qb e) st = ChunkByID fuel size col fn qb st
  /\ ChunkByID fuel size col fn (set_union qb q all) st = ChunkByID fuel size col fn qb st.
Proof.
  split; [|split; [|split]].
  - unfold Chunk. destruct (size <=? 0)%Z; [reflexivity|].
    apply Chunk_loop_page. intros offset. destruct qb; reflexivity.
  - unfold Chunk. destruct (size <=? 0)%Z; [reflexivity|].
    apply Chunk_loop_page. intros offset. destruct qb; reflexivity.
  - unfold ChunkByID. destruct (size <=? 0)%Z; [reflexivity|].
    unfold mbind, lift. destruct (isValidIdentifier col) as [[|]|?|]; try reflexivity.
    cbn [negb]. apply ChunkByID_loop_page. destruct qb; reflexivity.
  - unfold ChunkByID. destruct (size <=? 0)%Z; [reflexivity|].
    unfold mbind, lift. destruct (isValidIdentifier col) as [[|]|?|]; try reflexivity.
    cbn [negb]. apply ChunkByID_loop_page. destruct qb; reflexivity.
Qed.

(** Extra X20.  The first page of [Chunk] is the receiver's query with
    LIMIT size and offset 0.  When that query yields no row, [Chunk] returns
    nil after this one query and never runs the callback.  When it yields
    rows, the same query is sent a second time, the callback gets the rows
    of the second answer, and if the callback returns false [Chunk] returns
    nil there: two queries, one callback. *)
Theorem chunk_first_page
  {W : Type} {P : Port W} (fuel : nat) (size : Z)
  (fn : list row -> W -> bool * W) (qb : QueryBuilder) (h : handle)
  (sql : string) (ps : list value) (st : state W) :
  (0 < size)%Z -> db qb = Some h ->
  ToSQL (chunkPage qb size 0) = (sql, ps, None) ->
  (forall w1,
     port_Query h sql ps (world st) = (inl [], w1) ->
     Chunk (S fuel) size fn qb st
     = Ret (None, mkState w1 (log st ++ [EvQuery h sql ps])))
  /\
  (forall r rows w1 rows' w2 w3,
     port_Query h sql ps (world st) = (inl (r :: rows), w1) ->
     port_Query h sql ps w1 = (inl rows', w2) ->
     fn rows' w2 = (false, w3) ->
     Chunk (S fuel) size fn qb st
     = Ret (None, mkState w3 (log st ++ [EvQuery h sql ps; EvQuery h sql ps;
                                         EvCallback rows']))).
Proof.
  intros Hsize Hdb Hsql.
  assert (Hget : forall s, Get (chunkPage qb size 0) s
                           = through (EvQuery h sql ps) (port_Query h sql ps) s).
  { intros s. unfold Get. rewrite Hsql. cbn [db chunkPage]. rewrite Hdb. reflexivity. }
  assert (Hstart : Chunk (S fuel) size fn qb st
                   = Chunk_loop (S fuel) size fn qb 0 st).
  { unfold Chunk. replace (size <=? 0)%Z with false by (symmetry; apply Z.leb_gt; lia).
    reflexivity. }
  split.
  - intros w1 Hq. rewrite Hstart. cbn [Chunk_loop].
    change (mkQB (db qb) (rawDB qb) (table qb) (selectCols qb) (whereConds qb)
                 (orderBy qb) (groupBy qb) (having qb) (joins qb)
                 size 0%Z None false None (includeTrashed qb))
      with (chunkPage qb size 0).
    unfold mbind at 1. rewrite Hget. unfold through. rewrite Hq. reflexivity.
  - intros r rows w1 rows' w2 w3 Hq1 Hq2 Hfn. rewrite Hstart. cbn [Chunk_loop].
    change (mkQB (db qb) (rawDB qb) (table qb) (selectCols qb) (whereConds qb)
                 (orderBy qb) (groupBy qb) (having qb) (joins qb)
                 size 0%Z None false None (includeTrashed qb))
      with (chunkPage qb size 0).
    unfold mbind at 1. rewrite Hget. unfold through at 1. rewrite Hq1.
    cbn [hasNext]. unfold mbind at 1. rewrite Hget. unfold through at 1.
    cbn [world log]. rewrite Hq2.
    unfold mbind at 1. unfold callback, through. cbn [world log]. rewrite Hfn.
    cbn [negb]. unfold mret. rewrite <- !app_assoc. reflexivity.
Qed.

Lemma chunk_first_page_witness :
  Chunk 3 100 keepGoing (set_table (NewQueryBuilder (Some 0%nat)) "users")
        (mkState emptyScript [])
  = Ret (None, mkState emptyScript
                 [EvQuery (OfPool 0%nat) "SELECT * FROM users LIMIT 100" []]).
Proof.
  assert (Hs : (0 < 100)%Z) by lia.
  exact (proj1 (chunk_first_page 2 100 keepGoing
                  (set_table (NewQueryBuilder (Some 0%nat)) "users") (OfPool 0%nat)
                  "SELECT * FROM users LIMIT 100" [] (mkState emptyScript [])
                  Hs eq_refl eq_refl)
               emptyScript eq_refl).
Defined.

(** Extra X21.  [ChunkByID] never moves its cursor: every page is the same
    query, column > 0 ordered by the column.  So when that query answers
    with at least one row and leaves the database as it was, and the
    callback returns true and leaves it as it was, the loop does not end:
    whatever number of pages is allowed, it is still running when they are
    spent. *)
Theorem chunk_by_id_repeats_the_first_page
  {W : Type} {P : Port W} (size : Z) (col : string)
  (fn : list row -> W -> bool * W) (qb : QueryBuilder) (h : handle)
  (sql : string) (ps : list value) (r : row) (rows : list row) (w : W) :
  (0 < size)%Z -> isValidIdentifier col = Ret true -> db qb = Some h ->
  ToSQL (chunkByIDPage qb size col (VInt 0)) = (sql, ps, None) ->
  port_Query h sql ps w = (inl (r :: rows), w) ->
  fn (r :: rows) w = (true, w) ->
  forall (fuel : nat) (l : list event),
    ChunkByID fuel size col fn qb (mkState w l) = Diverge.
Proof.
  intros Hsize Hcol Hdb Hsql Hq Hfn fuel l.
  unfold ChunkByID. replace (size <=? 0)%Z with false by (symmetry; apply Z.leb_gt; lia).
  unfold mbind at 1. unfold lift. rewrite Hcol. cbn [negb].
  assert (Hget : forall l0, Get (chunkByIDPage qb size col (VInt 0)) (mkState w l0)
                           = Ret (inl (r :: rows),
                                  mkState w (l0 ++ [EvQuery h sql ps]))).
  { intros l0. unfold Get. rewrite Hsql. cbn [db chunkByIDPage]. rewrite Hdb.
    unfold dbQuery, through. cbn [world log]. rewrite Hq. reflexivity. }
  revert l. induction fuel as [|fuel IH]; intros l; [reflexivity|].
  cbn [ChunkByID_loop].
  change (mkQB (db qb) (rawDB qb) (table qb) (selectCols qb)
               (whereConds qb ++ [mkCond col ">" (VInt 0) "AND" None])
               [col ++ " ASC"] (groupBy qb) (having qb) (joins qb)
               size 0%Z None false None (includeTrashed qb))
    with (chunkByIDPage qb size col (VInt 0)).
  unfold mbind at 1. rewrite Hget. cbn [hasNext].
  unfold mbind at 1. rewrite Hget.
  unfold mbind at 1. unfold callback, through. cbn [world log]. rewrite Hfn.
  cbn [negb]. apply IH.
Qed.

Lemma chunk_by_id_repeats_the_first_page_witness :
  ChunkByID 50 100 "id" keepGoing (set_table (NewQueryBuilder (Some 0%nat)) "users")
            (mkState quietScript [])
  = Diverge.
Proof.
  assert (Hs : (0 < 100)%Z) by lia.
  assert (Hc : isValidIdentifier "id" = Ret true) by (vm_compute; reflexivity).
  exact (chunk_by_id_repeats_the_first_page 100 "id" keepGoing
           (set_table (NewQueryBuilder (Some 0%nat)) "users") (OfPool 0%nat)
           "SELECT * FROM users WHERE id > ? ORDER BY id ASC LIMIT 100" [VInt 0]
           [VInt 1] [[VInt 2]] quietScript Hs Hc eq_refl eq_refl
           eq_refl eq_refl 50 []).
Defined.

(** ** The clauses do not depend on what was written before them *)

Lemma havingLoop_prefix (conds : list whereCondition) (i : nat)
                        (q : string) (ps : list value) :
  havingLoop i conds q ps
  = (q ++ fst (havingLoop i conds "" []), (ps ++ snd (havingLoop i conds "" []))%list).
Proof.
  revert i q ps. induction conds as [|c rest IH]; intros i q ps.
  - cbn. rewrite append_nil_r, app_nil_r. reflexivity.
  - cbn [havingLoop].
    rewrite (IH (S i) ((if (0 <? i)%nat then q ++ " " ++ logic c ++ " " else q)
                       ++ column c ++ " " ++ operator c ++ " ?")
                (ps ++ [cvalue c])%list).
    rewrite (IH (S i) ((if (0 <? i)%nat then "" ++ " " ++ logic c ++ " " else "")
                       ++ column c ++ " " ++ operator c ++ " ?")
                ([] ++ [cvalue c])%list).
    cbn [fst snd]. rewrite app_nil_l.
    destruct (0 <? i)%nat; rewrite ?append_assoc, <- ?app_assoc; reflexivity.
Qed.

Lemma writeHaving_prefix (qb : QueryBuilder) (q : string) (ps : list value) :
  writeHaving qb q ps
  = (q ++ fst (writeHaving qb "" []), (ps ++ snd (writeHaving qb "" []))%list).
Proof.
  unfold writeHaving. destruct (0 <? length (having qb))%nat.
  - rewrite (havingLoop_prefix _ 0 (q ++ " HAVING ") ps).
    rewrite (havingLoop_prefix _ 0 ("" ++ " HAVING ") []).
    cbn [fst snd]. rewrite app_nil_l, !append_assoc. reflexivity.
  - cbn. rewrite append_nil_r, app_nil_r. reflexivity.
Qed.

Lemma writeGroupBy_prefix (qb : QueryBuilder) (q : string) :
  writeGroupBy qb q = q ++ writeGroupBy qb "".
Proof.
  unfold writeGroupBy. destruct (0 <? length (groupBy qb))%nat;
    [reflexivity | now rewrite append_nil_r].
Qed.

Lemma writeOrderBy_prefix (qb : QueryBuilder) (q : string) :
  writeOrderBy qb q = q ++ writeOrderBy qb "".
Proof.
  unfold writeOrderBy. destruct (0 <? length (orderBy qb))%nat;
    [reflexivity | now rewrite append_nil_r].
Qed.

Lemma writeLimit_prefix (qb : QueryBuilder) (q : string) :
  writeLimit qb q = q ++ writeLimit qb "".
Proof.
  unfold writeLimit. destruct (0 <? limitCount qb)%Z;
    [reflexivity | now rewrite append_nil_r].
Qed.

Lemma writeOffset_prefix (qb : QueryBuilder) (q : string) :
  writeOffset qb q = q ++ writeOffset qb "".
Proof.
  unfold writeOffset. destruct (0 <? offsetCount qb)%Z;
    [reflexivity | now rewrite append_nil_r].
Qed.

Lemma joinsLoop_prefix (js : list joinClause) (q : string) :
  joinsLoop js q = q ++ joinsLoop js "".
Proof.
  revert q. induction js as [|j js IH]; intros q.
  - cbn. now rewrite append_nil_r.
  - cbn [joinsLoop].
    rewrite (IH (q ++ " " ++ joinType j ++ " JOIN " ++ jtable j ++ " ON " ++ on j)).
    rewrite (IH ("" ++ " " ++ joinType j ++ " JOIN " ++ jtable j ++ " ON " ++ on j)).
    rewrite !append_assoc. reflexivity.
Qed.

Lemma afterFrom_eq (qb : QueryBuilder) :
  afterFrom qb
  = (writeOffset qb (writeLimit qb (writeOrderBy qb
       (fst (writeHaving qb (writeGroupBy qb (whereText qb)) (whereParams qb))))),
     snd (writeHaving qb (writeGroupBy qb (whereText qb)) (whereParams qb))).
Proof.
  unfold afterFrom, whereText, whereParams.
  destruct (writeWhere qb "" []) as [q1 p1]. cbn [fst snd].
  destruct (writeHaving qb (writeGroupBy qb q1) p1) as [q2 p2]. reflexivity.
Qed.

Lemma assembleSelect_split (qb : QueryBuilder) :
  assembleSelect qb
  = (writeSelectFrom qb ++ fst (afterFrom qb), snd (afterFrom qb)).
Proof.
  rewrite assembleSelect_eq, afterFrom_eq, writeWhere_prefix. cbn [fst snd].
  rewrite app_nil_l.
  rewrite (writeGroupBy_prefix qb (writeSelectFrom qb ++ whereText qb)).
  rewrite (writeGroupBy_prefix qb (whereText qb)).
  rewrite (writeHaving_prefix qb ((writeSelectFrom qb ++ whereText qb) ++ _)).
  rewrite (writeHaving_prefix qb (whereText qb ++ _) (whereParams qb)).
  cbn [fst snd].
  rewrite (writeOrderBy_prefix qb (((writeSelectFrom qb ++ whereText qb) ++ _) ++ _)).
  rewrite (writeOrderBy_prefix qb ((whereText qb ++ _) ++ _)).
  rewrite (writeLimit_prefix qb ((((writeSelectFrom qb ++ whereText qb) ++ _) ++ _) ++ _)).
  rewrite (writeLimit_prefix qb (((whereText qb ++ _) ++ _) ++ _)).
  rewrite (writeOffset_prefix qb
             (((((writeSelectFrom qb ++ whereText qb) ++ _) ++ _) ++ _) ++ _)).
  rewrite (writeOffset_prefix qb ((((whereText qb ++ _) ++ _) ++ _) ++ _)).
  rewrite !append_assoc. reflexivity.
Qed.

Lemma writeSelectFrom_eq (qb : QueryBuilder) :
  writeSelectFrom qb
  = "SELECT " ++ selectList (selectCols qb) ++ " FROM " ++ table qb
    ++ joinsLoop (joins qb) "".
Proof.
  unfold writeSelectFrom, selectList. rewrite joinsLoop_prefix.
  destruct (length (selectCols qb) =? 0)%nat; rewrite !append_assoc; reflexivity.
Qed.

(** ** UNION *)

Lemma assembleSelect_set_union (qb q : QueryBuilder) (all : bool) :
  assembleSelect (set_union qb q all) = assembleSelect qb.
Proof. destruct qb; reflexivity. Qed.

Lemma ToSQL_set_union (qb q : QueryBuilder) (all : bool) :
  err qb = None -> table qb <> "" ->
  ToSQL (set_union qb q all)
  = match ToSQL q with
    | (_, _, Some e) => ("", [], Some e)
    | (usql, ups, None) =>
        (fst (assembleSelect qb) ++ " " ++ (if all then "UNION ALL" else "UNION")
           ++ " " ++ usql,
         (snd (assembleSelect qb) ++ ups)%list, None)
    end.
Proof.
  intros He Ht. rewrite ToSQL_eq.
  replace (err (set_union qb q all)) with (err qb) by (destruct qb; reflexivity).
  replace (table (set_union qb q all)) with (table qb) by (destruct qb; reflexivity).
  replace (unionQuery (set_union qb q all)) with (Some q) by (destruct qb; reflexivity).
  replace (unionAll (set_union qb q all)) with all by (destruct qb; reflexivity).
  rewrite He, (table_nonempty _ Ht), assembleSelect_set_union.
  destruct (assembleSelect qb) as [query ps]. cbn [fst snd].
  destruct (ToSQL q) as [[usql ups] [e|]]; reflexivity.
Qed.

(** Extra X22.  A builder holds one union child.  For a builder without one
    that assembles to a text and parameters, [Union] with a child that
    assembles gives the builder's whole text, its ORDER BY, LIMIT and OFFSET
    included, then UNION (UNION ALL for [UnionAll]) and the child's text,
    with the child's parameters after the builder's own.  A child that fails
    to assemble makes the whole query fail with the child's error, and a
    second [Union] replaces the first child without a trace. *)
Theorem union_appends_the_child_query
  (qb q : QueryBuilder) (sql usql : string) (ps ups : list value) :
  unionQuery qb = None ->
  ToSQL qb = (sql, ps, None) ->
  ToSQL q = (usql, ups, None) ->
  ToSQL (Union q qb) = (sql ++ " UNION " ++ usql, (ps ++ ups)%list, None)
  /\ ToSQL (UnionAll q qb) = (sql ++ " UNION ALL " ++ usql, (ps ++ ups)%list, None)
  /\ (forall (q' : QueryBuilder) (e : error),
        snd (ToSQL q') = Some e -> ToSQL (Union q' qb) = ("", [], Some e))
  /\ (forall (q' : QueryBuilder),
        ToSQL (Union q (Union q' qb)) = ToSQL (Union q qb)
        /\ ToSQL (Union q (UnionAll q' qb)) = ToSQL (Union q qb)).
Proof.
  intros Hu Hsql Hq.
  destruct (ToSQL_success _ _ _ Hsql) as (He & Ht & [[_ Hasm] | (q0 & ? & ? & Hq0 & _)]);
    [|rewrite Hu in Hq0; discriminate].
  split; [|split; [|split]].
  - unfold Union. rewrite (ToSQL_set_union _ _ _ He Ht), Hq, Hasm. reflexivity.
  - unfold UnionAll. rewrite (ToSQL_set_union _ _ _ He Ht), Hq, Hasm. reflexivity.
  - intros q' e Hq'. unfold Union. rewrite (ToSQL_set_union _ _ _ He Ht).
    destruct (ToSQL q') as [[s p] o]. cbn in Hq'. subst o. reflexivity.
  - intros q'. split; unfold Union, UnionAll; destruct qb; reflexivity.
Qed.

Lemma union_appends_the_child_query_witness :
  ToSQL (Union adminsQuery (Limit 5 (set_table (NewQueryBuilder None) "users")))
  = ("SELECT * FROM users LIMIT 5 UNION SELECT * FROM admins WHERE level >= ?",
     [VInt 2], None).
Proof.
  exact (proj1 (union_appends_the_child_query
                  (Limit 5 (set_table (NewQueryBuilder None) "users")) adminsQuery
                  "SELECT * FROM users LIMIT 5" "SELECT * FROM admins WHERE level >= ?"
                  [] [VInt 2] eq_refl eq_refl eq_refl)).
Defined.

(** ** Conditions appended to the WHERE clause *)

Lemma where_append (qb : QueryBuilder) (c : whereCondition) :
  whereText (set_whereConds qb (whereConds qb ++ [c]))
  = whereText qb ++ whereSeparator qb (logic c) ++ condText c
  /\ whereParams (set_whereConds qb (whereConds qb ++ [c]))
     = (whereParams qb ++ condParams c)%list.
Proof.
  unfold whereText, whereParams, writeWhere, whereSeparator.
  replace (whereConds (set_whereConds qb (whereConds qb ++ [c])))
    with (whereConds qb ++ [c])%list by (destruct qb; reflexivity).
  destruct (whereConds qb) as [|c0 rest] eqn:Hc.
  - rewrite app_nil_l. cbn [length Nat.ltb Nat.leb].
    rewrite whereLoop_cons. cbn [whereLoop fst snd Nat.ltb Nat.leb].
    rewrite append_nil_r, app_nil_l. split; reflexivity.
  - cbn [length app Nat.ltb Nat.leb].
    change (c0 :: (rest ++ [c])%list) with ((c0 :: rest) ++ [c])%list.
    rewrite whereLoop_app.
    destruct (whereLoop 0 (c0 :: rest) ("" ++ " WHERE ") []) as [q1 p1]. cbn [fst snd].
    rewrite whereLoop_cons. cbn [whereLoop fst snd length Nat.add Nat.ltb Nat.leb].
    rewrite append_assoc. split; reflexivity.
Qed.

(** Extra X23.  For a valid column, [WhereIn] and [WhereBetween] extend the
    WHERE clause of any builder: the text grows by the separator (WHERE for
    the first condition, AND after that), the column and IN with one
    question mark for each value, or BETWEEN ? AND ?, and the values join
    the parameters in their order.  An empty list of values is accepted and
    written as IN (). *)
Theorem where_in_and_between_extend_the_clause
  (col : string) (values : list value) (lo hi : value) (qb : QueryBuilder) :
  isValidIdentifier col = Ret true ->
  (exists qb',
      WhereIn col values qb = Ret qb'
      /\ whereText qb'
         = whereText qb ++ whereSeparator qb "AND" ++ col ++ " IN ("
           ++ GoStr.Join (map (fun _ => "?") values) ", " ++ ")"
      /\ whereParams qb' = (whereParams qb ++ values)%list
      /\ GoStr.count "?" ("(" ++ GoStr.Join (map (fun _ => "?") values) ", " ++ ")")
         = length values
      /\ err qb' = err qb)
  /\ (exists qb',
      WhereBetween col lo hi qb = Ret qb'
      /\ whereText qb' = whereText qb ++ whereSeparator qb "AND" ++ col ++ " BETWEEN ? AND ?"
      /\ whereParams qb' = (whereParams qb ++ [lo; hi])%list
      /\ err qb' = err qb)
  /\ (exists qb',
      WhereIn col [] qb = Ret qb'
      /\ whereText qb' = whereText qb ++ whereSeparator qb "AND" ++ col ++ " IN ()"
      /\ whereParams qb' = whereParams qb).
Proof.
  intros Hcol.
  assert (Hin : forall vs,
      exists qb',
        WhereIn col vs qb = Ret qb'
        /\ whereText qb'
           = whereText qb ++ whereSeparator qb "AND" ++ col ++ " IN ("
             ++ GoStr.Join (map (fun _ => "?") vs) ", " ++ ")"
        /\ whereParams qb' = (whereParams qb ++ vs)%list
        /\ err qb' = err qb).
  { intros vs. eexists. split; [unfold WhereIn; rewrite Hcol; reflexivity|].
    destruct (where_append qb
                (mkCond col "IN"
                   (VStr ("(" ++ GoStr.Join (map (fun _ => "?") vs) ", " ++ ")"))
                   "AND" (Some vs))) as [Ht Hp].
    split; [|split].
    - rewrite Ht. reflexivity.
    - rewrite Hp. reflexivity.
    - destruct qb; reflexivity. }
  split; [|split].
  - destruct (Hin values) as (qb' & H1 & H2 & H3 & H4).
    exists qb'. split; [exact H1|]. split; [exact H2|]. split; [exact H3|].
    split; [|exact H4].
    rewrite !count_append, count_placeholders.
    change (GoStr.count "?" "(") with 0. change (GoStr.count "?" ")") with 0. lia.
  - eexists. split; [unfold WhereBetween; rewrite Hcol; reflexivity|].
    destruct (where_append qb
                (mkCond col "BETWEEN" (VStr "? AND ?") "AND" (Some [lo; hi])))
      as [Ht Hp].
    split; [|split].
    + rewrite Ht. reflexivity.
    + rewrite Hp. reflexivity.
    + destruct qb; reflexivity.
  - destruct (Hin []) as (qb' & H1 & H2 & H3 & _).
    exists qb'. split; [exact H1|]. split; [exact H2|].
    rewrite H3. apply app_nil_r.
Qed.

Lemma where_in_and_between_extend_the_clause_witness :
  exists qb',
    WhereIn "id" [VInt 4; VInt 5] usersById = Ret qb'
    /\ whereText qb' = " WHERE id = ? AND id IN (?, ?)"
    /\ whereParams qb' = [VInt 1; VInt 4; VInt 5].
Proof.
  assert (Hc : isValidIdentifier "id" = Ret true) by (vm_compute; reflexivity).
  destruct (proj1 (where_in_and_between_extend_the_clause
                     "id" [VInt 4; VInt 5] VNil VNil usersById Hc))
    as (qb' & H1 & H2 & H3 & _).
  exists qb'. split; [exact H1|]. split; [exact H2|exact H3].
Defined.

(** ** LIMIT and OFFSET *)

(** Extra X24.  A limit or an offset of zero or less is not written: the
    builder assembles as with the limit, or the offset, of a builder that
    was never given one. *)
Theorem nonpositive_limit_and_offset_are_not_written (n : Z) (qb : QueryBuilder) :
  (n <= 0)%Z ->
  ToSQL (Limit n qb) = ToSQL (Limit 0 qb)
  /\ ToSQL (Offset n qb) = ToSQL (Offset 0 qb).
Proof.
  intros Hn. destruct n as [|p|p]; [split; reflexivity | lia |].
  split.
  - rewrite (ToSQL_eq (Limit (Z.neg p) qb)), (ToSQL_eq (Limit 0 qb)).
    replace (assembleSelect (Limit (Z.neg p) qb)) with (assembleSelect (Limit 0 qb))
      by (destruct qb; reflexivity).
    destruct qb; reflexivity.
  - rewrite (ToSQL_eq (Offset (Z.neg p) qb)), (ToSQL_eq (Offset 0 qb)).
    replace (assembleSelect (Offset (Z.neg p) qb)) with (assembleSelect (Offset 0 qb))
      by (destruct qb; reflexivity).
    destruct qb; reflexivity.
Qed.

Lemma nonpositive_limit_and_offset_are_not_written_witness :
  ToSQL (Limit (-3) (set_table (NewQueryBuilder None) "users"))
  = ("SELECT * FROM users", [], None).
Proof.
  assert (Hn : (-3 <= 0)%Z) by lia.
  exact (eq_trans
           (proj1 (nonpositive_limit_and_offset_are_not_written
                     (-3) (set_table (NewQueryBuilder None) "users") Hn))
           eq_refl).
Defined.

(** ** [Count] and [Exists] *)

Lemma afterFrom_set_selectCols (qb : QueryBuilder) (cols : list string) :
  afterFrom (set_selectCols qb cols) = afterFrom qb.
Proof. destruct qb; reflexivity. Qed.

Lemma ToSQL_select_list (qb : QueryBuilder) (sql : string) (ps : list value) :
  ToSQL qb = (sql, ps, None) ->
  exists tail,
    forall cols,
      ToSQL (set_selectCols qb cols)
      = ("SELECT " ++ selectList cols ++ " FROM " ++ tail, ps, None).
Proof.
  intros Hsql. rewrite ToSQL_eq in Hsql.
  destruct (err qb) eqn:He; [discriminate|].
  destruct (String.eqb (table qb) "") eqn:Ht; [discriminate|].
  rewrite assembleSelect_split, writeSelectFrom_eq in Hsql.
  assert (Hgen : forall cols,
     ToSQL (set_selectCols qb cols)
     = match unionQuery qb with
       | Some q =>
           let '(unionSQL, unionParams, uerr) := ToSQL q in
           match uerr with
           | Some e => ("", [], Some e)
           | None =>
               (("SELECT " ++ selectList cols ++ " FROM " ++ table qb
                   ++ joinsLoop (joins qb) "" ++ fst (afterFrom qb))
                  ++ " " ++ (if unionAll qb then "UNION ALL" else "UNION")
                  ++ " " ++ unionSQL,
                (snd (afterFrom qb) ++ unionParams)%list, None)
           end
       | None => ("SELECT " ++ selectList cols ++ " FROM " ++ table qb
                    ++ joinsLoop (joins qb) "" ++ fst (afterFrom qb),
                  snd (afterFrom qb), None)
       end).
  { intros cols. rewrite ToSQL_eq.
    replace (err (set_selectCols qb cols)) with (err qb) by (destruct qb; reflexivity).
    replace (table (set_selectCols qb cols)) with (table qb)
      by (destruct qb; reflexivity).
    replace (unionQuery (set_selectCols qb cols)) with (unionQuery qb)
      by (destruct qb; reflexivity).
    replace (unionAll (set_selectCols qb cols)) with (unionAll qb)
      by (destruct qb; reflexivity).
    rewrite He, Ht, assembleSelect_split, writeSelectFrom_eq, afterFrom_set_selectCols.
    replace (selectCols (set_selectCols qb cols)) with cols by (destruct qb; reflexivity).
    replace (table (set_selectCols qb cols)) with (table qb)
      by (destruct qb; reflexivity).
    replace (joins (set_selectCols qb cols)) with (joins qb)
      by (destruct qb; reflexivity).
    rewrite !append_assoc. reflexivity. }
  cbv zeta in Hsql.
  destruct (unionQuery qb) as [q|].
  - destruct (ToSQL q) as [[usql ups] [e|]] eqn:Hq; [discriminate|].
    injection Hsql as _ Hps.
    exists (table qb ++ joinsLoop (joins qb) "" ++ fst (afterFrom qb)
              ++ " " ++ (if unionAll qb then "UNION ALL" else "UNION") ++ " " ++ usql).
    intros cols. rewrite Hgen. cbv zeta. rewrite Hps, !append_assoc. reflexivity.
  - injection Hsql as _ Hps.
    exists (table qb ++ joinsLoop (joins qb) "" ++ fst (afterFrom qb)).
    intros cols. rewrite Hgen, Hps. reflexivity.
Qed.

(** Extra X25.  [Count] counts the builder's own statement: when the
    builder assembles, [Count] sends that statement with the select list
    replaced by the count-star expression and with the same parameters, so
    the ORDER BY, LIMIT, OFFSET and UNION of the builder stay in the
    counting statement; it gives the builder back with its select columns
    restored, and [Exists] sends the same statement and answers whether the
    count is positive. *)
Theorem count_replaces_only_the_select_list
  {W : Type} {P : Port W} (qb : QueryBuilder) (h : handle)
  (sql : string) (ps : list value) (st : state W) :
  ToSQL qb = (sql, ps, None) -> db qb = Some h ->
  exists tail,
    sql = "SELECT " ++ selectList (selectCols qb) ++ " FROM " ++ tail
    /\ Count qb st
       = Ret (qb, fst (port_QueryRowScan h ("SELECT COUNT(*) FROM " ++ tail) ps (world st)),
              mkState (snd (port_QueryRowScan h ("SELECT COUNT(*) FROM " ++ tail) ps
                                              (world st)))
                      (log st ++ [EvQueryRow h ("SELECT COUNT(*) FROM " ++ tail) ps]))
    /\ (forall n w',
          port_QueryRowScan h ("SELECT COUNT(*) FROM " ++ tail) ps (world st)
          = ((n, None), w') ->
          Exists qb st
          = Ret (qb, ((0 <? n)%Z, None),
                 mkState w' (log st ++ [EvQueryRow h ("SELECT COUNT(*) FROM " ++ tail) ps]))).
Proof.
  intros Hsql Hdb. destruct (ToSQL_select_list _ _ _ Hsql) as [tail Htail].
  exists tail.
  assert (Hself : set_selectCols qb (selectCols qb) = qb) by (destruct qb; reflexivity).
  assert (Hcount := Count_restores_after_assembly qb st _ _ h (Htail ["COUNT(*)"]) Hdb).
  split; [|split].
  - pose proof (Htail (selectCols qb)) as H. rewrite Hself, Hsql in H.
    injection H as H. exact H.
  - exact Hcount.
  - intros n w' Hq. unfold Exists, mbind. rewrite Hcount.
    change (selectList ["COUNT(*)"]) with "COUNT(*)" in Hq |- *.
    change ("SELECT " ++ "COUNT(*)" ++ " FROM " ++ tail)
      with ("SELECT COUNT(*) FROM " ++ tail) in Hq |- *.
    rewrite Hq. reflexivity.
Qed.

Lemma count_replaces_only_the_select_list_witness :
  Count secondPage (mkState quietScript [])
  = Ret (secondPage, (2%Z, None),
         mkState quietScript
           [EvQueryRow (OfPool 0%nat)
                       "SELECT COUNT(*) FROM users LIMIT 10 OFFSET 10" []]).
Proof.
  destruct (count_replaces_only_the_select_list
              secondPage (OfPool 0%nat) "SELECT * FROM users LIMIT 10 OFFSET 10" []
              (mkState quietScript []) eq_refl eq_refl)
    as (tail & Htail & Hcount & _).
  assert (Ht : tail = "users LIMIT 10 OFFSET 10") by (injection Htail as <-; reflexivity).
  rewrite Ht in Hcount. exact Hcount.
Defined.

(** ** The shortcuts [Find] and [All] of a model *)

(** Extra X26.  For a model with a valid table and primary key and a
    connection, [Find] sends SELECT * FROM table WHERE key = ? LIMIT 1 with
    the id, and [All] sends SELECT * FROM table; when soft delete is on,
    both carry the condition deleted_at IS NULL, in [Find] before the key
    condition. *)
Theorem model_find_and_all_statements
  {W : Type} {P : Port W} {R : RowPort W} (m : Model) (c : conn) (id : value)
  (st : state W) :
  isValidIdentifier (mtable m) = Ret true ->
  isValidIdentifier (primaryKey m) = Ret true ->
  let findText := "SELECT * FROM " ++ mtable m ++ " WHERE "
                  ++ (if softDelete m then "deleted_at IS NULL AND " else "")
                  ++ primaryKey m ++ " = ? LIMIT 1" in
  let allText := "SELECT * FROM " ++ mtable m
                 ++ (if softDelete m then " WHERE deleted_at IS NULL" else "") in
  (exists qb,
     Model_Find m (Some c) id st
     = Ret ((qb, fst (port_QueryRow (OfPool c) findText [id] (world st))),
            mkState (snd (port_QueryRow (OfPool c) findText [id] (world st)))
                    (log st ++ [EvQueryRow (OfPool c) findText [id]])))
  /\ Model_All m (Some c) st
     = Ret (fst (port_Query (OfPool c) allText [] (world st)),
            mkState (snd (port_Query (OfPool c) allText [] (world st)))
                    (log st ++ [EvQuery (OfPool c) allText []])).
Proof.
  intros Ht Hk findText allText.
  pose proof (valid_identifier_not_empty _ Ht) as Hne.
  assert (Hop : isValidOperator "=" = true) by (vm_compute; reflexivity).
  assert (Hd : isValidIdentifier "deleted_at" = Ret true) by (vm_compute; reflexivity).
  assert (Hnot : String.eqb (mtable m) "" = false) by (apply String.eqb_neq; exact Hne).
  split.
  - unfold Model_Find, Model_Query, Table. rewrite Ht. cbn [obind negb].
    subst findText. destruct (softDelete m).
    + eexists. unfold WhereNull. rewrite Hd. cbn [obind negb]. unfold Where. rewrite Hk.
      cbn [obind negb]. rewrite Hop. cbn [negb].
      unfold mbind at 1. unfold lift. unfold First.
      match goal with |- context [ToSQL ?q] =>
        assert (Hsql : ToSQL q
                       = ("SELECT * FROM " ++ mtable m ++ " WHERE "
                          ++ "deleted_at IS NULL AND " ++ primaryKey m ++ " = ? LIMIT 1",
                          [id], None))
      end.
      { rewrite ToSQL_eq. simpl. rewrite Hnot.
        unfold assembleSelect, writeSelectFrom, writeWhere, writeGroupBy, writeHaving,
               writeOrderBy, writeLimit, writeOffset.
        simpl. rewrite !append_assoc. simpl. reflexivity. }
      rewrite Hsql. unfold mbind, dbQueryRow. simpl.
      destruct (port_QueryRow (OfPool c) _ [id] (world st)). reflexivity.
    + eexists. unfold Where. rewrite Hk. cbn [obind negb]. rewrite Hop. cbn [negb].
      unfold mbind at 1. unfold lift. unfold First.
      match goal with |- context [ToSQL ?q] =>
        assert (Hsql : ToSQL q
                       = ("SELECT * FROM " ++ mtable m ++ " WHERE "
                          ++ "" ++ primaryKey m ++ " = ? LIMIT 1",
                          [id], None))
      end.
      { rewrite ToSQL_eq. simpl. rewrite Hnot.
        unfold assembleSelect, writeSelectFrom, writeWhere, writeGroupBy, writeHaving,
               writeOrderBy, writeLimit, writeOffset.
        simpl. rewrite !append_assoc. simpl. reflexivity. }
      rewrite Hsql. unfold mbind, dbQueryRow. simpl.
      destruct (port_QueryRow (OfPool c) _ [id] (world st)). reflexivity.
  - unfold Model_All, Model_Query, Table. rewrite Ht. cbn [obind negb].
    subst allText. destruct (softDelete m).
    + unfold WhereNull. rewrite Hd. cbn [obind negb].
      unfold mbind at 1. unfold lift. unfold Get.
      match goal with |- context [ToSQL ?q] =>
        assert (Hsql : ToSQL q
                       = ("SELECT * FROM " ++ mtable m ++ " WHERE deleted_at IS NULL",
                          [], None))
      end.
      { rewrite ToSQL_eq. simpl. rewrite Hnot.
        unfold assembleSelect, writeSelectFrom, writeWhere, writeGroupBy, writeHaving,
               writeOrderBy, writeLimit, writeOffset.
        simpl. rewrite !append_assoc. simpl. reflexivity. }
      rewrite Hsql. unfold dbQuery, through. simpl.
      destruct (port_Query (OfPool c) _ [] (world st)). reflexivity.
    + unfold mbind at 1. unfold lift. unfold Get.
      match goal with |- context [ToSQL ?q] =>
        assert (Hsql : ToSQL q = ("SELECT * FROM " ++ mtable m ++ "", [], None))
      end.
      { rewrite ToSQL_eq. simpl. rewrite Hnot.
        unfold assembleSelect, writeSelectFrom, writeWhere, writeGroupBy, writeHaving,
               writeOrderBy, writeLimit, writeOffset.
        simpl. rewrite ?append_assoc. simpl. rewrite ?append_nil_r. reflexivity. }
      rewrite Hsql. unfold dbQuery, through. simpl.
      destruct (port_Query (OfPool c) _ [] (world st)). reflexivity.
Qed.

Lemma model_find_and_all_statements_witness :
  Model_All postsModel (Some 0%nat) (mkState quietScript [])
  = Ret (inl [[VInt 1]; [VInt 2]],
         mkState quietScript
           [EvQuery (OfPool 0%nat) "SELECT * FROM posts WHERE deleted_at IS NULL" []]).
Proof.
  assert (Ht : isValidIdentifier (mtable postsModel) = Ret true)
    by (vm_compute; reflexivity).
  assert (Hk : isValidIdentifier (primaryKey postsModel) = Ret true)
    by (vm_compute; reflexivity).
  exact (proj2 (model_find_and_all_statements postsModel 0%nat VNil
                  (mkState quietScript []) Ht Hk)).
Defined.

(** ** The module registry *)

Section RegistryFacts.

Context {W : Type}.

Lemma existsb_eqb_In (n : string) (l : list string) :
  existsb (String.eqb n) l = true <-> In n l.
Proof.
  rewrite existsb_exists. split.
  - intros (x & Hx & Heq). apply String.eqb_eq in Heq. now subst.
  - intros H. exists n. split; [exact H | apply String.eqb_refl].
Qed.

Lemma mapGet_None {A : Type} (m : list (string * A)) (k : string) :
  mapGet m k = None <-> ~ In k (map fst m).
Proof.
  induction m as [|[k' v] m IH]; simpl.
  - tauto.
  - destruct (String.eqb k k') eqn:E.
    + apply String.eqb_eq in E. subst. split; [discriminate | intros H; exfalso; auto].
    + apply String.eqb_neq in E. rewrite IH. split.
      * intros H [H1|H1]; [congruence | auto].
      * intros H H1. apply H. now right.
Qed.

Lemma mapSet_absent {A : Type} (m : list (string * A)) (k : string) (v : A) :
  mapGet m k = None -> mapSet m k v = (m ++ [(k, v)])%list.
Proof.
  induction m as [|[k' v'] m IH]; simpl; [reflexivity|].
  destruct (String.eqb k k'); [discriminate|]. intros H. now rewrite IH.
Qed.

Lemma mapGet_app {A : Type} (m1 m2 : list (string * A)) (k : string) :
  mapGet (m1 ++ m2)%list k
  = match mapGet m1 k with
    | Some v => Some v
    | None => mapGet m2 k
    end.
Proof.
  induction m1 as [|[k' v] m1 IH]; simpl; [reflexivity|].
  destruct (String.eqb k k'); [reflexivity | exact IH].
Qed.

Lemma wellFormed_new : wellFormed (@NewModuleRegistry W).
Proof. repeat split; simpl; [constructor | tauto]. Qed.

Lemma Register_fresh (m : AModule W) (r : ModuleRegistry W) :
  ~ In (Name m) (order r) -> wellFormed r ->
  Registry_Register m r
  = (None, mkRegistry (modules r ++ [(Name m, m)]) (order r ++ [Name m])).
Proof.
  intros Hn (Hk & _ & _). unfold Registry_Register.
  assert (Hg : mapGet (modules r) (Name m) = None).
  { apply mapGet_None. rewrite Hk. exact Hn. }
  rewrite Hg, (mapSet_absent _ _ _ Hg). reflexivity.
Qed.

Lemma Register_known (m : AModule W) (r : ModuleRegistry W) :
  In (Name m) (order r) -> wellFormed r ->
  Registry_Register m r
  = (Some (Errorf "module %q already registered" [AStr (Name m)]), r).
Proof.
  intros Hn (Hk & _ & _). unfold Registry_Register.
  destruct (mapGet (modules r) (Name m)) eqn:Hg; [reflexivity|].
  apply mapGet_None in Hg. rewrite Hk in Hg. contradiction.
Qed.

Lemma Register_wellFormed (m : AModule W) (r : ModuleRegistry W) :
  wellFormed r -> wellFormed (snd (Registry_Register m r)).
Proof.
  intros Hwf. destruct (in_dec string_dec (Name m) (order r)) as [Hin|Hin].
  - rewrite (Register_known _ _ Hin Hwf). exact Hwf.
  - rewrite (Register_fresh _ _ Hin Hwf). destruct Hwf as (Hk & Hnd & Hnm).
    repeat split; simpl.
    + rewrite map_app, Hk. reflexivity.
    + apply NoDup_app; [exact Hnd | repeat constructor; simpl; tauto |].
      intros x Hx [<-|[]]. contradiction.
    + intros k m' Hin'. apply in_app_or in Hin'. destruct Hin' as [H|[H|[]]].
      * apply Hnm, H.
      * injection H as <- <-. reflexivity.
Qed.

Lemma registerAll_wellFormed (ms : list (AModule W)) (r : ModuleRegistry W) :
  wellFormed r -> wellFormed (registerAll ms r).
Proof.
  revert r. induction ms as [|m ms IH]; intros r Hwf; [exact Hwf|].
  simpl. apply IH, Register_wellFormed, Hwf.
Qed.

Lemma registerAll_order (ms : list (AModule W)) (r : ModuleRegistry W) :
  wellFormed r ->
  order (registerAll ms r) = (order r ++ firstOccurrences (order r) (map Name ms))%list.
Proof.
  revert r. induction ms as [|m ms IH]; intros r Hwf.
  - simpl. now rewrite app_nil_r.
  - simpl. rewrite (IH _ (Register_wellFormed m r Hwf)).
    destruct (existsb (String.eqb (Name m)) (order r)) eqn:E.
    + apply existsb_eqb_In in E. rewrite (Register_known _ _ E Hwf). reflexivity.
    + assert (Hn : ~ In (Name m) (order r)).
      { intros H. apply existsb_eqb_In in H. congruence. }
      rewrite (Register_fresh _ _ Hn Hwf). simpl. rewrite <- app_assoc. reflexivity.
Qed.

Lemma registerAll_get (ms : list (AModule W)) (r : ModuleRegistry W) (n : string) :
  wellFormed r ->
  mapGet (modules (registerAll ms r)) n
  = match mapGet (modules r) n with
    | Some m => Some m
    | None => find (fun m => String.eqb n (Name m)) ms
    end.
Proof.
  revert r. induction ms as [|m ms IH]; intros r Hwf.
  - simpl. destruct (mapGet (modules r) n); reflexivity.
  - simpl. rewrite (IH _ (Register_wellFormed m r Hwf)).
    destruct (in_dec string_dec (Name m) (order r)) as [Hin|Hin].
    + rewrite (Register_known _ _ Hin Hwf). simpl.
      destruct (mapGet (modules r) n) eqn:Hg; [reflexivity|].
      destruct (String.eqb n (Name m)) eqn:E; [|reflexivity].
      apply String.eqb_eq in E. subst n. apply mapGet_None in Hg.
      destruct Hwf as (Hk & _). rewrite Hk in Hg. contradiction.
    + rewrite (Register_fresh _ _ Hin Hwf). simpl. rewrite mapGet_app. simpl.
      destruct (mapGet (modules r) n); [reflexivity|].
      destruct (String.eqb n (Name m)); reflexivity.
Qed.

Lemma firstOccurrences_In (names seen : list string) (n : string) :
  In n (firstOccurrences seen names) <-> In n names /\ ~ In n seen.
Proof.
  revert seen. induction names as [|a names IH]; intros seen; simpl.
  - tauto.
  - destruct (existsb (String.eqb a) seen) eqn:E.
    + apply existsb_eqb_In in E. rewrite IH. split.
      * intros [H1 H2]. auto.
      * intros [[<-|H1] H2]; [contradiction | auto].
    + assert (Ha : ~ In a seen) by (intros H; apply existsb_eqb_In in H; congruence).
      simpl. rewrite IH. split.
      * intros [<-|[H1 H2]]; [auto|]. split; [auto|].
        intros H. apply H2, in_or_app. now left.
      * intros [[<-|H1] H2]; [now left|].
        destruct (string_dec a n) as [<-|Hne]; [now left|]. right. split; [exact H1|].
        intros H. apply in_app_or in H. destruct H as [H|[H|[]]]; auto.
Qed.

(** The registry after registering modules with distinct names. *)
Lemma registerAll_distinct (ms : list (AModule W)) (r : ModuleRegistry W) :
  wellFormed r -> NoDup (order r ++ map Name ms)%list ->
  registerAll ms r
  = mkRegistry (modules r ++ map (fun m => (Name m, m)) ms)%list
               (order r ++ map Name ms)%list.
Proof.
  revert r. induction ms as [|m ms IH]; intros r Hwf Hnd.
  - simpl. rewrite !app_nil_r. destruct r; reflexivity.
  - simpl. assert (Hn : ~ In (Name m) (order r)).
    { intros H. apply NoDup_remove_2 in Hnd. apply Hnd, in_or_app. now left. }
    pose proof (Register_wellFormed m r Hwf) as Hwf'.
    rewrite (Register_fresh _ _ Hn Hwf) in Hwf' |- *. simpl in Hwf' |- *.
    rewrite (IH _ Hwf'); simpl; rewrite <- !app_assoc; [reflexivity|exact Hnd].
Qed.

Lemma mapGet_named (all : list (AModule W)) (m : AModule W) :
  NoDup (map Name all) -> In m all ->
  mapGet (map (fun m => (Name m, m)) all) (Name m) = Some m.
Proof.
  induction all as [|a all IH]; intros Hnd Hin; [destruct Hin|].
  simpl. inversion Hnd as [|? ? Hna Hnd']; subst.
  destruct Hin as [->|Hin]; [now rewrite String.eqb_refl|].
  destruct (String.eqb (Name m) (Name a)) eqn:E; [|apply IH; assumption].
  apply String.eqb_eq in E. exfalso. apply Hna. rewrite <- E. apply in_map, Hin.
Qed.

Lemma InitializeAll_loop_passes (r : ModuleRegistry W) (l : list (AModule W)) :
  (forall m, In m l -> mapGet (modules r) (Name m) = Some m) ->
  (forall m w, In m l -> fst (Initialize m w) = None) ->
  forall w calls,
    InitializeAll_loop r (map Name l) w calls
    = Ret (None, fold_left (fun w m => snd (Initialize m w)) l w,
           (calls ++ map Initialized (map Name l))%list).
Proof.
  intros Hget Hok. induction l as [|m l IH]; intros w calls.
  - simpl. now rewrite app_nil_r.
  - simpl. rewrite (Hget m (or_introl eq_refl)).
    pose proof (Hok m w (or_introl eq_refl)) as Hm.
    destruct (Initialize m w) as [e w'] eqn:Hi. simpl in Hm. subst e.
    rewrite IH; [simpl; rewrite <- app_assoc; reflexivity | |].
    + intros m' H. apply Hget. now right.
    + intros m' w0 H. apply Hok. now right.
Qed.

Lemma InitializeAll_loop_stops (r : ModuleRegistry W) (pre post : list (AModule W))
                               (m : AModule W) (e : error) :
  (forall m', In m' (pre ++ [m])%list -> mapGet (modules r) (Name m') = Some m') ->
  (forall m' w, In m' pre -> fst (Initialize m' w) = None) ->
  (forall w, fst (Initialize m w) = Some e) ->
  forall w calls,
    InitializeAll_loop r (map Name (pre ++ m :: post)%list) w calls
    = Ret (Some (Errorf "module %q initialization failed: %w" [AStr (Name m); AErr e]),
           fold_left (fun w m => snd (Initialize m w)) (pre ++ [m])%list w,
           (calls ++ map Initialized (map Name (pre ++ [m])%list))%list).
Proof.
  intros Hget Hok Hbad. induction pre as [|a pre IH]; intros w calls.
  - simpl. rewrite (Hget m (or_introl eq_refl)).
    pose proof (Hbad w) as Hm. destruct (Initialize m w) as [e' w'] eqn:Hi.
    simpl in Hm. subst e'. reflexivity.
  - simpl. rewrite (Hget a (or_introl eq_refl)).
    pose proof (Hok a w (or_introl eq_refl)) as Ha.
    destruct (Initialize a w) as [e' w'] eqn:Hi. simpl in Ha. subst e'.
    rewrite IH; [simpl; rewrite <- app_assoc; reflexivity | |].
    + intros m' H. apply Hget. now right.
    + intros m' w0 H. apply Hok. now right.
Qed.

Lemma ShutdownAll_loop_all (r : ModuleRegistry W) (res : AModule W -> option error)
                           (l : list (AModule W)) :
  (forall m, In m l -> mapGet (modules r) (Name m) = Some m) ->
  (forall m w, In m l -> fst (Shutdown m w) = res m) ->
  forall w calls errs,
    ShutdownAll_loop r (map Name l) w calls errs
    = Ret ((errs ++ flat_map (shutdownFailure res) l)%list,
           fold_left (fun w m => snd (Shutdown m w)) l w,
           (calls ++ map ShutDown (map Name l))%list).
Proof.
  intros Hget Hres. induction l as [|m l IH]; intros w calls errs.
  - simpl. now rewrite !app_nil_r.
  - simpl. rewrite (Hget m (or_introl eq_refl)).
    pose proof (Hres m w (or_introl eq_refl)) as Hm.
    destruct (Shutdown m w) as [e w'] eqn:Hi. simpl in Hm. subst e.
    rewrite IH.
    + unfold shutdownFailure at 2. destruct (res m); simpl; rewrite <- ?app_assoc;
        reflexivity.
    + intros m' H. apply Hget. now right.
    + intros m' w0 H. apply Hres. now right.
Qed.

End RegistryFacts.

(** Extra X27.  After any run of [Register] calls on a new registry, the
    names are the modules' names in the order of their first registration,
    without a repetition; [Get] answers with the first module registered
    under a name, a later one under the same name having been refused;
    [Has] tells whether [Get] finds a module, and that is so for the listed
    names and no others; [Count] is the number of names. *)
Theorem registry_keeps_the_first_module_of_each_name
  {W : Type} (ms : list (AModule W)) :
  let r := registerAll ms NewModuleRegistry in
  Registry_Names r = firstOccurrences [] (map Name ms)
  /\ NoDup (Registry_Names r)
  /\ (forall n, Registry_Get n r = find (fun m => String.eqb n (Name m)) ms)
  /\ (forall n, Registry_Has n r = true <-> In n (Registry_Names r))
  /\ (forall n, In n (Registry_Names r) <-> In n (map Name ms))
  /\ Registry_Count r = Z.of_nat (length (Registry_Names r))
  /\ (forall m, In (Name m) (Registry_Names r) ->
        Registry_Register m r
        = (Some (Errorf "module %q already registered" [AStr (Name m)]), r)).
Proof.
  intros r.
  pose proof (registerAll_wellFormed ms _ wellFormed_new) as Hwf. fold r in Hwf.
  pose proof (registerAll_order ms _ wellFormed_new) as Hord. fold r in Hord.
  simpl in Hord. destruct Hwf as (Hk & Hnd & Hnm).
  unfold Registry_Names, Registry_Get, Registry_Has, Registry_Count.
  split; [exact Hord|]. split; [exact Hnd|]. split; [|split; [|split; [|split]]].
  - intros n. unfold r. rewrite (registerAll_get ms _ n wellFormed_new). reflexivity.
  - intros n. destruct (mapGet (modules r) n) eqn:Hg.
    + split; [intros _ | reflexivity].
      destruct (in_dec string_dec n (order r)) as [H|H]; [exact H|].
      rewrite <- Hk in H. apply mapGet_None in H. congruence.
    + split; [discriminate|]. intros H. apply mapGet_None in Hg.
      rewrite Hk in Hg. contradiction.
  - intros n. rewrite Hord, firstOccurrences_In. simpl. tauto.
  - rewrite <- Hk, length_map. reflexivity.
  - intros m Hin. apply Register_known; [exact Hin|]. repeat split; assumption.
Qed.

(** Extra X28.  On a registry of modules with distinct names,
    [InitializeAll] initializes the modules in the order of registration.
    When every module succeeds it returns nil after the last one.  When a
    module fails after others that succeed, it stops there: the error names
    that module and wraps its error, and no module registered later is
    initialized. *)
Theorem initialize_all_stops_at_the_first_failure
  {W : Type} (ms : list (AModule W)) (w : W) :
  NoDup (map Name ms) ->
  ((forall m w', In m ms -> fst (Initialize m w') = None) ->
   Registry_InitializeAll (registerAll ms NewModuleRegistry) w
   = Ret (None, fold_left (fun w m => snd (Initialize m w)) ms w,
          map Initialized (map Name ms)))
  /\ (forall (pre post : list (AModule W)) (m : AModule W) (e : error),
        ms = (pre ++ m :: post)%list ->
        (forall m' w', In m' pre -> fst (Initialize m' w') = None) ->
        (forall w', fst (Initialize m w') = Some e) ->
        Registry_InitializeAll (registerAll ms NewModuleRegistry) w
        = Ret (Some (Errorf "module %q initialization failed: %w"
                            [AStr (Name m); AErr e]),
               fold_left (fun w m => snd (Initialize m w)) (pre ++ [m])%list w,
               map Initialized (map Name (pre ++ [m])%list))).
Proof.
  intros Hnd.
  assert (Hreg : registerAll ms NewModuleRegistry
                 = mkRegistry (map (fun m => (Name m, m)) ms) (map Name ms)).
  { apply (registerAll_distinct ms NewModuleRegistry wellFormed_new). exact Hnd. }
  unfold Registry_InitializeAll. rewrite Hreg. cbn [order].
  split.
  - intros Hok. rewrite (InitializeAll_loop_passes _ ms); [reflexivity | | exact Hok].
    intros m Hin. apply mapGet_named; assumption.
  - intros pre post m e -> Hok Hbad.
    rewrite (InitializeAll_loop_stops _ pre post m e); [reflexivity | | exact Hok | exact Hbad].
    intros m' Hin. apply mapGet_named; [exact Hnd|].
    apply in_app_or in Hin. apply in_or_app.
    destruct Hin as [H|[<-|[]]]; [now left | right; now left].
Qed.

Lemma initialize_all_stops_at_the_first_failure_witness :
  Registry_InitializeAll (registerAll threeModules NewModuleRegistry) 0%nat
  = Ret (Some (Errorf "module %q initialization failed: %w"
                      [AStr "email"; AErr (Errorf "no route to host" [])]),
         2%nat, [Initialized "sms"; Initialized "email"]).
Proof.
  assert (Hnd : NoDup (map Name threeModules)).
  { repeat constructor; simpl; intuition discriminate. }
  assert (Hok : forall (m' : AModule nat) (w' : nat),
             In m' [okModule "sms"] -> fst (Initialize m' w') = None).
  { intros m' w' [<-|[]]. reflexivity. }
  exact (proj2 (initialize_all_stops_at_the_first_failure threeModules 0%nat Hnd)
               [okModule "sms"] [okModule "websocket"] (badModule "email")
               (Errorf "no route to host" []) eq_refl Hok (fun _ => eq_refl)).
Defined.

Lemma combineErrors_None (errorText : error -> string) (errs : list error) :
  combineErrors errorText errs = None <-> errs = [].
Proof.
  destruct errs as [|e [|e' errs]]; simpl; split; intros H; try reflexivity;
    discriminate.
Qed.

Lemma shutdownFailures_nil {W : Type} (res : AModule W -> option error)
                           (l : list (AModule W)) :
  flat_map (shutdownFailure res) l = [] <-> (forall m, In m l -> res m = None).
Proof.
  induction l as [|a l IH]; simpl.
  - split; [intros _ m [] | reflexivity].
  - unfold shutdownFailure at 1. destruct (res a) eqn:Ha; simpl.
    + split; [discriminate|]. intros H. specialize (H a (or_introl eq_refl)). congruence.
    + rewrite IH. split.
      * intros H m [<-|Hin]; auto.
      * intros H m Hin. apply H. now right.
Qed.

(** Extra X29.  On a registry of modules with distinct names, whose
    shutdown results are [res], [ShutdownAll] shuts down every module, from
    the last registered to the first, also after a failure.  It collects the
    failures in that order, each wrapped with the name of its module, and
    returns nil exactly when no module failed; a single failure is returned
    as it is, several are joined into one message. *)
Theorem shutdown_all_reaches_every_module
  {W : Type} (errorText : error -> string) (ms : list (AModule W))
  (res : AModule W -> option error) (w : W) :
  NoDup (map Name ms) ->
  (forall m w', In m ms -> fst (Shutdown m w') = res m) ->
  Registry_ShutdownAll errorText (registerAll ms NewModuleRegistry) w
  = Ret (combineErrors errorText (flat_map (shutdownFailure res) (List.rev ms)),
         fold_left (fun w m => snd (Shutdown m w)) (List.rev ms) w,
         map ShutDown (map Name (List.rev ms)))
  /\ (combineErrors errorText (flat_map (shutdownFailure res) (List.rev ms)) = None
      <-> forall m, In m ms -> res m = None)
  /\ (forall (m : AModule W) (e : error),
        flat_map (shutdownFailure res) (List.rev ms)
        = [Errorf "module %q shutdown failed: %w" [AStr (Name m); AErr e]] ->
        combineErrors errorText (flat_map (shutdownFailure res) (List.rev ms))
        = Some (Errorf "module %q shutdown failed: %w" [AStr (Name m); AErr e])).
Proof.
  intros Hnd Hres.
  assert (Hreg : registerAll ms NewModuleRegistry
                 = mkRegistry (map (fun m => (Name m, m)) ms) (map Name ms)).
  { apply (registerAll_distinct ms NewModuleRegistry wellFormed_new). exact Hnd. }
  split; [|split].
  - unfold Registry_ShutdownAll. rewrite Hreg. cbn [order]. rewrite <- map_rev.
    rewrite (ShutdownAll_loop_all _ res (List.rev ms)); [reflexivity | |].
    + intros m Hin. apply mapGet_named; [exact Hnd|]. apply in_rev, Hin.
    + intros m w' Hin. apply Hres, in_rev, Hin.
  - rewrite combineErrors_None, shutdownFailures_nil. split.
    + intros H m Hin. apply H. apply in_rev in Hin. exact Hin.
    + intros H m Hin. apply H, in_rev, Hin.
  - intros m e ->. reflexivity.
Qed.

Lemma shutdown_all_reaches_every_module_witness :
  Registry_ShutdownAll formatOf (registerAll threeModules NewModuleRegistry) 0%nat
  = Ret (Some (Errorf "module %q shutdown failed: %w"
                      [AStr "email"; AErr (Errorf "still busy" [])]),
         3%nat, [ShutDown "websocket"; ShutDown "email"; ShutDown "sms"]).
Proof.
  assert (Hnd : NoDup (map Name threeModules)).
  { repeat constructor; simpl; intuition discriminate. }
  assert (Hres : forall (m : AModule nat) (w' : nat),
             In m threeModules -> fst (Shutdown m w') = fst (Shutdown m 0%nat)).
  { intros m w' [<-|[<-|[<-|[]]]]; reflexivity. }
  exact (proj1 (shutdown_all_reaches_every_module formatOf threeModules
                  (fun m => fst (Shutdown m 0%nat)) 0%nat Hnd Hres)).
Defined.
